(** * Feishu document writer: Markdown scanner, inline parser and batch writer

    Shallow embedding of [FeishuDoc] from
    [nanobot/skills/feishu/scripts/feishu_doc.py]:

    - [_parse_inline_formatting]  (inline span parser),
    - [_markdown_to_blocks]       (block scanner),
    - [_blocks_to_feishu_json]    (block translator),
    - [_write_children_batch], [write_document_content]  (batch writer),
    - [_create_table_block], [_write_table_as_text]      (table builder).

    Python strings are modelled as [string]; a character is an [ascii],
    read as the code point of the same number (so the model covers the
    code points below 256).  Python's [re] patterns are embedded as
    backtracking matchers written with a few continuation-passing
    combinators, one combinator per regex operator, tried in the order
    the [re] engine tries them. *)

From Stdlib Require Import Bool Arith Lia List String Ascii NArith ZArith QArith.
Import ListNotations.

Local Open Scope string_scope.
Local Open Scope list_scope.
Local Open Scope nat_scope.

Infix "+++" := String.append (right associativity, at level 60).

(** ** Outcomes

    What a call comes to: a value, or one of the two exceptions the
    modelled code can raise. *)
Inductive exn : Type :=
| IndexError      (* an index out of range *)
| ValueError.     (* [int] on too many digits *)

Inductive outcome (A : Type) : Type :=
| Returned (a : A)
| Raised (e : exn).
Arguments Returned {A} a.
Arguments Raised {A} e.

(** ** Python string primitives *)

Module PyStr.

Definition nl : ascii := "010"%char.

(** [str.isspace] on one character, for code points below 256: TAB, LF,
    VT, FF, CR, FS, GS, RS, US, SPACE, NEL (0x85) and NBSP (0xA0).
    The same set is what [\s] matches in a [str] pattern. *)
Definition is_space (c : ascii) : bool :=
  let n := nat_of_ascii c in
  ((9 <=? n) && (n <=? 13)) || ((28 <=? n) && (n <=? 32))
  || (n =? 133) || (n =? 160).

(** [\d] for code points below 256. *)
Definition is_digit (c : ascii) : bool :=
  let n := nat_of_ascii c in (48 <=? n) && (n <=? 57).

(** [.] without DOTALL: anything but a newline. *)
Definition is_dot (c : ascii) : bool := negb (Ascii.eqb c nl).

Definition is_char (a c : ascii) : bool := Ascii.eqb c a.

(** [c in chars] *)
Fixpoint one_of (chars : string) (c : ascii) : bool :=
  match chars with
  | EmptyString => false
  | String a chars' => Ascii.eqb c a || one_of chars' c
  end.

Definition is_empty (s : string) : bool :=
  match s with EmptyString => true | String _ _ => false end.

Fixpoint forall_chars (p : ascii -> bool) (s : string) : bool :=
  match s with
  | EmptyString => true
  | String c s' => p c && forall_chars p s'
  end.

(** [s.startswith(p)] and the remainder [s[len(p):]] when it does. *)
Fixpoint strip_prefix (p s : string) : option string :=
  match p, s with
  | EmptyString, _ => Some s
  | String a p', String b s' =>
      if Ascii.eqb a b then strip_prefix p' s' else None
  | String _ _, EmptyString => None
  end.

Definition startswith (s p : string) : bool :=
  match strip_prefix p s with Some _ => true | None => false end.

(** [s[n:]] *)
Fixpoint drop (n : nat) (s : string) : string :=
  match n, s with
  | 0, _ => s
  | S n', String _ s' => drop n' s'
  | S _, EmptyString => EmptyString
  end.

(** [sub in s] *)
Fixpoint contains (sub s : string) : bool :=
  startswith s sub ||
  match s with
  | EmptyString => false
  | String _ s' => contains sub s'
  end.

(** [s.lstrip()], [s.rstrip()], [s.strip()] *)
Fixpoint lstrip (s : string) : string :=
  match s with
  | EmptyString => EmptyString
  | String c s' => if is_space c then lstrip s' else s
  end.

Fixpoint rstrip (s : string) : string :=
  match s with
  | EmptyString => EmptyString
  | String c s' =>
      let r := rstrip s' in
      if is_space c && is_empty r then EmptyString else String c r
  end.

Definition strip (s : string) : string := rstrip (lstrip s).

(** [s.split(sep)] for a one-character separator: always at least one
    piece. *)
Fixpoint split (sep : ascii) (s : string) : list string :=
  match s with
  | EmptyString => [EmptyString]
  | String c s' =>
      if Ascii.eqb c sep then EmptyString :: split sep s'
      else match split sep s' with
           | piece :: pieces => String c piece :: pieces
           | [] => [String c EmptyString]
           end
  end.

(** [sep.join(pieces)] *)
Definition join (sep : string) (pieces : list string) : string :=
  String.concat sep pieces.

(** The value of a run of decimal digits. *)
Fixpoint int_acc (acc : N) (s : string) : N :=
  match s with
  | EmptyString => acc
  | String c s' => int_acc (acc * 10 + (N_of_ascii c - 48))%N s'
  end.

(** [sys.int_max_str_digits]: the default limit of CPython (3.11 and later)
    on the number of digits [int] converts. *)
Definition int_max_str_digits : nat := 4300.

(** [int(digits)] for a run of decimal digits: [ValueError] when the run
    has more digits than the limit, leading zeros counted. *)
Definition int (digits : string) : outcome N :=
  if int_max_str_digits <? String.length digits then Raised ValueError
  else Returned (int_acc 0%N digits).

End PyStr.
Import PyStr.

(** ** Backtracking regex combinators

    A matcher for a regex [r] followed by "whatever comes next" takes the
    continuation [k] for what comes next and the remaining input, and
    returns the first success in the order the backtracking engine explores
    the alternatives. *)

Module Re.
Section Combinators.
Context {A : Type}.

(** [a|b]: the left alternative first. *)
Definition orelse (a b : option A) : option A :=
  match a with Some x => Some x | None => b end.

(** A literal string. *)
Definition lit (p : string) (k : string -> option A) (s : string) : option A :=
  match strip_prefix p s with
  | Some r => k r
  | None => None
  end.

(** [[class]{lo,hi}], greedy: take one more character whenever allowed and
    try the rest of the pattern from there first; give the character back
    when that fails.  [hi = None] is "no upper bound". *)
Fixpoint greedy (lo : nat) (hi : option nat) (p : ascii -> bool)
         (k : string -> string -> option A) (s : string) : option A :=
  let stop := match lo with 0 => k EmptyString s | S _ => None end in
  match s with
  | EmptyString => stop
  | String c s' =>
      let more_allowed := match hi with Some 0 => false | _ => true end in
      if p c && more_allowed then
        orelse (greedy (pred lo) (option_map pred hi) p
                       (fun m r => k (String c m) r) s')
               stop
      else stop
  end.

(** [[class]+?], lazy: take one character, try the rest of the pattern,
    and only take more when that fails. *)
Fixpoint lazy_plus (p : ascii -> bool)
         (k : string -> string -> option A) (s : string) : option A :=
  match s with
  | EmptyString => None
  | String c s' =>
      if p c then
        orelse (k (String c EmptyString) s')
               (lazy_plus p (fun m r => k (String c m) r) s')
      else None
  end.

(** [$] without MULTILINE: at the end, or just before a final newline. *)
Definition at_end (r : string) : bool :=
  match r with
  | EmptyString => true
  | String c EmptyString => Ascii.eqb c nl
  | _ => false
  end.

Definition eol (a : A) (r : string) : option A :=
  if at_end r then Some a else None.

End Combinators.
End Re.
Import Re.

(** ** Inline span parser: [_parse_inline_formatting] *)

Inductive style : Type :=
| plain | bold_italic | bold | italic | code | strikethrough
| link (url : string).

(** One entry of [segments]: [{"text": ..., "style": ..., "url": ...}]. *)
Record segment : Type := Segment { seg_text : string; seg_style : style }.

(** The six alternatives of [pattern], in the order of the source.  Each
    alternative has one group that cannot be empty ([.+?] or [[^...]+]), so
    the test [if m.group(2) / elif m.group(4) / ...] selects exactly the
    alternative that matched; the matcher returns the segment that branch
    appends, and the text after [m.end()]. *)
Definition delimited (d : string) (st : style) (s : string)
  : option (segment * string) :=
  lit d (lazy_plus is_dot
           (fun g => lit d (fun r => Some (Segment g st, r)))) s.

Definition link_alternative (s : string) : option (segment * string) :=
  lit "["
    (greedy 1 None (fun c => negb (is_char "]" c))
       (fun g12 =>
          lit "]("
            (greedy 1 None (fun c => negb (is_char ")" c))
               (fun g13 => lit ")" (fun r => Some (Segment g12 (link g13), r)))))) s.

Definition pattern_match (s : string) : option (segment * string) :=
  orelse (delimited "***" bold_italic s)
 (orelse (delimited "**" bold s)
 (orelse (delimited "*" italic s)
 (orelse (delimited "`" code s)
 (orelse (delimited "~~" strikethrough s)
         (link_alternative s))))).

(** [pattern.search(text, pos)]: the leftmost position where an alternative
    matches; returns [text[pos:m.start()]], the segment and [text[m.end():]]. *)
Fixpoint pattern_search (s : string) : option (string * segment * string) :=
  match pattern_match s with
  | Some (seg, r) => Some (EmptyString, seg, r)
  | None =>
      match s with
      | EmptyString => None
      | String c s' =>
          match pattern_search s' with
          | Some (pre, seg, r) => Some (String c pre, seg, r)
          | None => None
          end
      end
  end.

Definition plain_segment (t : string) : list segment :=
  if is_empty t then [] else [Segment t plain].

(** The [for m in pattern.finditer(text)] loop followed by the "remaining
    text" step, from position [last_end] on ([s = text[last_end:]]).  Every
    match consumes at least two characters, so [fuel] larger than the length
    of [s] is never used up. *)
Fixpoint segments_from (fuel : nat) (s : string) : list segment :=
  match fuel with
  | 0 => []
  | S fuel' =>
      match pattern_search s with
      | Some (pre, seg, r) => plain_segment pre ++ seg :: segments_from fuel' r
      | None => plain_segment s
      end
  end.

(** The returned dictionary: [{"content", "format": "plain"}] or
    [{"content", "format": "rich", "segments"}]. *)
Inductive formatted_text : Type :=
| FormatPlain (content : string)
| FormatRich (content : string) (segments : list segment).

Definition _parse_inline_formatting (text : string) : formatted_text :=
  let segments := segments_from (S (String.length text)) text in
  match segments with
  | [] => FormatPlain text
  | _ => FormatRich text segments
  end.

(** The spans a result stands for: the segments of a rich result, and the
    single plain run that a ["format": "plain"] result is. *)
Definition spans (r : formatted_text) : list segment :=
  match r with
  | FormatPlain content => [Segment content plain]
  | FormatRich _ segments => segments
  end.

(** What stands around the content of a span of each style in the line:
    the opening delimiter before it; after it the closing delimiter and, for
    a link, the URL between ["]("] and [")"].  The URL is not a delimiter:
    it is text of the line that the span holds under ["url"], not in its
    content. *)
Definition open_delimiter (st : style) : string :=
  match st with
  | plain => ""
  | bold_italic => "***"
  | bold => "**"
  | italic => "*"
  | code => "`"
  | strikethrough => "~~"
  | link _ => "["
  end.

Definition closing_markup (st : style) : string :=
  match st with
  | plain => ""
  | bold_italic => "***"
  | bold => "**"
  | italic => "*"
  | code => "`"
  | strikethrough => "~~"
  | link url => "](" +++ url +++ ")"
  end.

Definition with_markup (seg : segment) : string :=
  open_delimiter (seg_style seg) +++ seg_text seg +++ closing_markup (seg_style seg).

Definition concat_map (f : segment -> string) (l : list segment) : string :=
  String.concat "" (map f l).

(** [_make_text_elements]: the same pattern and the same loop, each run
    wrapped as [{"text_run": {"content", "text_element_style"}}]; when no
    element was produced the whole text is the single run. *)
Definition _make_text_elements (text : string) : list segment :=
  match segments_from (S (String.length text)) text with
  | [] => [Segment text plain]
  | elements => elements
  end.

(** ** Block scanner: [_markdown_to_blocks] *)

(** ["text"] of a paragraph is the dictionary of [_parse_inline_formatting],
    or the bare line for an unclosed code fence. *)
Inductive paragraph_text : Type :=
| TextStr (line : string)
| TextFormatted (formatted : formatted_text).

(** [{"type": ..., "data": {...}}] *)
Inductive block : Type :=
| Heading (level : nat) (text : string)
| Divider
| BulletList (items : list string)
| OrderedList (items : list string)
| Code (language code_text : string)
| Quote (text : string)
| Table (headers : list string) (rows : list (list string))
| Paragraph (text : paragraph_text).

(** [^(#{1,6})\s+(.+)$]: groups 1 and 2. *)
Definition match_heading (line : string) : option (string * string) :=
  greedy 1 (Some 6) (is_char "#")
    (fun g1 => greedy 1 None is_space
       (fun _ => greedy 1 None is_dot (fun g2 => eol (g1, g2)))) line.

(** [^[-*_]{3,}\s*$] *)
Definition match_divider (line : string) : option unit :=
  greedy 3 None (one_of "-*_")
    (fun _ => greedy 0 None is_space (fun _ => eol tt)) line.

(** [^[-*+]\s+(.+)$]: group 1. *)
Definition match_bullet (line : string) : option string :=
  greedy 1 (Some 1) (one_of "-*+")
    (fun _ => greedy 1 None is_space
       (fun _ => greedy 1 None is_dot (fun g1 => eol g1))) line.

(** [^(\d+)\.\s+(.+)$]: groups 1 and 2. *)
Definition match_ordered (line : string) : option (string * string) :=
  greedy 1 None is_digit
    (fun g1 => lit "."
       (greedy 1 None is_space
          (fun _ => greedy 1 None is_dot (fun g2 => eol (g1, g2))))) line.

(** Group 2 of that pattern: [next_match.group(2)] in the item loop. *)
Definition ordered_item (line : string) : option string :=
  option_map snd (match_ordered line).

(** [(\.\d+)+] followed by [k]: after each group, one more group is tried
    before [k].  A group takes at least two characters, so [fuel] above the
    length of the input is never used up. *)
Fixpoint dotted_groups (fuel : nat) (k : string -> option unit) (s : string)
  : option unit :=
  match fuel with
  | 0 => None
  | S fuel' =>
      lit "." (greedy 1 None is_digit
                 (fun _ r => orelse (dotted_groups fuel' k r) (k r))) s
  end.

(** [^\d+(\.\d+)+\s+] *)
Definition match_subsection (s : string) : option unit :=
  greedy 1 None is_digit
    (fun _ => dotted_groups (S (String.length s))
                (greedy 1 None is_space (fun _ _ => Some tt))) s.

(** [^[#\-*+>]] *)
Definition match_block_start (s : string) : bool :=
  match s with
  | EmptyString => false
  | String c _ => one_of "#-*+>" c
  end.

(** [while j < len(lines): m = f(lines[j]); if m: append; j += 1 else break]:
    the collected values and [lines[j:]]. *)
Fixpoint collect {A : Type} (f : string -> option A) (lines : list string)
  : list A * list string :=
  match lines with
  | [] => ([], [])
  | l :: rest =>
      match f l with
      | Some a => let (items, rest') := collect f rest in (a :: items, rest')
      | None => ([], lines)
      end
  end.

(** [[cell.strip() for cell in line.split('|') if cell.strip()]] *)
Definition cells_of (line : string) : list string :=
  filter (fun cell => negb (is_empty cell)) (map strip (split "|" line)).

Definition is_nil {A : Type} (l : list A) : bool :=
  match l with [] => true | _ :: _ => false end.

Definition is_some {A : Type} (o : option A) : bool :=
  match o with Some _ => true | None => false end.

(** The row loop of the table rule, from [j = i + 2]: lines that contain
    ['|'] and no ['--'] are consumed; those with a non-empty cell list are
    appended to [table_rows]. *)
Fixpoint table_body (lines : list string) : list (list string) * list string :=
  match lines with
  | [] => ([], [])
  | l :: rest =>
      if contains "|" l && negb (contains "--" l) then
        let (rows, rest') := table_body rest in
        let row_cells := cells_of l in
        (if is_nil row_cells then rows else row_cells :: rows, rest')
      else ([], lines)
  end.

(** A paragraph continuation line: [lines[j].strip()] is non-empty and does
    not match [^[#\-*+>]]; the stripped line is what is appended. *)
Definition continuation (raw : string) : option string :=
  let stripped := strip raw in
  if is_empty stripped || match_block_start stripped then None
  else Some stripped.

(** The default rule (lines 556-575). *)
Definition paragraph_rule (line : string) (rest : list string)
  : list block * list string :=
  let (more, rest') := collect continuation rest in
  let text := join " " (line :: more) in
  ([Paragraph (TextFormatted (_parse_inline_formatting text))], rest').

(** The table rule (lines 529-554): [Some] when the [continue] at its end is
    reached, [None] when control falls out of it to the paragraph rule. *)
Definition table_rule (line : string) (rest : list string)
  : option (list block * list string) :=
  if contains "|" line && negb (startswith line "|--") then
    let cells := cells_of line in
    if is_nil cells then None
    else
      match rest with
      | next :: rest1 =>
          if contains "|" next && contains "--" next then
            let (rows, rest') := table_body rest1 in
            if is_nil rows then None          (* len(table_rows) > 1 fails *)
            else Some ([Table cells rows], rest')
          else None
      | [] => None
      end
  else None.

(** The code-fence loop: the lines before the first one that starts with
    three backticks, and the lines after it when there is one. *)
Fixpoint fence_body (lines : list string) : list string * option (list string) :=
  match lines with
  | [] => ([], None)
  | l :: rest =>
      if startswith l "```" then ([], Some rest)
      else let (code_lines, after) := fence_body rest in (l :: code_lines, after)
  end.

(** One iteration of [while i < len(lines)], with [raw = lines[i]] and
    [rest = lines[i+1:]]: the blocks appended and [lines[i':]] for the new
    value [i'] of the cursor, or the exception of [int] on the number of
    an ordered-list line. *)
Definition scan_step (raw : string) (rest : list string)
  : outcome (list block * list string) :=
  let line := rstrip raw in
  if is_empty line then Returned ([], rest)
  else
    match match_heading line with
    | Some (hashes, text) => Returned ([Heading (String.length hashes) text], rest)
    | None =>
    match match_divider line with
    | Some _ => Returned ([Divider], rest)
    | None =>
    match match_bullet line with
    | Some text =>
        let (items, rest') := collect match_bullet rest in
        Returned ([BulletList (text :: items)], rest')
    | None =>
    let later_rules :=
      Returned
        (if startswith line "```" then
           let language :=
             let tag := strip (drop 3 line) in
             if is_empty tag then "plaintext" else tag in
           match fence_body rest with
           | (code_lines, Some after) =>
               ([Code language (join (String nl "") code_lines)], after)
           | (_, None) => ([Paragraph (TextStr line)], rest)
           end
         else if startswith line "> " then
           let (more, rest') := collect (strip_prefix "> ") rest in
           ([Quote (join (String nl "") (drop 2 line :: more))], rest')
         else
           match table_rule line rest with
           | Some out => out
           | None => paragraph_rule line rest
           end) in
    match match_ordered line with
    | Some (digits, text) =>
        match int digits with
        | Raised e => Raised e
        | Returned num =>
            let is_subsection := match_subsection (strip line) in
            if (num <=? 3)%N && negb (is_some is_subsection) then
              let (items, rest') := collect ordered_item rest in
              Returned ([OrderedList (text :: items)], rest')
            else later_rules
        end
    | None => later_rules
    end end end end.

(** [blocks] appended before what the rest of the loop comes to. *)
Definition prepend (blocks : list block) (o : outcome (list block))
  : outcome (list block) :=
  match o with
  | Returned more => Returned (blocks ++ more)
  | Raised e => Raised e
  end.

(** The [while] loop.  Each iteration consumes [lines[i]] at least, so
    [fuel] equal to the number of lines is never used up; an exception
    leaves the loop and the function. *)
Fixpoint scan (fuel : nat) (lines : list string) : outcome (list block) :=
  match fuel, lines with
  | S fuel', raw :: rest =>
      match scan_step raw rest with
      | Returned (blocks, rest') => prepend blocks (scan fuel' rest')
      | Raised e => Raised e
      end
  | _, _ => Returned []
  end.

Definition _markdown_to_blocks (markdown : string) : outcome (list block) :=
  let lines := split nl markdown in
  scan (List.length lines) lines.

(** ** Block translator: [_blocks_to_feishu_json] *)

(** The key under which a wire block holds its text object. *)
Inductive content_key : Type :=
| heading_key (level : nat)      (* f"heading{level}" *)
| text_key | bullet_key | ordered_key | code_key | quote_key.

(** A wire block: [{"block_type": n, key: {"elements": [...]}}],
    [{"block_type": 22, "divider": {}}], or the table shell
    [{"block_type": 31, "table": {"property": {"row_size", "column_size"}}}]. *)
Inductive feishu_block : Type :=
| TextBlock (block_type : nat) (key : content_key) (elements : list segment)
| DividerBlock
| TableShell (row_size column_size : nat).

Definition block_type_of (b : feishu_block) : nat :=
  match b with
  | TextBlock n _ _ => n
  | DividerBlock => 22
  | TableShell _ _ => 31
  end.

Definition text_block (content : string) : feishu_block :=
  TextBlock 2 text_key (_make_text_elements content).

Definition _blocks_to_feishu_json (b : block) : list feishu_block :=
  match b with
  | Heading level text =>
      [TextBlock (2 + level) (heading_key level) (_make_text_elements text)]
  | Paragraph text_data =>
      let content :=
        match text_data with
        | TextFormatted (FormatPlain content) => content
        | TextFormatted (FormatRich content _) => content
        | TextStr line => line
        end in
      [text_block content]
  | BulletList items =>
      map (fun item => TextBlock 12 bullet_key (_make_text_elements item)) items
  | OrderedList items =>
      map (fun item => TextBlock 13 ordered_key (_make_text_elements item)) items
  | Code _ code_text => [TextBlock 14 code_key (_make_text_elements code_text)]
  | Quote text => [TextBlock 15 quote_key (_make_text_elements text)]
  | Divider => [DividerBlock]
  | Table headers rows =>
      text_block (join " | " headers)
      :: map (fun row => text_block (join " | " row)) rows
  end.

(** ** The remote store and the writer monad *)

(** [POST /docx/v1/documents/{document_id}/blocks/{parent_block_id}/children]
    with body [{"children": children, "index": -1}]. *)
Record request : Type := Request {
  document_id : string;
  parent_block_id : string;
  children : list feishu_block
}.

(** One entry of the [children] array of a response; [cells] is
    [entry.get('table', {}).get('cells', [])]. *)
Record child : Type := Child { cells : list string }.

(** What the writer looks at in the value of [api.post]: [None] stands for a
    falsy result ([None] or an empty dictionary), [Some children] for any
    other dictionary, with [children = result.get('children', [])]. *)
Definition response : Type := option (list child).

(** The lines the writer prints. *)
Inductive message : Type :=
| WritingContent (document : string)              (* "写入文档内容" *)
| ConversionFailed                                (* "内容转换失败" *)
| NothingToWrite                                  (* "没有内容可写入" *)
| WriteDone (success_count total_count : nat)     (* "内容写入完成: s/t 个块成功" *)
| WritePartlyFailed (success_count total_count : nat) (* "内容写入部分失败" *)
| BatchFailed (size : nat)                        (* "写入 n 个块失败" *)
| EmptyTableSkipped                               (* "空表格，跳过" *)
| CreatingTable (row_count col_count : nat)       (* "创建表格: r行 × c列" *)
| ShellFailedFallback                             (* "创建表格失败, 回退为文本" *)
| ShellReturnedNothing                            (* "表格创建返回为空" *)
| CellsMissing (expected actual : nat)            (* "单元格数量不足" *)
| TableFilled (filled total_cells : nat).         (* "表格填充完成: f/t 个单元格" *)

Section Writer.

(** The transport: an arbitrary stateful collaborator. *)
Context {Store : Type}.
Variable post : Store -> request -> Store * response.

(** What the run has done so far: the state of the store, every request
    posted with the result it got, and every line printed, oldest first. *)
Record world : Type := World {
  store : Store;
  exchanges : list (request * response);
  printed : list message
}.


Definition M (A : Type) : Type := world -> outcome A * world.

Definition ret {A : Type} (a : A) : M A := fun w => (Returned a, w).

Definition bind {A B : Type} (m : M A) (f : A -> M B) : M B :=
  fun w =>
    match m w with
    | (Returned a, w') => f a w'
    | (Raised e, w') => (Raised e, w')
    end.

Definition raise {A : Type} (e : exn) : M A := fun w => (Raised e, w).

(** The outcome of a call that touches neither the store nor the output. *)
Definition of_outcome {A : Type} (o : outcome A) : M A := fun w => (o, w).

Definition api_post (r : request) : M response :=
  fun w =>
    let (store', result) := post (store w) r in
    (Returned result,
     {| store := store';
        exchanges := exchanges w ++ [(r, result)];
        printed := printed w |}).

Definition print (m : message) : M unit :=
  fun w =>
    (Returned tt,
     {| store := store w;
        exchanges := exchanges w;
        printed := printed w ++ [m] |}).

(** [l[i]] for [i >= 0]. *)
Definition item {A : Type} (l : list A) (i : nat) : M A :=
  match nth_error l i with
  | Some a => ret a
  | None => raise IndexError
  end.

Notation "x <- m ;; k" := (bind m (fun x => k))
  (at level 61, m at next level, right associativity).
Notation "m ;;; k" := (bind m (fun _ => k))
  (at level 61, right associativity).

(** [for x in xs: acc = body(x, acc)] *)
Fixpoint for_each {A S : Type} (xs : list A) (body : A -> S -> M S) (acc : S)
  : M S :=
  match xs with
  | [] => ret acc
  | x :: xs' => acc' <- body x acc ;; for_each xs' body acc'
  end.

(** [range(0, stop, step)] *)
Definition range_step (stop step : nat) : list nat :=
  map (fun k => k * step) (seq 0 ((stop + step - 1) / step)).

(** [l[i:j]] *)
Definition slice {A : Type} (l : list A) (i j : nat) : list A :=
  firstn (j - i) (skipn i l).

Definition batch_size : nat := 50.

(** The batches the loop of [_write_children_batch] cuts a list into. *)
Definition batches (feishu_blocks : list feishu_block) : list (list feishu_block) :=
  map (fun i => slice feishu_blocks i (i + batch_size))
      (range_step (List.length feishu_blocks) batch_size).

(** ** Batch writer: [_write_children_batch] *)
Definition _write_children_batch (doc parent : string)
           (feishu_blocks : list feishu_block) : M nat :=
  for_each (range_step (List.length feishu_blocks) batch_size)
    (fun i success =>
       let batch := slice feishu_blocks i (i + batch_size) in
       result <- api_post (Request doc parent batch) ;;
       match result with
       | Some children_back =>
           ret (success + (if is_nil children_back then List.length batch
                           else List.length children_back))
       | None => print (BatchFailed (List.length batch)) ;;; ret success
       end)
    0.

(** ** Table builder *)

(** [_write_table_as_text] *)
Definition table_text_blocks (headers : list string) (rows : list (list string))
  : list feishu_block :=
  (if is_nil headers then [] else [text_block (join " | " headers)])
  ++ map (fun row => text_block (join " | " row)) rows.

Definition _write_table_as_text (doc parent : string)
           (headers : list string) (rows : list (list string)) : M unit :=
  let text_blocks := table_text_blocks headers rows in
  if is_nil text_blocks then ret tt
  else _write_children_batch doc parent text_blocks ;;; ret tt.

(** The inner loop [for col_idx, cell_text in enumerate(row)], from column
    [col_idx] on; [break] leaves it. *)
Fixpoint fill_row (doc : string) (cell_ids : list string)
         (col_count row_idx col_idx : nat) (row : list string) (filled : nat)
  : M nat :=
  match row with
  | [] => ret filled
  | cell_text :: row' =>
      let cell_index := row_idx * col_count + col_idx in
      if List.length cell_ids <=? cell_index then ret filled
      else
        cell_block_id <- item cell_ids cell_index ;;
        cell_result <- api_post (Request doc cell_block_id [text_block cell_text]) ;;
        fill_row doc cell_ids col_count row_idx (S col_idx) row'
                 (if is_some cell_result then S filled else filled)
  end.

(** The outer loop [for row_idx, row in enumerate(all_rows)]. *)
Fixpoint fill_rows (doc : string) (cell_ids : list string)
         (col_count row_idx : nat) (all_rows : list (list string)) (filled : nat)
  : M nat :=
  match all_rows with
  | [] => ret filled
  | row :: more =>
      filled' <- fill_row doc cell_ids col_count row_idx 0 row filled ;;
      fill_rows doc cell_ids col_count (S row_idx) more filled'
  end.

Definition col_count_of (headers : list string) (rows : list (list string)) : nat :=
  if is_nil headers
  then match rows with row0 :: _ => List.length row0 | [] => 0 end
  else List.length headers.

Definition row_count_of (headers : list string) (rows : list (list string)) : nat :=
  (if is_nil headers then 0 else 1) + List.length rows.

Definition all_rows_of (headers : list string) (rows : list (list string))
  : list (list string) :=
  (if is_nil headers then [] else [headers]) ++ rows.

(** [_create_table_block] *)
Definition _create_table_block (doc parent : string)
           (headers : list string) (rows : list (list string)) : M bool :=
  let col_count := col_count_of headers rows in
  let row_count := row_count_of headers rows in
  if (col_count =? 0) || (row_count =? 0) then
    print EmptyTableSkipped ;;; ret false
  else
    print (CreatingTable row_count col_count) ;;;
    result <- api_post (Request doc parent [TableShell row_count col_count]) ;;
    match result with
    | None =>
        print ShellFailedFallback ;;;
        _write_table_as_text doc parent headers rows ;;;
        ret false
    | Some children_back =>
        if is_nil children_back then
          print ShellReturnedNothing ;;; ret false
        else
          table_info <- item children_back 0 ;;
          let cell_ids := cells table_info in
          (if List.length cell_ids <? row_count * col_count
           then print (CellsMissing (row_count * col_count) (List.length cell_ids))
           else ret tt) ;;;
          filled <- fill_rows doc cell_ids col_count 0 (all_rows_of headers rows) 0 ;;
          print (TableFilled filled (row_count * col_count)) ;;;
          ret (0 <? filled)
    end.

(** ** Top-level writer: [write_document_content] *)

(** The loop state: [pending_blocks], [success_count], [total_count]. *)
Record counters : Type := Counters {
  pending_blocks : list feishu_block;
  success_count : nat;
  total_count : nat
}.

(** [n = _write_children_batch(...); success_count += n;
     total_count += len(pending_blocks); pending_blocks = []] *)
Definition flush (doc : string) (c : counters) : M counters :=
  n <- _write_children_batch doc doc (pending_blocks c) ;;
  ret (Counters [] (success_count c + n)
                (total_count c + List.length (pending_blocks c))).

(** The body of [for block in blocks]. *)
Definition write_block (doc : string) (b : block) (c : counters) : M counters :=
  match b with
  | Table headers rows =>
      c1 <- (if is_nil (pending_blocks c) then ret c else flush doc c) ;;
      ok <- _create_table_block doc doc headers rows ;;
      ret (Counters (pending_blocks c1)
                    (if ok then success_count c1 + 1 else success_count c1)
                    (total_count c1 + 1))
  | _ =>
      let c1 := Counters (pending_blocks c ++ _blocks_to_feishu_json b)
                         (success_count c) (total_count c) in
      if 50 <=? List.length (pending_blocks c1) then flush doc c1 else ret c1
  end.

(** Lines 91-125: the loop over the blocks and the flush of what is left. *)
Definition write_blocks (doc : string) (blocks : list block) : M counters :=
  c <- for_each blocks (write_block doc) (Counters [] 0 0) ;;
  if is_nil (pending_blocks c) then ret c
  else
    n <- _write_children_batch doc doc (pending_blocks c) ;;
    ret (Counters (pending_blocks c) (success_count c + n)
                  (total_count c + List.length (pending_blocks c))).

(** [success_count / total_count]: the quotient of two non-negative
    integers, here as an exact rational.  Python's float quotient is the
    correctly rounded value of it, and [0.5] is a float, so for
    [total_count < 2^53] the float comparison [> 0.5] gives the same answer
    as the exact one. *)
Definition success_rate (success total : nat) : Q :=
  (inject_Z (Z.of_nat success) / inject_Z (Z.of_nat total))%Q.

Definition rate_above_half (success total : nat) : bool :=
  if Qlt_le_dec (1 # 2) (success_rate success total) then true else false.

Definition write_document_content (doc content : string) : M bool :=
  print (WritingContent doc) ;;;
  blocks <- of_outcome (_markdown_to_blocks content) ;;
  if is_nil blocks then print ConversionFailed ;;; ret false
  else
    c <- write_blocks doc blocks ;;
    if total_count c =? 0 then print NothingToWrite ;;; ret false
    else if rate_above_half (success_count c) (total_count c) then
      print (WriteDone (success_count c) (total_count c)) ;;; ret true
    else
      print (WritePartlyFailed (success_count c) (total_count c)) ;;; ret false.

(** [m], run from [w], returns [a] and ends in [w'], having made the
    exchanges [ex] with the store and printed [msgs]. *)
Definition yields {A : Type} (m : M A) (w : world) (a : A)
           (ex : list (request * response)) (msgs : list message)
           (w' : world) : Prop :=
  m w = (Returned a, w')
  /\ exchanges w' = exchanges w ++ ex
  /\ printed w' = printed w ++ msgs.

End Writer.

Arguments World {Store} store exchanges printed.

(** A fresh run: nothing sent, nothing printed. *)
Definition start {Store : Type} (s : Store) : world := World s [] [].

(** ** Reference notions used in the statements *)


(** The longest prefix of lines that satisfy [f], and what follows it. *)
Fixpoint take_while {A : Type} (f : A -> bool) (l : list A) : list A :=
  match l with
  | x :: l' => if f x then x :: take_while f l' else []
  | [] => []
  end.

Fixpoint drop_while {A : Type} (f : A -> bool) (l : list A) : list A :=
  match l with
  | x :: l' => if f x then drop_while f l' else l
  | [] => []
  end.

(** A line the row loop of the table rule consumes: it contains ['|'] and
    no ['--']. *)
Definition is_row_line (l : string) : bool :=
  contains "|" l && negb (contains "--" l).

(** A separator line as the scanner tests it (['|'] and ['--']), and as the
    spec words it (['|'] and ['-']). *)
Definition is_separator_line (l : string) : bool :=
  contains "|" l && contains "--" l.


(** A line a paragraph absorbs: not blank, and its first non-blank character
    is none of [#], [-], [*], [+], [>]. *)
Definition is_continuation (l : string) : bool := is_some (continuation l).

(** No rule before the table rule takes [line] (a right-stripped line): it
    is not blank, not a heading, not a divider, not a bullet item, does not
    start an ordered list, is not a code fence and not a quote. *)
Definition starts_ordered_list (line : string) : bool :=
  match match_ordered line with
  | Some (digits, _) =>
      match int digits with
      | Returned num =>
          (num <=? 3)%N && negb (is_some (match_subsection (strip line)))
      | Raised _ => false
      end
  | None => false
  end.

(** The number of a [<digits>. <text>] line has more digits than [int]
    converts: the ordered-list test raises on such a line. *)
Definition number_too_long (line : string) : bool :=
  match match_ordered line with
  | Some (digits, _) => int_max_str_digits <? String.length digits
  | None => false
  end.

Definition reaches_table_rule (line : string) : bool :=
  negb (is_empty line)
  && negb (is_some (match_heading line))
  && negb (is_some (match_divider line))
  && negb (is_some (match_bullet line))
  && negb (number_too_long line)
  && negb (starts_ordered_list line)
  && negb (startswith line "```")
  && negb (startswith line "> ").

Definition is_table (b : block) : bool :=
  match b with Table _ _ => true | _ => false end.

(** The rows the table rule keeps from the lines after the separator: the
    cells of each consumed line that has a non-empty cell. *)
Definition rows_of (lines : list string) : list (list string) :=
  filter (fun row => negb (is_nil row)) (map cells_of (take_while is_row_line lines)).

(** ** Sample stores and documents for the concrete runs *)

(** A store with no state whose answer depends on the request only. *)
Definition stateless (answer : request -> response)
  : unit -> request -> unit * response :=
  fun _ r => (tt, answer r).

(** Accepts every request and reports no children. *)
Definition accept_all : unit -> request -> unit * response :=
  stateless (fun _ => Some []).

(** Rejects every request. *)
Definition reject_all : unit -> request -> unit * response :=
  stateless (fun _ => None).

(** Accepts every request and reports [n] children back, whatever was sent. *)
Definition report_children (n : nat) : unit -> request -> unit * response :=
  stateless (fun _ => Some (repeat (Child []) n)).

(** Creates table shells with the given cell identifiers and accepts what
    else is sent. *)
Definition shell_with_cells (ids : list string) : unit -> request -> unit * response :=
  stateless (fun r =>
               match children r with
               | [TableShell _ _] => Some [Child ids]
               | _ => Some []
               end).

(** Creates no table shell and accepts what else is sent. *)
Definition no_shell : unit -> request -> unit * response :=
  stateless (fun r =>
               match children r with
               | [TableShell _ _] => None
               | _ => Some []
               end).

(** [n] divider lines, one per line of text. *)
Definition divider_lines (n : nat) : string :=
  join (String nl "") (repeat "---" n).

(** The cells of a table with their index [row_idx * col_count + col_idx],
    in the order the fill loops visit them. *)
Fixpoint indexed_row (col_count row_idx col_idx : nat) (row : list string)
  : list (nat * string) :=
  match row with
  | [] => []
  | cell_text :: row' =>
      (row_idx * col_count + col_idx, cell_text)
      :: indexed_row col_count row_idx (S col_idx) row'
  end.

Fixpoint indexed_rows (col_count row_idx : nat) (all_rows : list (list string))
  : list (nat * string) :=
  match all_rows with
  | [] => []
  | row :: more =>
      indexed_row col_count row_idx 0 row ++ indexed_rows col_count (S row_idx) more
  end.

(** The request that fills one cell. *)
Definition fill_request (doc : string) (cell_ids : list string) (cell : nat * string)
  : request :=
  Request doc (nth (fst cell) cell_ids "") [text_block (snd cell)].

(** The number of blocks a batch is credited with for a result. *)
Definition credited (batch : list feishu_block) (result : response) : nat :=
  match result with
  | Some children_back =>
      if is_nil children_back then List.length batch else List.length children_back
  | None => 0
  end.

Definition succeeded (e : request * response) : bool := is_some (snd e).

(** The cells the fill loops post a request for, when the store returned
    [len] identifiers: in each row, those before the first cell whose index
    is [len] or more (the [break]). *)
Definition in_range (len : nat) (cell : nat * string) : bool := fst cell <? len.

Fixpoint attempted_cells (len col_count row_idx : nat) (all_rows : list (list string))
  : list (nat * string) :=
  match all_rows with
  | [] => []
  | row :: more =>
      take_while (in_range len) (indexed_row col_count row_idx 0 row)
      ++ attempted_cells len col_count (S row_idx) more
  end.



(** The wire blocks of the requests of a run, end to end. *)
Definition blocks_sent (ex : list (request * response)) : list feishu_block :=
  List.concat (map (fun e => children (fst e)) ex).

Definition is_blank (l : string) : bool := is_empty (rstrip l).

(** The world right after [print(f"写入文档内容: {document_id}")]. *)
Definition after_banner {Store : Type} (doc : string) (w : @world Store) : world :=
  World (store w) (exchanges w) (printed w ++ [WritingContent doc]).

(** ** Reference notions for the further properties *)

(** One of the characters an inline construct can begin with. *)
Definition is_marker (c : ascii) : bool := one_of "*`~[" c.

(** What a segment of each style holds: a styled run is not empty and has
    no newline; the text of a link has no [']'], its URL is not empty and
    has no [')']. *)
Definition segment_shape (seg : segment) : bool :=
  negb (is_empty (seg_text seg))
  && match seg_style seg with
     | plain => true
     | link url =>
         forall_chars (fun c => negb (is_char "]" c)) (seg_text seg)
         && negb (is_empty url)
         && forall_chars (fun c => negb (is_char ")" c)) url
     | _ => forall_chars is_dot (seg_text seg)
     end.








(** What the scanner's blocks look like: a heading has a level from 1 to 6
    and a text; a list has an item and no empty item; a table has a header
    cell, a row, no empty row and no empty cell. *)
Definition nonempty_strings (l : list string) : bool :=
  negb (is_nil l) && forallb (fun s => negb (is_empty s)) l.

Definition block_shape (b : block) : bool :=
  match b with
  | Heading level text => (1 <=? level) && (level <=? 6) && negb (is_empty text)
  | BulletList items | OrderedList items => nonempty_strings items
  | Table headers rows =>
      nonempty_strings headers && negb (is_nil rows) && forallb nonempty_strings rows
  | _ => true
  end.

(** A line with no newline in it, as [split('\n')] gives them. *)
Definition one_line (l : string) : bool := forall_chars is_dot l.

(** The language tag of an opening fence line. *)
Definition fence_language (line : string) : string :=
  let tag := strip (drop 3 line) in
  if is_empty tag then "plaintext" else tag.

Definition is_fence (l : string) : bool := startswith l "```".

Definition is_quote_line (l : string) : bool := startswith l "> ".

(** The next character, if any, is outside the class: a greedy run stops
    here. *)
Definition head_fails (p : ascii -> bool) (r : string) : bool :=
  match r with EmptyString => true | String c _ => negb (p c) end.

(** The block types the translator documents: text, the six headings,
    bullet, ordered, code, quote and divider. *)
Definition documented_block_types : list nat := [2; 3; 4; 5; 6; 7; 8; 12; 13; 14; 15; 22].

(** A wire block is not a table shell; it is a divider, which holds no text
    run, or a block of one of the text types that holds at least one text
    run under the key of its type, a heading's type and key agreeing on the
    level. *)
Definition wire_block_shape (w : feishu_block) : bool :=
  match w with
  | TextBlock n key elements =>
      negb (is_nil elements)
      && match key with
         | heading_key level => (1 <=? level) && (level <=? 6) && (n =? 2 + level)
         | text_key => n =? 2
         | bullet_key => n =? 12
         | ordered_key => n =? 13
         | code_key => n =? 14
         | quote_key => n =? 15
         end
  | DividerBlock => true
  | TableShell _ _ => false
  end.

(** [n * c] *)
Fixpoint repeat_char (c : ascii) (n : nat) : string :=
  match n with 0 => EmptyString | S n' => String c (repeat_char c n') end.

(** ** Reference notions for the runs of the writer *)

(** A request as the endpoint takes it: for the document, with 1 to 50
    children. *)
Definition well_formed_request (doc : string) (r : request) : Prop :=
  document_id r = doc /\ 1 <= List.length (children r) <= 50.

(** What a block adds to [total_count]: one for a table, one per wire block
    otherwise. *)
Definition counted_units (b : block) : nat :=
  if is_table b then 1 else List.length (_blocks_to_feishu_json b).

Definition expected_total (blocks : list block) : nat :=
  list_sum (map counted_units blocks).

(** The lines printed between the banner and the summary when something is
    written: those of the batch writer and of the table builder, the
    "empty table" line apart. *)
Definition progress_message (m : message) : bool :=
  match m with
  | BatchFailed _ | CreatingTable _ _ | ShellFailedFallback
  | ShellReturnedNothing | CellsMissing _ _ | TableFilled _ _ => true
  | _ => false
  end.

Definition no_table (blocks : list block) : bool :=
  forallb (fun b => negb (is_table b)) blocks.

Section Transports.
Context {Store : Type}.
Variable post : Store -> request -> Store * response.

(** A transport that never reports more children than it was sent. *)
Definition honest : Prop :=
  forall s r kids,
    snd (post s r) = Some kids -> List.length kids <= List.length (children r).

(** A transport whose every answer is falsy. *)
Definition rejects_all : Prop := forall s r, snd (post s r) = None.

(** A transport that accepts every request and reports either no children
    or as many as it was sent. *)
Definition acknowledges : Prop :=
  forall s r,
    exists kids,
      snd (post s r) = Some kids
      /\ (kids = [] \/ List.length kids = List.length (children r)).

(** What a stretch of the block loop over the blocks [bs] does to the
    counters, the requests it posts and the lines it prints. *)
Definition run_facts (doc : string) (bs : list block) (c c' : counters)
           (ex : list (request * response)) (ms : list message) : Prop :=
  total_count c' + List.length (pending_blocks c')
  = total_count c + List.length (pending_blocks c) + expected_total bs
  /\ Forall (fun e => well_formed_request doc (fst e)) ex
  /\ (forallb block_shape bs = true -> forallb progress_message ms = true)
  /\ (no_table bs = true ->
      blocks_sent ex ++ pending_blocks c'
      = pending_blocks c ++ flat_map _blocks_to_feishu_json bs
      /\ Forall (fun e => parent_block_id (fst e) = doc) ex)
  /\ (honest -> success_count c' + total_count c <= success_count c + total_count c')
  /\ (rejects_all -> success_count c' = success_count c)
  /\ (acknowledges -> no_table bs = true ->
      success_count c' + total_count c = success_count c + total_count c').

End Transports.

(** ** Document creation: [create_document] *)

(** The lines [create_document] prints, with those of
    [write_document_content] in between. *)
Inductive creation_line : Type :=
| CreatingDocument (title : string)        (* "创建文档: {title}" *)
| CreationFailed                           (* "创建文档失败" *)
| DocumentIdMissing                        (* "获取文档ID失败" *)
| DocumentCreated (id : string)            (* "文档创建成功，ID: {document_id}" *)
| WriterLine (m : message)                 (* a line of the writer *)
| ContentNotWritten.                       (* "文档创建成功，但写入内容失败" *)

(** The returned dictionary. *)
Record doc_info : Type := DocInfo {
  info_document_id : string;
  info_title : string;
  info_url : string;
  info_folder_token : option string;
  info_created_at : string;
  info_content_written : bool
}.

(** [x if x else None] for an optional string: [None] and [""] are falsy. *)
Definition truthy (s : option string) : option string :=
  match s with
  | Some s' => if is_empty s' then None else Some s'
  | None => None
  end.

Section Creation.
Context {Store : Type}.
Variable post : Store -> request -> Store * response.

(** [api.post("/docx/v1/documents", data)], where [data] holds the title
    and, when it is truthy, the folder token: [None] stands for a falsy
    result, [Some id] for any other one, with
    [id = result.get('document', {}).get('document_id')]. *)
Variable post_document :
  Store -> string -> option string -> Store * option (option string).

(** [datetime.now().isoformat()] *)
Variable now : string.

Definition create_document (title content : string) (folder_token : option string)
           (w : world)
  : outcome (option doc_info) * world * list creation_line :=
  let (store1, result) := post_document (store w) title (truthy folder_token) in
  let w1 := World store1 (exchanges w) (printed w) in
  match result with
  | None => (Returned None, w1, [CreatingDocument title; CreationFailed])
  | Some id =>
      match truthy id with
      | None => (Returned None, w1, [CreatingDocument title; DocumentIdMissing])
      | Some document_id =>
          let (write_outcome, w2) :=
            write_document_content post document_id content w1 in
          let writer_lines :=
            map WriterLine (skipn (List.length (printed w1)) (printed w2)) in
          match write_outcome with
          | Returned write_result =>
              (Returned
                 (Some {| info_document_id := document_id;
                          info_title := title;
                          info_url := "https://feishu.cn/docx/" +++ document_id;
                          info_folder_token := folder_token;
                          info_created_at := now;
                          (* [write_result is not None], for a [bool] *)
                          info_content_written := true |}),
               w2,
               [CreatingDocument title; DocumentCreated document_id]
               ++ writer_lines
               ++ (if write_result then [] else [ContentNotWritten]))
          | Raised e =>
              (Raised e, w2,
               [CreatingDocument title; DocumentCreated document_id]
               ++ writer_lines)
          end
      end
  end.

End Creation.

(** ** Title of a rendered template: [_extract_title] (feishu_auto.py) *)

(** [^#\s+(.+)$]: group 1. *)
Definition match_title (line : string) : option string :=
  lit "#" (greedy 1 None is_space
             (fun _ => greedy 1 None is_dot (fun g1 => eol g1))) line.

(** [data] is looked at under the key ["title"] only, for a string:
    [data_title] is [data.get("title")]; [default_title index] stands for
    [f"文档_{index}"]. *)
Definition _extract_title (default_title : nat -> string)
           (rendered : string) (data_title : option string) (index : nat) : string :=
  let first_line := strip (hd EmptyString (split nl rendered)) in
  match match_title first_line with
  | Some g1 => strip g1
  | None =>
      match data_title with
      | Some title => title
      | None => default_title index
      end
  end.

(** * Properties *)

(** ** Strings *)

Lemma append_assoc (a b c : string) : (a +++ b) +++ c = a +++ b +++ c.
Proof. induction a as [|x a IH]; simpl; [reflexivity | now rewrite IH]. Qed.

Lemma append_nil_r (a : string) : a +++ "" = a.
Proof. induction a as [|x a IH]; simpl; [reflexivity | now rewrite IH]. Qed.

Lemma length_append (a b : string) :
  String.length (a +++ b) = String.length a + String.length b.
Proof. induction a as [|x a IH]; simpl; [reflexivity | now rewrite IH]. Qed.


Lemma strip_prefix_sound (p s r : string) :
  strip_prefix p s = Some r -> s = p +++ r.
Proof.
  revert s; induction p as [|a p IH]; intros [|b s] H; simpl in *;
    try congruence.
  destruct (Ascii.eqb a b) eqn:E; [|discriminate].
  apply Ascii.eqb_eq in E; subst b. now rewrite (IH _ H).
Qed.


Lemma concat_empty_cons (x : string) (l : list string) :
  String.concat "" (x :: l) = x +++ String.concat "" l.
Proof. destruct l; simpl; [now rewrite append_nil_r | reflexivity]. Qed.

Lemma concat_empty_app (l1 l2 : list string) :
  String.concat "" (l1 ++ l2) = String.concat "" l1 +++ String.concat "" l2.
Proof.
  induction l1 as [|x l1 IH]; [reflexivity|].
  rewrite <- app_comm_cons, !concat_empty_cons, IH. now rewrite append_assoc.
Qed.

(** ** The combinators only return what the continuation accepts *)

Section CombinatorFacts.
Context {A : Type}.

Lemma lit_sound (p : string) (k : string -> option A) s a :
  lit p k s = Some a -> exists r, s = p +++ r /\ k r = Some a.
Proof.
  unfold lit. destruct (strip_prefix p s) as [r|] eqn:E; [|discriminate].
  intros H. exists r. split; [now apply strip_prefix_sound | exact H].
Qed.

Lemma greedy_sound (p : ascii -> bool) s :
  forall lo hi (k : string -> string -> option A) a,
    greedy lo hi p k s = Some a ->
    exists m r, s = m +++ r /\ lo <= String.length m /\
                forall_chars p m = true /\ k m r = Some a.
Proof.
  induction s as [|c s IH]; intros lo hi k a H; cbn in H.
  - destruct lo; [|discriminate].
    exists "", "". repeat split; auto.
  - assert (Hstop : match lo with 0 => k "" (String c s) | S _ => None end = Some a ->
                    exists m r, String c s = m +++ r /\ lo <= String.length m /\
                                forall_chars p m = true /\ k m r = Some a).
    { destruct lo; [|discriminate]. intros Hk.
      exists "", (String c s). repeat split; auto. }
    destruct (p c) eqn:Hp; cbn in H; [|now apply Hstop].
    destruct (match hi with Some 0 => false | _ => true end); [|now apply Hstop].
    unfold orelse in H.
    destruct (greedy (pred lo) (option_map pred hi) p
                     (fun m r => k (String c m) r) s) as [a'|] eqn:G;
      [|now apply Hstop].
    injection H as ->.
    destruct (IH _ _ _ _ G) as (m & r & -> & Hlo & Hall & Hk).
    exists (String c m), r. cbn. rewrite Hp, Hall. repeat split; auto. lia.
Qed.

Lemma lazy_plus_sound (p : ascii -> bool) s :
  forall (k : string -> string -> option A) a,
    lazy_plus p k s = Some a ->
    exists m r, s = m +++ r /\ m <> "" /\
                forall_chars p m = true /\ k m r = Some a.
Proof.
  induction s as [|c s IH]; intros k a H; cbn in H; [discriminate|].
  destruct (p c) eqn:Hp; [|discriminate].
  unfold orelse in H.
  destruct (k (String c "") s) as [a'|] eqn:K.
  - injection H as ->. exists (String c ""), s. cbn. rewrite Hp.
    repeat split; auto. discriminate.
  - destruct (IH _ _ H) as (m & r & -> & _ & Hall & Hk).
    exists (String c m), r. cbn. rewrite Hp, Hall.
    repeat split; auto. discriminate.
Qed.

End CombinatorFacts.

(** ** Inline span parser *)

Lemma delimited_sound d st s seg r :
  delimited d st s = Some (seg, r) ->
  s = d +++ seg_text seg +++ d +++ r /\ seg_style seg = st /\ seg_text seg <> "".
Proof.
  unfold delimited. intros H.
  apply lit_sound in H. destruct H as (r1 & -> & H).
  apply lazy_plus_sound in H. destruct H as (g & r2 & -> & Hg & _ & H).
  apply lit_sound in H. destruct H as (r3 & -> & H).
  injection H as <- <-. cbn. repeat split; auto.
Qed.

Lemma link_alternative_sound s seg r :
  link_alternative s = Some (seg, r) ->
  exists url, seg_style seg = link url /\
              s = "[" +++ seg_text seg +++ "](" +++ url +++ ")" +++ r.
Proof.
  unfold link_alternative. intros H.
  apply lit_sound in H. destruct H as (r1 & -> & H).
  apply greedy_sound in H. destruct H as (g12 & r2 & -> & _ & _ & H).
  apply lit_sound in H. destruct H as (r3 & -> & H).
  apply greedy_sound in H. destruct H as (g13 & r4 & -> & _ & _ & H).
  apply lit_sound in H. destruct H as (r5 & -> & H).
  injection H as <- <-. exists g13. cbn. split; reflexivity.
Qed.

(** A match is the matched segment with its markup put back, followed by the
    text after the match. *)
Lemma pattern_match_sound s seg r :
  pattern_match s = Some (seg, r) ->
  s = with_markup seg +++ r /\ seg_style seg <> plain.
Proof.
  unfold pattern_match, orelse, with_markup.
  repeat match goal with
         | |- context [delimited ?d ?st s] =>
             let E := fresh "E" in
             destruct (delimited d st s) as [[seg' r']|] eqn:E;
             [ intros H; injection H as -> ->;
               apply delimited_sound in E; destruct E as (Eq & Est & _);
               rewrite Est; cbn [open_delimiter closing_markup];
               rewrite !append_assoc; split; [exact Eq | discriminate]
             | ]
         end.
  intros H. apply link_alternative_sound in H. destruct H as (url & Est & Eq).
  rewrite Est. cbn [open_delimiter closing_markup].
  rewrite !append_assoc. split; [exact Eq | discriminate].
Qed.

Lemma with_markup_length seg :
  seg_style seg <> plain -> 2 <= String.length (with_markup seg).
Proof.
  unfold with_markup. intros H. rewrite !length_append.
  destruct (seg_style seg); try congruence; cbn; lia.
Qed.

Lemma pattern_search_sound s :
  forall pre seg r,
    pattern_search s = Some (pre, seg, r) ->
    s = pre +++ with_markup seg +++ r /\ String.length r < String.length s.
Proof.
  induction s as [|c s IH]; intros pre seg r H; cbn [pattern_search] in H.
  - destruct (pattern_match "") as [[seg' r']|] eqn:E; [|discriminate].
    injection H as <- -> ->.
    apply pattern_match_sound in E. destruct E as (E & Hst).
    apply with_markup_length in Hst.
    apply (f_equal String.length) in E. rewrite length_append in E.
    cbn in E. lia.
  - destruct (pattern_match (String c s)) as [[seg' r']|] eqn:E.
    + injection H as <- -> ->.
      apply pattern_match_sound in E. destruct E as (E & Hst).
      apply with_markup_length in Hst. split; [exact E|].
      apply (f_equal String.length) in E. rewrite length_append in E. lia.
    + destruct (pattern_search s) as [[[pre' seg'] r']|] eqn:S; [|discriminate].
      injection H as <- -> ->.
      destruct (IH _ _ _ eq_refl) as (-> & Hlen).
      split; [reflexivity|]. cbn [String.length]. lia.
Qed.

Lemma plain_segment_markup t : concat_map with_markup (plain_segment t) = t.
Proof. destruct t; cbn; [reflexivity | now rewrite append_nil_r]. Qed.

(** The loop loses nothing, whatever the fuel above the length. *)
Lemma segments_from_lossless fuel :
  forall s, String.length s < fuel ->
            concat_map with_markup (segments_from fuel s) = s.
Proof.
  induction fuel as [|fuel IH]; intros s Hlen; [lia|].
  cbn [segments_from].
  destruct (pattern_search s) as [[[pre seg] r]|] eqn:S.
  - apply pattern_search_sound in S. destruct S as (E & Hr).
    unfold concat_map in *.
    rewrite map_app, concat_empty_app. cbn [map].
    rewrite concat_empty_cons, IH by lia.
    fold (concat_map with_markup (plain_segment pre)).
    rewrite plain_segment_markup. now rewrite <- E.
  - apply plain_segment_markup.
Qed.


(** ** The pattern finds the markup that is there *)

Lemma forall_chars_app p a b :
  forall_chars p (a +++ b) = forall_chars p a && forall_chars p b.
Proof. induction a as [|c a IH]; cbn; [reflexivity | now rewrite IH, andb_assoc]. Qed.

Lemma forall_chars_impl (p q : ascii -> bool) s :
  (forall c, p c = true -> q c = true) ->
  forall_chars p s = true -> forall_chars q s = true.
Proof.
  intros Hpq. induction s as [|c s IH]; [reflexivity|]. cbn. intros H.
  apply andb_true_iff in H. destruct H as [Hc Hs]. now rewrite (Hpq _ Hc), IH.
Qed.

Lemma pattern_match_needs_marker c s :
  is_marker c = false -> pattern_match (String c s) = None.
Proof.
  unfold is_marker. cbn [one_of]. intros H.
  repeat (apply orb_false_iff in H; destruct H as [? H]).
  unfold pattern_match, delimited, link_alternative, lit, orelse.
  cbn [strip_prefix].
  repeat match goal with
         | X : Ascii.eqb c ?a = false |- _ =>
             rewrite Ascii.eqb_sym in X; rewrite X; clear X
         end.
  reflexivity.
Qed.

Lemma pattern_search_needs_marker s :
  forall_chars (fun c => negb (is_marker c)) s = true -> pattern_search s = None.
Proof.
  induction s as [|c s IH]; [reflexivity|].
  cbn [forall_chars]. intros H. apply andb_true_iff in H. destruct H as [Hc Hs].
  apply negb_true_iff in Hc.
  cbn [pattern_search]. rewrite (pattern_match_needs_marker c s Hc).
  now rewrite (IH Hs).
Qed.

Lemma greedy_run {A : Type} (p : ascii -> bool) m :
  forall r lo hi (k : string -> string -> option A) a,
    forall_chars p m = true -> head_fails p r = true ->
    lo <= String.length m ->
    match hi with Some h => String.length m <= h | None => True end ->
    k m r = Some a ->
    greedy lo hi p k (m +++ r) = Some a.
Proof.
  induction m as [|c m IH]; intros r lo hi k a Hall Hr Hlo Hhi Hk.
  - cbn in Hlo. assert (lo = 0) by lia. subst lo. cbn [append].
    destruct r as [|c r]; [exact Hk|].
    cbn in Hr. apply negb_true_iff in Hr. cbn. now rewrite Hr.
  - cbn [forall_chars] in Hall. apply andb_true_iff in Hall.
    destruct Hall as [Hc Hall]. cbn [append greedy]. rewrite Hc.
    assert (Hmore : match hi with Some 0 => false | _ => true end = true).
    { destruct hi as [[|h]|]; auto. cbn in Hhi. lia. }
    rewrite Hmore. cbn [andb].
    rewrite (IH r (pred lo) (option_map pred hi) (fun m' r' => k (String c m') r') a);
      auto.
    + cbn in Hlo. lia.
    + destruct hi as [h|]; cbn in *; [lia | exact I].
Qed.

Lemma strip_prefix_app p s : strip_prefix p (p +++ s) = Some s.
Proof. induction p as [|c p IH]; [reflexivity|]. cbn. now rewrite Ascii.eqb_refl. Qed.

Section LazyRuns.
Context {A : Type}.


End LazyRuns.



Lemma link_no_prefix s : strip_prefix "[" s = None -> link_alternative s = None.
Proof. intros H. unfold link_alternative, lit. now rewrite H. Qed.











Lemma make_text_elements_nonempty text : _make_text_elements text <> [].
Proof.
  unfold _make_text_elements.
  destruct (segments_from (S (String.length text)) text); discriminate.
Qed.






(** ** Leaving delimiter characters out *)












(** ** Block scanner: which rule takes a line *)

Section GreedyRuns.
Context {A : Type}.

(** A greedy run that needs a first character fails on another one. *)
Lemma greedy_head_mismatch (p : ascii -> bool) lo hi
      (k : string -> string -> option A) c s :
  p c = false -> greedy (S lo) hi p k (String c s) = None.
Proof. intros Hp. cbn. now rewrite Hp. Qed.


(** Without an upper bound, a run of the class that reaches the end of the
    input is taken whole when the continuation accepts it there. *)
Lemma greedy_whole (p : ascii -> bool) s :
  forall lo (k : string -> string -> option A) a,
    forall_chars p s = true -> lo <= String.length s ->
    k s "" = Some a -> greedy lo None p k s = Some a.
Proof.
  induction s as [|c s IH]; intros lo k a Hall Hlo Hk.
  - cbn in Hlo. assert (lo = 0) by lia. subst lo. exact Hk.
  - cbn in Hall. apply andb_true_iff in Hall. destruct Hall as [Hp Hall].
    cbn. rewrite Hp. cbn.
    rewrite (IH (pred lo) (fun m r => k (String c m) r) a); auto.
    cbn in Hlo. lia.
Qed.
End GreedyRuns.

(** [rstrip] leaves no whitespace at the end. *)
Lemma rstrip_no_trailing_space raw :
  forall x y, rstrip raw = x +++ y -> forall_chars is_space y = true -> y = "".
Proof.
  induction raw as [|c raw IH]; intros x y E Hy; cbn in E.
  - destruct x; [exact (eq_sym E) | discriminate].
  - destruct (is_space c && is_empty (rstrip raw)) eqn:B.
    + destruct x; [exact (eq_sym E) | discriminate].
    + destruct x as [|cx x]; cbn in E.
      * subst y. cbn in Hy. apply andb_true_iff in Hy. destruct Hy as [Hc Hr].
        rewrite Hc in B. cbn in B.
        rewrite (IH "" (rstrip raw) eq_refl Hr) in B. discriminate.
      * injection E as _ E. exact (IH _ _ E Hy).
Qed.

Lemma at_end_space r : at_end r = true -> forall_chars is_space r = true.
Proof.
  destruct r as [|c [|c' r]]; cbn; try discriminate; auto.
  intros H. apply Ascii.eqb_eq in H. subst c. reflexivity.
Qed.


(** The divider pattern on a right-stripped line. *)
Lemma match_divider_rstrip raw :
  match_divider (rstrip raw) = Some tt <->
  3 <= String.length (rstrip raw) /\ forall_chars (one_of "-*_") (rstrip raw) = true.
Proof.
  unfold match_divider. split.
  - intros H. apply greedy_sound in H. destruct H as (m & r & E & Hlo & Hall & H).
    apply greedy_sound in H. destruct H as (w & r2 & -> & _ & Hw & H).
    unfold eol in H. destruct (at_end r2) eqn:He; [|discriminate].
    assert (Hnil : w +++ r2 = "").
    { apply (rstrip_no_trailing_space raw m); [exact E|].
      rewrite forall_chars_app, Hw. now apply at_end_space. }
    rewrite Hnil, append_nil_r in E. rewrite E. now split.
  - intros [Hlen Hall]. apply greedy_whole; auto.
Qed.


(** What a successful heading, bullet or ordered-item match says about the
    first character. *)
Lemma match_heading_head line g :
  match_heading line = Some g -> exists s, line = String "#" s.
Proof.
  unfold match_heading. destruct line as [|c s]; [discriminate|].
  destruct (is_char "#" c) eqn:E.
  - apply Ascii.eqb_eq in E. subst c. eauto.
  - now rewrite greedy_head_mismatch.
Qed.

Lemma match_bullet_head line g :
  match_bullet line = Some g -> exists c s, line = String c s /\ one_of "-*+" c = true.
Proof.
  unfold match_bullet. destruct line as [|c s]; [discriminate|].
  destruct (one_of "-*+" c) eqn:E; [eauto|].
  now rewrite greedy_head_mismatch.
Qed.

Lemma match_ordered_head line g :
  match_ordered line = Some g -> exists c s, line = String c s /\ is_digit c = true.
Proof.
  unfold match_ordered. destruct line as [|c s]; [discriminate|].
  destruct (is_digit c) eqn:E; [eauto|].
  now rewrite greedy_head_mismatch.
Qed.

(** Destructs every test of [scan_step], keeping the equations. *)
Ltac step_cases :=
  repeat match goal with
         | |- context [match ?x with _ => _ end] =>
             lazymatch x with
             | context [match _ with _ => _ end] => fail
             | _ => let E := fresh "T" in destruct x eqn:E
             end
         | |- context [let (_, _) := ?x in _] =>
             let E := fresh "T" in destruct x eqn:E
         end.

Lemma table_rule_block line rest out :
  table_rule line rest = Some out ->
  exists headers rows rest', out = ([Table headers rows], rest').
Proof.
  unfold table_rule. step_cases; intros H; try discriminate.
  injection H as <-. eauto.
Qed.







(** ** The loops that gather consecutive lines *)

Lemma collect_spec {A : Type} (f : string -> option A) (lines : list string) :
  map Some (fst (collect f lines))
  = map f (take_while (fun l => is_some (f l)) lines)
  /\ snd (collect f lines) = drop_while (fun l => is_some (f l)) lines.
Proof.
  induction lines as [|l lines IH]; [now split|].
  cbn. destruct (f l) as [a|] eqn:E; cbn; [|now split].
  destruct (collect f lines) as [items rest']. cbn in *.
  destruct IH as [IH1 IH2]. rewrite E, IH1, IH2. now split.
Qed.

Lemma take_drop_while {A : Type} (f : A -> bool) (l : list A) :
  take_while f l ++ drop_while f l = l
  /\ Forall (fun x => f x = true) (take_while f l)
  /\ (forall x l', drop_while f l = x :: l' -> f x = false).
Proof.
  induction l as [|x l IH]; cbn.
  - repeat split; [constructor | discriminate].
  - destruct IH as (IH1 & IH2 & IH3). destruct (f x) eqn:E; cbn.
    + rewrite IH1. repeat split; [now constructor | exact IH3].
    + repeat split; [constructor|]. intros y l' H. injection H as <- _. exact E.
Qed.

(** ** Ordered lists *)

(** A line that begins with a digit is taken by none of the heading,
    divider, bullet, code-fence and quote tests. *)
Lemma digit_line_rules c s :
  is_digit c = true ->
  is_empty (String c s) = false
  /\ match_heading (String c s) = None
  /\ match_divider (String c s) = None
  /\ match_bullet (String c s) = None
  /\ startswith (String c s) "```" = false
  /\ startswith (String c s) "> " = false.
Proof.
  intros Hd.
  assert (H : is_char "#" c = false /\ one_of "-*_" c = false
              /\ one_of "-*+" c = false /\ Ascii.eqb "`" c = false
              /\ Ascii.eqb ">" c = false).
  { revert Hd.
    destruct c as [[|] [|] [|] [|] [|] [|] [|] [|]]; cbn; intros Hd;
      try discriminate; repeat split. }
  destruct H as (H1 & H2 & H3 & H4 & H5).
  split; [reflexivity|].
  split; [now apply greedy_head_mismatch|].
  split; [now apply greedy_head_mismatch|].
  split; [now apply greedy_head_mismatch|].
  unfold startswith. cbn [strip_prefix]. rewrite H4, H5. now split.
Qed.


Lemma int_raised digits e :
  int digits = Raised e <->
  int_max_str_digits < String.length digits /\ e = ValueError.
Proof.
  unfold int. destruct (int_max_str_digits <? String.length digits) eqn:E.
  - apply Nat.ltb_lt in E. split.
    + intros H. injection H as <-. now split.
    + intros [_ ->]. reflexivity.
  - apply Nat.ltb_ge in E. split; [discriminate | lia].
Qed.

Lemma scan_step_ordered_inv raw rest blocks rest' items :
  scan_step raw rest = Returned (blocks, rest') ->
  In (OrderedList items) blocks ->
  exists digits text num,
    match_ordered (rstrip raw) = Some (digits, text)
    /\ int digits = Returned num
    /\ (num <=? 3)%N = true
    /\ match_subsection (strip (rstrip raw)) = None.
Proof.
  unfold scan_step, paragraph_rule. cbv zeta.
  step_cases; intros H; try discriminate H; inversion H; subst; clear H;
    cbn [In]; intros H;
    try (destruct H as [H|[]]; discriminate); try contradiction.
  - match goal with
    | T : _ && _ = true |- _ =>
        apply andb_true_iff in T; destruct T as [T1' T2']
    end.
    do 3 eexists. split; [reflexivity|]. split; [eassumption|].
    split; [assumption|].
    destruct (match_subsection (strip (rstrip raw))); [discriminate | reflexivity].
  - match goal with
    | T : table_rule _ _ = Some _ |- _ =>
        apply table_rule_block in T; destruct T as (? & ? & ? & E);
        injection E as -> ->
    end.
    destruct H as [H|[]]; discriminate.
  - match goal with
    | T : table_rule _ _ = Some _ |- _ =>
        apply table_rule_block in T; destruct T as (? & ? & ? & E);
        injection E as -> ->
    end.
    destruct H as [H|[]]; discriminate.
Qed.

(** C6 (amended): a line [<digits>. <text>] starts an [OrderedList] exactly
    when [int] converts its number, the number is at most 3 and it is not a
    subsection number; the items are the text of that line and of the
    following lines that match [<digits>. <text>], whatever their number,
    up to the first line that does not; a first line with a number above 3
    starts no list and goes on to the later rules, where it becomes a
    paragraph unless the table rule takes it (it cannot when the line has no
    ['|']); a number of more digits than [int] converts makes the scanner
    raise [ValueError]; ["6. Deep dive"] alone is one paragraph with that
    text. *)
Theorem C6_ordered_list_start (raw : string) (rest : list string) :
  (forall blocks rest' items,
      scan_step raw rest = Returned (blocks, rest') ->
      In (OrderedList items) blocks ->
      exists digits text num,
        match_ordered (rstrip raw) = Some (digits, text)
        /\ int digits = Returned num
        /\ (num <= 3)%N
        /\ match_subsection (strip (rstrip raw)) = None)
  /\ (forall digits text num,
         match_ordered (rstrip raw) = Some (digits, text) ->
         int digits = Returned num ->
         (num <= 3)%N ->
         match_subsection (strip (rstrip raw)) = None ->
         exists items,
           scan_step raw rest
           = Returned ([OrderedList (text :: items)],
                       drop_while (fun l => is_some (ordered_item l)) rest)
           /\ map Some items
              = map ordered_item
                    (take_while (fun l => is_some (ordered_item l)) rest))
  /\ (forall digits text num,
         match_ordered (rstrip raw) = Some (digits, text) ->
         int digits = Returned num ->
         (3 < num)%N ->
         scan_step raw rest
         = Returned match table_rule (rstrip raw) rest with
                    | Some out => out
                    | None => paragraph_rule (rstrip raw) rest
                    end
         /\ (contains "|" (rstrip raw) = false ->
             scan_step raw rest = Returned (paragraph_rule (rstrip raw) rest)))
  /\ (forall digits text,
         match_ordered (rstrip raw) = Some (digits, text) ->
         int_max_str_digits < String.length digits ->
         scan_step raw rest = Raised ValueError)
  /\ _markdown_to_blocks "6. Deep dive"
     = Returned
         [Paragraph (TextFormatted
                       (FormatRich "6. Deep dive" [Segment "6. Deep dive" plain]))].
Proof.
  split; [|split; [|split; [|split]]].
  - intros blocks rest' items Hs H.
    destruct (scan_step_ordered_inv _ _ _ _ _ Hs H)
      as (digits & text & num & H1 & H2 & H3 & H4).
    exists digits, text, num. split; [exact H1|]. split; [exact H2|].
    split; [|exact H4]. now apply N.leb_le.
  - intros digits text num Hm Hint Hnum Hsub.
    destruct (match_ordered_head _ _ Hm) as (c & s & E & Hd).
    destruct (digit_line_rules c s Hd) as (R1 & R2 & R3 & R4 & _).
    unfold scan_step. cbv zeta. rewrite E in *.
    rewrite R1, R2, R3, R4, Hm, Hint, Hsub.
    apply N.leb_le in Hnum. rewrite Hnum. cbn [andb negb is_some].
    destruct (collect_spec ordered_item rest) as [C1 C2].
    destruct (collect ordered_item rest) as [items rest']. cbn in C1, C2.
    exists items. rewrite C2. now split.
  - intros digits text num Hm Hint Hnum.
    destruct (match_ordered_head _ _ Hm) as (c & s & E & Hd).
    destruct (digit_line_rules c s Hd) as (R1 & R2 & R3 & R4 & R5 & R6).
    assert (Hstep : scan_step raw rest
                    = Returned match table_rule (rstrip raw) rest with
                               | Some out => out
                               | None => paragraph_rule (rstrip raw) rest
                               end).
    { unfold scan_step. cbv zeta. rewrite E in *.
      rewrite R1, R2, R3, R4, R5, R6, Hm, Hint.
      apply N.leb_gt in Hnum. rewrite Hnum. reflexivity. }
    split; [exact Hstep|].
    intros Hbar. rewrite Hstep. unfold table_rule. now rewrite Hbar.
  - intros digits text Hm Hlong.
    destruct (match_ordered_head _ _ Hm) as (c & s & E & Hd).
    destruct (digit_line_rules c s Hd) as (R1 & R2 & R3 & R4 & _).
    unfold scan_step. cbv zeta. rewrite E in *.
    rewrite R1, R2, R3, R4, Hm.
    now rewrite (proj2 (int_raised digits ValueError) (conj Hlong eq_refl)).
  - reflexivity.
Qed.

Lemma C6_ordered_list_start_witness :
  (exists items,
      scan_step "2. two" ["10. ten"; "x"]
      = Returned ([OrderedList ("two" :: items)], ["x"])
      /\ map Some items = [Some "ten"])
  /\ scan_step "6. Deep dive" [] = Returned (paragraph_rule "6. Deep dive" []).
Proof.
  split.
  - destruct (C6_ordered_list_start "2. two" ["10. ten"; "x"])
      as (_ & H & _).
    destruct (H "2" "two" 2%N eq_refl eq_refl) as (items & H1 & H2).
    + vm_compute. discriminate.
    + reflexivity.
    + exists items. split; [exact H1 | exact H2].
  - destruct (C6_ordered_list_start "6. Deep dive" []) as (_ & _ & H & _).
    destruct (H "6" "Deep dive" 6%N eq_refl eq_refl) as (_ & H2).
    + reflexivity.
    + apply H2. reflexivity.
Defined.

(** C6 as stated fails: the first line below has the number 4, above 3, and
    is not handled as a paragraph; the table rule, which comes before the
    paragraph rule, takes it as the header row of a table. *)
Lemma C6_number_above_3_taken_as_table :
  match_ordered "4. x | y" = Some ("4", "x | y")
  /\ int "4" = Returned 4%N
  /\ _markdown_to_blocks (join (String nl "") ["4. x | y"; "|--|--|"; "5. z | w"])
     = Returned [Table ["4. x"; "y"] [["5. z"; "w"]]]
  /\ scan_step "4. x | y" ["|--|--|"; "5. z | w"]
     <> Returned (paragraph_rule "4. x | y" ["|--|--|"; "5. z | w"]).
Proof.
  split; [reflexivity|]. split; [reflexivity|]. split; [reflexivity|].
  vm_compute. discriminate.
Qed.

(** ** Tables *)


Lemma table_body_spec lines :
  table_body lines = (rows_of lines, drop_while is_row_line lines).
Proof.
  unfold rows_of. induction lines as [|l lines IH]; [reflexivity|].
  cbn. fold (is_row_line l). destruct (is_row_line l); [|reflexivity].
  rewrite IH. cbn. now destruct (cells_of l).
Qed.

Lemma is_nil_false {A : Type} (l : list A) : is_nil l = false <-> l <> [].
Proof. destruct l; cbn; split; congruence. Qed.

Lemma is_some_false {A : Type} (o : option A) : is_some o = false <-> o = None.
Proof. destruct o; cbn; split; congruence. Qed.

(** When the table rule produces something, it is this. *)
Lemma table_rule_spec line rest out :
  table_rule line rest = Some out <->
  contains "|" line = true
  /\ startswith line "|--" = false
  /\ cells_of line <> []
  /\ exists next rest1,
       rest = next :: rest1
       /\ is_separator_line next = true
       /\ rows_of rest1 <> []
       /\ out = ([Table (cells_of line) (rows_of rest1)],
                 drop_while is_row_line rest1).
Proof.
  unfold table_rule, is_separator_line. split.
  - destruct (contains "|" line); [|discriminate].
    destruct (startswith line "|--"); [discriminate|]. cbn [andb negb].
    destruct (is_nil (cells_of line)) eqn:Hc; [discriminate|].
    destruct rest as [|next rest1]; [discriminate|].
    destruct (contains "|" next && contains "--" next) eqn:Hs; [|discriminate].
    rewrite table_body_spec.
    destruct (is_nil (rows_of rest1)) eqn:Hr; [discriminate|].
    intros H. injection H as <-.
    repeat split; try (now apply is_nil_false).
    exists next, rest1. repeat split; auto. now apply is_nil_false.
  - intros (H1 & H2 & H3 & next & rest1 & -> & H4 & H5 & ->).
    rewrite H1, H2. cbn [andb negb].
    apply is_nil_false in H3, H5. rewrite H3, H4, table_body_spec, H5.
    reflexivity.
Qed.

(** A line that no earlier rule takes is handled by the table rule, and by
    the paragraph rule when the table rule declines. *)
Lemma scan_step_reaches_table raw rest :
  reaches_table_rule (rstrip raw) = true ->
  scan_step raw rest
  = Returned match table_rule (rstrip raw) rest with
             | Some out => out
             | None => paragraph_rule (rstrip raw) rest
             end.
Proof.
  unfold reaches_table_rule, starts_ordered_list, number_too_long. intros H.
  repeat (apply andb_true_iff in H; destruct H as [H ?]).
  repeat match goal with
         | X : negb _ = true |- _ => apply negb_true_iff in X
         | X : is_some _ = false |- _ => apply is_some_false in X
         end.
  unfold scan_step. cbv zeta.
  rewrite H.
  repeat match goal with X : _ = None |- _ => rewrite X end.
  repeat match goal with X : startswith _ _ = false |- _ => rewrite X end.
  destruct (match_ordered (rstrip raw)) as [[digits text]|]; [|reflexivity].
  destruct (int digits) as [num|e] eqn:Ei.
  - match goal with X : _ && _ = false |- _ => rewrite X end. reflexivity.
  - apply int_raised in Ei. destruct Ei as [Ei _]. apply Nat.ltb_lt in Ei.
    congruence.
Qed.






(** ** The scanner never runs out of fuel *)

Lemma drop_while_length {A : Type} (f : A -> bool) (l : list A) :
  List.length (drop_while f l) <= List.length l.
Proof.
  induction l as [|x l IH]; cbn; [lia|]. destruct (f x); cbn; lia.
Qed.

Lemma collect_rest_length {A : Type} (f : string -> option A) (lines : list string) :
  List.length (snd (collect f lines)) <= List.length lines.
Proof.
  destruct (collect_spec f lines) as [_ ->]. apply drop_while_length.
Qed.

Lemma fence_body_rest_length lines code_lines after :
  fence_body lines = (code_lines, Some after) ->
  List.length after <= List.length lines.
Proof.
  revert code_lines. induction lines as [|l lines IH]; intros code_lines H;
    cbn in H; [discriminate|].
  destruct (startswith l "```").
  - injection H as _ <-. cbn. lia.
  - destruct (fence_body lines) as [cl [a|]]; [|discriminate].
    injection H as _ <-. specialize (IH cl eq_refl). cbn. lia.
Qed.

(** Every rule leaves the cursor at or after the next line. *)
Lemma scan_step_rest_length raw rest blocks rest' :
  scan_step raw rest = Returned (blocks, rest') ->
  List.length rest' <= List.length rest.
Proof.
  pose proof (collect_rest_length match_bullet rest) as Cb.
  pose proof (collect_rest_length ordered_item rest) as Co.
  pose proof (collect_rest_length (strip_prefix "> ") rest) as Cq.
  pose proof (collect_rest_length continuation rest) as Cp.
  unfold scan_step, paragraph_rule. cbv zeta.
  step_cases; intros H; try discriminate H; inversion H; subst; clear H;
    cbn [snd] in *; auto;
    try match goal with
        | T : fence_body _ = (_, Some _) |- _ =>
            exact (fence_body_rest_length _ _ _ T)
        end;
    match goal with
    | T : table_rule _ _ = Some _ |- _ =>
        apply table_rule_spec in T;
        destruct T as (_ & _ & _ & next & rest1 & -> & _ & _ & E);
        injection E as _ ->;
        cbn [snd List.length];
        pose proof (drop_while_length is_row_line rest1); lia
    end.
Qed.

(** Any fuel that covers the lines gives the same outcome, so the fuel of
    [_markdown_to_blocks] is enough for the loop to reach the last line. *)
Lemma scan_fuel_enough fuel1 :
  forall fuel2 lines,
    List.length lines <= fuel1 -> List.length lines <= fuel2 ->
    scan fuel1 lines = scan fuel2 lines.
Proof.
  induction fuel1 as [|fuel1 IH]; intros fuel2 lines H1 H2.
  - destruct lines; [now destruct fuel2 | cbn in H1; lia].
  - destruct lines as [|raw rest]; [now destruct fuel2|].
    destruct fuel2 as [|fuel2]; [cbn in H2; lia|].
    cbn [scan].
    destruct (scan_step raw rest) as [[blocks rest']|e] eqn:E; [|reflexivity].
    pose proof (scan_step_rest_length _ _ _ _ E) as Hr.
    cbn [List.length] in H1, H2. f_equal. apply IH; lia.
Qed.

(** ** Paragraphs *)

Lemma is_continuation_spec l :
  is_continuation l = true <->
  exists c s, strip l = String c s /\ one_of "#-*+>" c = false.
Proof.
  unfold is_continuation, continuation, match_block_start.
  destruct (strip l) as [|c s]; cbn [is_empty orb].
  - split; [discriminate | intros (c & s & H & _); discriminate].
  - destruct (one_of "#-*+>" c) eqn:E; cbn [is_some].
    + split; [discriminate | intros (c' & s' & H & H'); congruence].
    + split; [eauto | reflexivity].
Qed.

Lemma collect_continuation rest :
  collect continuation rest
  = (map strip (take_while is_continuation rest), drop_while is_continuation rest).
Proof.
  induction rest as [|l rest IH]; [reflexivity|].
  cbn [collect take_while drop_while].
  assert (C : is_continuation l = is_some (continuation l)) by reflexivity.
  rewrite !C.
  destruct (continuation l) as [t|] eqn:E; cbn [is_some]; [|reflexivity].
  rewrite IH. cbn [map]. f_equal. f_equal.
  unfold continuation in E.
  destruct (is_empty (strip l) || match_block_start (strip l)); congruence.
Qed.

(** C8 (amended): the paragraph rule joins, with single spaces, the current
    line and the immediately following lines that are not blank and whose
    first non-blank character is none of [#], [-], [*], [+], [>] (each of
    them stripped), whatever other rule such a line would match on its own,
    and stops at the first line that is blank or begins with one of those
    characters; the joined text goes through the inline span parser.  This
    is what the scanner does with a line that no earlier rule takes (the
    ordered-list test, which raises on a number of too many digits,
    included) and the table rule declines. *)
Theorem C8_paragraph_absorbs_by_first_character (line : string) (rest : list string) :
  paragraph_rule line rest
  = ([Paragraph
        (TextFormatted
           (_parse_inline_formatting
              (join " " (line :: map strip (take_while is_continuation rest)))))],
     drop_while is_continuation rest)
  /\ (forall l, is_continuation l = true <->
                exists c s, strip l = String c s /\ one_of "#-*+>" c = false)
  /\ (forall raw,
         reaches_table_rule (rstrip raw) = true ->
         table_rule (rstrip raw) rest = None ->
         scan_step raw rest = Returned (paragraph_rule (rstrip raw) rest)).
Proof.
  split; [|split].
  - unfold paragraph_rule. now rewrite collect_continuation.
  - exact is_continuation_spec.
  - intros raw Hreach Hnone.
    now rewrite (scan_step_reaches_table _ _ Hreach), Hnone.
Qed.

Lemma C8_paragraph_absorbs_by_first_character_witness :
  scan_step "hello  " ["  1. item"; "6. six"; "a | b"; "- stop"; "more"]
  = Returned
      ([Paragraph
          (TextFormatted
             (FormatRich "hello 1. item 6. six a | b"
                         [Segment "hello 1. item 6. six a | b" plain]))],
       ["- stop"; "more"]).
Proof.
  destruct (C8_paragraph_absorbs_by_first_character
              "hello" ["  1. item"; "6. six"; "a | b"; "- stop"; "more"])
    as (H1 & _ & H3).
  rewrite (H3 "hello  " eq_refl eq_refl).
  change (rstrip "hello  ") with "hello". rewrite H1. reflexivity.
Defined.

(** C8 as stated fails in both directions.  The line ["1. item"] matches the
    ordered-list rule (alone it is an [OrderedList]) and is still joined to
    the paragraph before it; the line ["#tag"] matches no other rule (alone
    it is a [Paragraph]) and is still not joined. *)
Lemma C8_continuation_is_not_rule_matching :
  _markdown_to_blocks "1. item" = Returned [OrderedList ["item"]]
  /\ _markdown_to_blocks (join (String nl "") ["hello"; "1. item"])
     = Returned
         [Paragraph (TextFormatted
                       (FormatRich "hello 1. item" [Segment "hello 1. item" plain]))]
  /\ _markdown_to_blocks "#tag"
     = Returned
         [Paragraph (TextFormatted (FormatRich "#tag" [Segment "#tag" plain]))]
  /\ _markdown_to_blocks (join (String nl "") ["intro"; "#tag"])
     = Returned
         [Paragraph (TextFormatted (FormatRich "intro" [Segment "intro" plain]));
          Paragraph (TextFormatted (FormatRich "#tag" [Segment "#tag" plain]))].
Proof. repeat split. Qed.

(** ** The batches of [_write_children_batch] *)


Lemma batches_eq (l : list feishu_block) :
  batches l
  = map (fun k => firstn 50 (skipn (k * 50) l)) (seq 0 ((List.length l + 49) / 50)).
Proof.
  unfold batches, range_step, batch_size. rewrite map_map.
  replace (List.length l + 50 - 1) with (List.length l + 49) by lia.
  apply map_ext. intros k. unfold slice.
  now replace (k * 50 + 50 - k * 50) with 50 by lia.
Qed.

Lemma chunked_concat {A : Type} (n : nat) :
  forall l : list A,
    List.length l <= n * 50 ->
    List.concat (map (fun k => firstn 50 (skipn (k * 50) l)) (seq 0 n)) = l.
Proof.
  induction n as [|n IH]; intros l Hlen.
  - destruct l; [reflexivity | cbn in Hlen; lia].
  - cbn [seq map List.concat]. rewrite <- seq_shift, map_map.
    rewrite (map_ext _ (fun k => firstn 50 (skipn (k * 50) (skipn 50 l)))).
    + rewrite IH; [apply firstn_skipn|]. rewrite length_skipn. lia.
    + intros k. rewrite skipn_skipn. f_equal. f_equal. lia.
Qed.

(** The batches, put end to end, are the list; each has between 1 and 50
    blocks. *)
Lemma batches_concat (l : list feishu_block) : List.concat (batches l) = l.
Proof.
  rewrite batches_eq. apply chunked_concat.
  pose proof (Nat.div_mod_eq (List.length l + 49) 50) as E.
  pose proof (Nat.mod_upper_bound (List.length l + 49) 50). lia.
Qed.

Lemma batches_sizes (l : list feishu_block) :
  Forall (fun b => 1 <= List.length b <= 50) (batches l).
Proof.
  rewrite batches_eq. apply Forall_forall. intros b Hb.
  apply in_map_iff in Hb. destruct Hb as (k & <- & Hk).
  apply in_seq in Hk.
  pose proof (Nat.div_mod_eq (List.length l + 49) 50) as E.
  pose proof (Nat.mod_upper_bound (List.length l + 49) 50).
  rewrite length_firstn, length_skipn. lia.
Qed.



(** ** The cells of a table and their indexes *)

Lemma take_while_app {A : Type} (f : A -> bool) (a b : list A) :
  take_while f (a ++ b)
  = if forallb f a then a ++ take_while f b else take_while f a.
Proof.
  induction a as [|x a IH]; [reflexivity|].
  cbn. destruct (f x); [|reflexivity]. cbn. rewrite IH.
  now destruct (forallb f a).
Qed.

Lemma take_while_all {A : Type} (f : A -> bool) (a : list A) :
  forallb f a = true -> take_while f a = a.
Proof.
  induction a as [|x a IH]; [reflexivity|].
  cbn. destruct (f x); [|discriminate]. cbn. intros H. now rewrite IH.
Qed.

Lemma forallb_false {A : Type} (f : A -> bool) (l : list A) :
  forallb f l = false -> exists x, In x l /\ f x = false.
Proof.
  induction l as [|x l IH]; [discriminate|].
  cbn [forallb]. destruct (f x) eqn:Ex; cbn [andb].
  - intros E. destruct (IH E) as (y & Hin & Hy). exists y. split; [now right | exact Hy].
  - intros _. exists x. split; [now left | exact Ex].
Qed.

Lemma take_while_prefix {A : Type} (f : A -> bool) (l : list A) :
  exists k, take_while f l = firstn k l.
Proof.
  induction l as [|x l [k IH]]; [now exists 0|].
  cbn. destruct (f x); [|now exists 0].
  exists (S k). cbn. now rewrite IH.
Qed.

Lemma indexed_row_indexes cc r c row :
  map fst (indexed_row cc r c row) = seq (r * cc + c) (List.length row).
Proof.
  revert c. induction row as [|t row IH]; intros c; [reflexivity|].
  cbn. rewrite IH. f_equal. f_equal. lia.
Qed.

(** With rows of at most [cc] cells, the indexes never repeat and those of
    row [r] and after are at least [r * cc]. *)
Lemma indexed_rows_indexes cc rows :
  Forall (fun row => List.length row <= cc) rows ->
  forall r,
    NoDup (map fst (indexed_rows cc r rows))
    /\ (forall i, In i (map fst (indexed_rows cc r rows)) -> r * cc <= i).
Proof.
  induction 1 as [|row rows Hrow Hrows IH]; intros r.
  - split; [constructor | intros i []].
  - destruct (IH (S r)) as [IHn IHb].
    cbn [indexed_rows]. rewrite map_app, indexed_row_indexes.
    split.
    + apply NoDup_app; [apply seq_NoDup | exact IHn |].
      intros i Hi Hi'. apply in_seq in Hi. apply IHb in Hi'. cbn in Hi'. lia.
    + intros i Hi. apply in_app_or in Hi. destruct Hi as [Hi|Hi].
      * apply in_seq in Hi. lia.
      * apply IHb in Hi. cbn in Hi. lia.
Qed.

(** With rows of exactly [cc] cells, the indexes are [0], [1], [2], ... *)
Lemma indexed_rows_rectangular cc rows :
  Forall (fun row => List.length row = cc) rows ->
  forall r,
    map fst (indexed_rows cc r rows) = seq (r * cc) (List.length rows * cc).
Proof.
  induction 1 as [|row rows Hrow Hrows IH]; intros r; [reflexivity|].
  cbn [indexed_rows List.length]. rewrite map_app, indexed_row_indexes, IH, Hrow.
  replace (S (List.length rows) * cc) with (cc + List.length rows * cc) by lia.
  rewrite seq_app. f_equal; f_equal; lia.
Qed.

Lemma attempted_beyond len cc rows :
  forall r, len <= r * cc -> attempted_cells len cc r rows = [].
Proof.
  induction rows as [|row rows IH]; intros r Hr; [reflexivity|].
  cbn [attempted_cells]. rewrite (IH (S r)) by (cbn; lia).
  rewrite app_nil_r. destruct row as [|t row]; [reflexivity|].
  cbn [indexed_row take_while]. unfold in_range at 1. cbn [fst].
  destruct (r * cc + 0 <? len) eqn:E; [|reflexivity].
  apply Nat.ltb_lt in E. lia.
Qed.

(** With rows of at most [cc] cells the [break] of one row ends the filling:
    what is attempted is the cells, in order, up to the first one whose
    index is beyond the identifiers. *)
Lemma attempted_stops len cc rows :
  Forall (fun row => List.length row <= cc) rows ->
  forall r,
    attempted_cells len cc r rows
    = take_while (in_range len) (indexed_rows cc r rows).
Proof.
  induction 1 as [|row rows Hrow Hrows IH]; intros r; [reflexivity|].
  cbn [attempted_cells indexed_rows]. rewrite take_while_app, IH.
  destruct (forallb (in_range len) (indexed_row cc r 0 row)) eqn:E.
  - now rewrite take_while_all.
  - rewrite <- IH, attempted_beyond, app_nil_r; [reflexivity|].
    assert (Hex : exists cell, In cell (indexed_row cc r 0 row)
                               /\ in_range len cell = false).
    { now apply forallb_false. }
    destruct Hex as (cell & Hin & Hc).
    apply (in_map fst) in Hin. rewrite indexed_row_indexes in Hin.
    apply in_seq in Hin. unfold in_range in Hc. apply Nat.ltb_ge in Hc.
    cbn. lia.
Qed.

Lemma take_while_in_range_seq len start n :
  forall l : list (nat * string),
    map fst l = seq start n ->
    take_while (in_range len) l = firstn (len - start) l.
Proof.
  revert start. induction n as [|n IH]; intros start l Hl.
  - destruct l; [now rewrite firstn_nil | discriminate].
  - destruct l as [|x l]; [discriminate|]. cbn in Hl. injection Hl as Hx Hl.
    cbn [take_while]. unfold in_range at 1. rewrite Hx.
    destruct (start <? len) eqn:E.
    + apply Nat.ltb_lt in E. rewrite (IH (S start) l Hl).
      replace (len - start) with (S (len - S start)) by lia. reflexivity.
    + apply Nat.ltb_ge in E. now replace (len - start) with 0 by lia.
Qed.

(** ** Running the writer *)

Section WriterFacts.
Context {Store : Type}.
Variable post : Store -> request -> Store * response.

Lemma yields_ret {A : Type} (a : A) (w : @world Store) :
  yields (ret a) w a [] [] w.
Proof. unfold yields, ret. now rewrite !app_nil_r. Qed.

Lemma yields_bind {A B : Type} (m : @M Store A) (f : A -> @M Store B)
      w a ex1 ms1 w1 b ex2 ms2 w2 :
  yields m w a ex1 ms1 w1 ->
  yields (f a) w1 b ex2 ms2 w2 ->
  yields (bind m f) w b (ex1 ++ ex2) (ms1 ++ ms2) w2.
Proof.
  intros (E1 & X1 & P1) (E2 & X2 & P2). unfold yields, bind.
  rewrite E1, E2, X2, P2, X1, P1, !app_assoc. auto.
Qed.

Lemma yields_print (m : message) (w : @world Store) :
  exists w', yields (print m) w tt [] [m] w'.
Proof. eexists. unfold yields, print. cbn. now rewrite app_nil_r. Qed.

Lemma yields_post (r : request) (w : world) :
  exists w',
    yields (api_post post r) w (snd (post (store w) r))
           [(r, snd (post (store w) r))] [] w'
    /\ store w' = fst (post (store w) r).
Proof.
  unfold yields, api_post. destruct (post (store w) r) as [store' result].
  eexists. cbn. rewrite app_nil_r. auto.
Qed.

Lemma yields_item {A : Type} (l : list A) (i : nat) (d : A) (w : @world Store) :
  i < List.length l -> yields (item l i) w (nth i l d) [] [] w.
Proof.
  intros H. unfold item. rewrite (nth_error_nth' l d H). apply yields_ret.
Qed.

Lemma batch_loop_yields doc parent (l : list feishu_block) idxs :
  forall w acc,
  exists n ex msgs w',
    yields
      (for_each idxs
         (fun i success =>
            bind (api_post post (Request doc parent (slice l i (i + batch_size))))
                 (fun result =>
                    match result with
                    | Some children_back =>
                        ret (success
                             + (if is_nil children_back
                                then List.length (slice l i (i + batch_size))
                                else List.length children_back))
                    | None =>
                        bind (print (BatchFailed
                                       (List.length (slice l i (i + batch_size)))))
                             (fun _ => ret success)
                    end))
         acc)
      w n ex msgs w'
    /\ map fst ex
       = map (fun i => Request doc parent (slice l i (i + batch_size))) idxs
    /\ n = acc + list_sum (map (fun e => credited (children (fst e)) (snd e)) ex).
Proof.
  induction idxs as [|i idxs IH]; intros w acc.
  - exists acc, [], [], w. cbn. split; [apply yields_ret|]. split; [reflexivity | lia].
  - cbn [for_each map].
    destruct (yields_post (Request doc parent (slice l i (i + batch_size))) w)
      as (w1 & Y1 & _).
    destruct (snd (post (store w) (Request doc parent (slice l i (i + batch_size)))))
      as [back|] eqn:R.
    + destruct (IH w1 (acc + (if is_nil back then List.length (slice l i (i + batch_size))
                              else List.length back)))
        as (n & ex & msgs & w' & Y & Hreq & Hn).
      exists n, ((Request doc parent (slice l i (i + batch_size)), Some back) :: ex),
        msgs, w'.
      split; [|split].
      * refine (yields_bind _ _ _ _ [_] [] _ _ _ _ _ _ Y).
        refine (yields_bind _ _ _ _ [_] [] _ _ [] [] _ Y1 _).
        apply yields_ret.
      * cbn [map fst]. now rewrite Hreq.
      * rewrite Hn. unfold list_sum. cbn [map fold_right fst snd children credited]. lia.
    + destruct (yields_print (BatchFailed (List.length (slice l i (i + batch_size)))) w1)
        as (w2 & Y2).
      destruct (IH w2 acc) as (n & ex & msgs & w' & Y & Hreq & Hn).
      exists n, ((Request doc parent (slice l i (i + batch_size)), None) :: ex),
        (BatchFailed (List.length (slice l i (i + batch_size))) :: msgs), w'.
      split; [|split].
      * refine (yields_bind _ _ _ _ [_] [_] _ _ _ _ _ _ Y).
        refine (yields_bind _ _ _ _ [_] [] _ _ [] [_] _ Y1 _).
        refine (yields_bind _ _ _ _ [] [_] _ _ [] [] _ Y2 _).
        apply yields_ret.
      * cbn [map fst]. now rewrite Hreq.
      * rewrite Hn. unfold list_sum. cbn [map fold_right fst snd children credited]. lia.
Qed.

(** [_write_children_batch] posts the batches, one request each, in order,
    and returns the sum of what each result is credited with. *)
Lemma write_children_batch_yields doc parent l w :
  exists n ex msgs w',
    yields (_write_children_batch post doc parent l) w n ex msgs w'
    /\ map fst ex = map (Request doc parent) (batches l)
    /\ n = list_sum (map (fun e => credited (children (fst e)) (snd e)) ex).
Proof.
  destruct (batch_loop_yields doc parent l
              (range_step (List.length l) batch_size) w 0)
    as (n & ex & msgs & w' & Y & Hreq & Hn).
  exists n, ex, msgs, w'. split; [exact Y|]. split; [|exact Hn].
  rewrite Hreq. unfold batches. now rewrite map_map.
Qed.

End WriterFacts.

(** ** Filling the cells of a table *)

Section TableFacts.
Context {Store : Type}.
Variable post : Store -> request -> Store * response.

Lemma fill_row_yields doc ids cc r row :
  forall c filled w,
  exists ex w',
    yields (fill_row post doc ids cc r c row filled) w
           (filled + List.length (filter succeeded ex)) ex [] w'
    /\ map fst ex
       = map (fill_request doc ids)
             (take_while (in_range (List.length ids)) (indexed_row cc r c row)).
Proof.
  induction row as [|t row IH]; intros c filled w.
  - exists [], w. cbn. rewrite Nat.add_0_r. split; [apply yields_ret | reflexivity].
  - cbn [fill_row indexed_row take_while]. unfold in_range at 1. cbn [fst].
    destruct (List.length ids <=? r * cc + c) eqn:E.
    + apply Nat.leb_le in E.
      replace (r * cc + c <? List.length ids) with false
        by (symmetry; apply Nat.ltb_ge; lia).
      exists [], w. cbn. rewrite Nat.add_0_r.
      split; [apply yields_ret | reflexivity].
    + apply Nat.leb_gt in E.
      replace (r * cc + c <? List.length ids) with true
        by (symmetry; apply Nat.ltb_lt; lia).
      pose proof (yields_item ids (r * cc + c) "" w E) as Y0.
      destruct (yields_post post
                  (Request doc (nth (r * cc + c) ids "") [text_block t]) w)
        as (w1 & Y1 & _).
      set (res := snd (post (store w)
                         (Request doc (nth (r * cc + c) ids "") [text_block t]))) in *.
      destruct (IH (S c) (if is_some res then S filled else filled) w1)
        as (ex & w' & Y & Hreq).
      exists ((Request doc (nth (r * cc + c) ids "") [text_block t], res) :: ex), w'.
      split.
      * replace (filled + List.length
                            (filter succeeded
                               ((Request doc (nth (r * cc + c) ids "") [text_block t], res) :: ex)))
          with ((if is_some res then S filled else filled)
                + List.length (filter succeeded ex)).
        -- refine (yields_bind _ _ _ _ [] [] _ _ (_ :: _) [] _ Y0 _).
           refine (yields_bind _ _ _ _ [_] [] _ _ _ [] _ Y1 Y).
        -- cbn [filter]. unfold succeeded at 2. cbn [snd].
           destruct (is_some res); cbn [List.length]; lia.
      * cbn [map]. now rewrite Hreq.
Qed.

Lemma fill_rows_yields doc ids cc all_rows :
  forall r filled w,
  exists ex w',
    yields (fill_rows post doc ids cc r all_rows filled) w
           (filled + List.length (filter succeeded ex)) ex [] w'
    /\ map fst ex
       = map (fill_request doc ids)
             (attempted_cells (List.length ids) cc r all_rows).
Proof.
  induction all_rows as [|row more IH]; intros r filled w.
  - exists [], w. cbn. rewrite Nat.add_0_r. split; [apply yields_ret | reflexivity].
  - cbn [fill_rows attempted_cells].
    destruct (fill_row_yields doc ids cc r row 0 filled w) as (ex1 & w1 & Y1 & H1).
    destruct (IH (S r) (filled + List.length (filter succeeded ex1)) w1)
      as (ex2 & w2 & Y2 & H2).
    exists (ex1 ++ ex2), w2. split.
    + replace (filled + List.length (filter succeeded (ex1 ++ ex2)))
        with (filled + List.length (filter succeeded ex1)
              + List.length (filter succeeded ex2))
        by (rewrite filter_app, length_app; lia).
      exact (yields_bind _ _ _ _ _ [] _ _ _ [] _ Y1 Y2).
    + now rewrite !map_app, H1, H2.
Qed.

End TableFacts.

(** ** The table builder *)

(** One step of a run: the first action of a [bind] is the run [Y]. *)
Ltac ystep Y := cbv beta; eapply yields_bind; [exact Y|]; cbv beta.

Ltac list_eq := cbn [app]; rewrite ?app_nil_r; reflexivity.


Lemma row_count_all_rows headers rows :
  row_count_of headers rows = List.length (all_rows_of headers rows).
Proof. unfold row_count_of, all_rows_of. now destruct headers. Qed.

Section BuilderFacts.
Context {Store : Type}.
Variable post : Store -> request -> Store * response.

Lemma yields_print_store (m : message) (w : @world Store) :
  exists w', yields (print m) w tt [] [m] w' /\ store w' = store w.
Proof. eexists. unfold yields, print. cbn. rewrite app_nil_r. auto. Qed.

Lemma yields_cast {A : Type} (m : @M Store A) w a ex ms w' ex' ms' :
  yields m w a ex ms w' -> ex = ex' -> ms = ms' -> yields m w a ex' ms' w'.
Proof. now intros H <- <-. Qed.

(** An empty table is skipped without a request. *)
Lemma create_table_empty doc parent headers rows w :
  col_count_of headers rows = 0 \/ row_count_of headers rows = 0 ->
  exists w',
    yields (_create_table_block post doc parent headers rows) w false
           [] [EmptyTableSkipped] w'.
Proof.
  intros H. unfold _create_table_block.
  replace ((col_count_of headers rows =? 0) || (row_count_of headers rows =? 0))
    with true
    by (symmetry; apply orb_true_iff; destruct H as [H|H]; rewrite H; auto).
  destruct (yields_print EmptyTableSkipped w) as (w' & Y).
  exists w'.
  eapply yields_cast; [ystep Y; apply yields_ret | list_eq | list_eq].
Qed.

(** What the builder does once the shell request has been answered. *)
Lemma create_table_after_shell doc parent headers rows w :
  col_count_of headers rows <> 0 ->
  row_count_of headers rows <> 0 ->
  let cc := col_count_of headers rows in
  let rc := row_count_of headers rows in
  let shell := Request doc parent [TableShell rc cc] in
  let result := snd (post (store w) shell) in
  match result with
  | None =>
      exists ex msgs w',
        yields (_create_table_block post doc parent headers rows) w false
               ((shell, None) :: ex)
               (CreatingTable rc cc :: ShellFailedFallback :: msgs) w'
        /\ map fst ex
           = map (Request doc parent) (batches (table_text_blocks headers rows))
  | Some [] =>
      exists w',
        yields (_create_table_block post doc parent headers rows) w false
               [(shell, Some [])]
               [CreatingTable rc cc; ShellReturnedNothing] w'
  | Some (table_info :: more) =>
      exists ex w',
        yields (_create_table_block post doc parent headers rows) w
               (0 <? List.length (filter succeeded ex))
               ((shell, Some (table_info :: more)) :: ex)
               (CreatingTable rc cc
                :: (if List.length (cells table_info) <? rc * cc
                    then [CellsMissing (rc * cc) (List.length (cells table_info))]
                    else [])
                ++ [TableFilled (List.length (filter succeeded ex)) (rc * cc)])
               w'
        /\ map fst ex
           = map (fill_request doc (cells table_info))
                 (attempted_cells (List.length (cells table_info)) cc 0
                                  (all_rows_of headers rows))
  end.
Proof.
  intros Hcc Hrc cc rc shell result.
  unfold _create_table_block. fold cc rc.
  replace ((cc =? 0) || (rc =? 0)) with false
    by (symmetry; apply orb_false_iff; split; now apply Nat.eqb_neq).
  destruct (yields_print_store (CreatingTable rc cc) w) as (w0 & Y0 & S0).
  destruct (yields_post post shell w0) as (w1 & Y1 & _).
  rewrite S0 in Y1. fold shell result in Y1 |- *.
  destruct result as [[|table_info more]|].
  - destruct (yields_print ShellReturnedNothing w1) as (w2 & Y2).
    exists w2.
    eapply yields_cast;
      [ ystep Y0; ystep Y1; cbn [is_nil]; ystep Y2; apply yields_ret
      | list_eq | list_eq ].
  - cbn [is_nil].
    pose proof (yields_item (table_info :: more) 0 table_info w1
                            (Nat.lt_0_succ _)) as Yi.
    cbn [nth] in Yi.
    assert (Yc : exists w2,
               yields (if List.length (cells table_info) <? rc * cc
                       then print (CellsMissing (rc * cc)
                                                (List.length (cells table_info)))
                       else ret tt) w1 tt []
                      (if List.length (cells table_info) <? rc * cc
                       then [CellsMissing (rc * cc) (List.length (cells table_info))]
                       else []) w2).
    { destruct (List.length (cells table_info) <? rc * cc).
      - apply yields_print.
      - exists w1. apply yields_ret. }
    destruct Yc as (w2 & Yc).
    destruct (fill_rows_yields post doc (cells table_info) cc
                               (all_rows_of headers rows) 0 0 w2)
      as (ex & w3 & Yf & Hreq).
    cbn [Nat.add] in Yf.
    destruct (yields_print
                (TableFilled (List.length (filter succeeded ex)) (rc * cc)) w3)
      as (w4 & Yp).
    exists ex, w4. split; [|exact Hreq].
    eapply yields_cast;
      [ ystep Y0; ystep Y1; cbn [is_nil]; ystep Yi; ystep Yc; ystep Yf;
        ystep Yp; apply yields_ret
      | list_eq | list_eq ].
  - destruct (yields_print ShellFailedFallback w1) as (w2 & Y2).
    unfold _write_table_as_text.
    destruct (is_nil (table_text_blocks headers rows)) eqn:En.
    + exists [], [], w2. split.
      * eapply yields_cast;
          [ ystep Y0; ystep Y1; ystep Y2; ystep (yields_ret tt w2);
            apply yields_ret
          | list_eq | list_eq ].
      * destruct (table_text_blocks headers rows); [reflexivity | discriminate].
    + destruct (write_children_batch_yields post doc parent
                                            (table_text_blocks headers rows) w2)
        as (n & ex & msgs & w3 & Y3 & Hreq & _).
      exists ex, msgs, w3. split; [|exact Hreq].
      eapply yields_cast;
        [ ystep Y0; ystep Y1; ystep Y2;
          eapply yields_bind;
          [ eapply yields_bind; [exact Y3 | apply yields_ret] | apply yields_ret ]
        | list_eq | list_eq ].
Qed.

(** The builder returns on every table and every store: nothing raises. *)
Lemma create_table_returns doc parent headers rows w :
  exists ok ex msgs w',
    yields (_create_table_block post doc parent headers rows) w ok ex msgs w'.
Proof.
  destruct (Nat.eq_dec (col_count_of headers rows) 0) as [Hcc|Hcc].
  { destruct (create_table_empty doc parent headers rows w (or_introl Hcc))
      as (w' & Y). eauto. }
  destruct (Nat.eq_dec (row_count_of headers rows) 0) as [Hrc|Hrc].
  { destruct (create_table_empty doc parent headers rows w (or_intror Hrc))
      as (w' & Y). eauto. }
  pose proof (create_table_after_shell doc parent headers rows w Hcc Hrc) as H.
  cbv zeta in H.
  destruct (snd (post (store w)
                      (Request doc parent
                               [TableShell (row_count_of headers rows)
                                           (col_count_of headers rows)])))
    as [[|table_info more]|].
  - destruct H as (w' & Y). eauto.
  - destruct H as (ex & w' & Y & _). eauto.
  - destruct H as (ex & msgs & w' & Y & _). eauto.
Qed.

End BuilderFacts.

Lemma filter_length_le {A : Type} (f : A -> bool) (l : list A) :
  List.length (filter f l) <= List.length l.
Proof. induction l as [|x l IH]; cbn; [lia|]. destruct (f x); cbn; lia. Qed.

Lemma filter_all {A : Type} (f : A -> bool) (l : list A) :
  forallb f l = true -> filter f l = l.
Proof.
  induction l as [|x l IH]; [reflexivity|].
  cbn. destruct (f x); [|discriminate]. cbn. intros H. now rewrite IH.
Qed.






(** X22: for a table whose rows, the header row included, have at
    most [col_count] cells each, whose shell is created, and whose returned
    cell identifiers are fewer than [row_count * col_count]: the builder
    raises nothing; it sends one fill request per cell, in row-major order,
    to the identifier at the cell's index, up to the first cell whose index
    is beyond the identifiers, and none after it, so no identifier is used
    twice; it prints [filled]/[row_count * col_count] where [filled] is the
    number of fill requests that got a result; it returns [filled > 0].
    When every row has exactly [col_count] cells, the cells filled are the
    first [len(cell_ids)] ones, and [filled = len(cell_ids)] when every fill
    request succeeds (4 of 9 gives filled=4, total=9). *)
Theorem short_cell_array_under_filled
        {Store : Type} (post : Store -> request -> Store * response)
        (doc parent : string) (headers : list string) (rows : list (list string))
        (w : world) (table_info : child) (more : list child) :
  let cc := col_count_of headers rows in
  let rc := row_count_of headers rows in
  let shell := Request doc parent [TableShell rc cc] in
  let ids := cells table_info in
  let all_rows := all_rows_of headers rows in
  let todo := take_while (in_range (List.length ids)) (indexed_rows cc 0 all_rows) in
  0 < rc -> 0 < cc ->
  snd (post (store w) shell) = Some (table_info :: more) ->
  List.length ids < rc * cc ->
  Forall (fun row => List.length row <= cc) all_rows ->
  exists ex w',
    let filled := List.length (filter succeeded ex) in
    yields (_create_table_block post doc parent headers rows) w (0 <? filled)
           ((shell, Some (table_info :: more)) :: ex)
           [CreatingTable rc cc; CellsMissing (rc * cc) (List.length ids);
            TableFilled filled (rc * cc)]
           w'
    /\ map fst ex = map (fill_request doc ids) todo
    /\ NoDup (map fst todo)
    /\ List.length todo <= List.length ids
    /\ filled <= List.length todo
    /\ (Forall (fun row => List.length row = cc) all_rows ->
        todo = firstn (List.length ids) (indexed_rows cc 0 all_rows)
        /\ List.length todo = List.length ids
        /\ (forallb succeeded ex = true -> filled = List.length ids)).
Proof.
  intros cc rc shell ids all_rows todo Hrc Hcc Hshell Hshort Hrows.
  assert (Hcc' : col_count_of headers rows <> 0) by (fold cc; lia).
  assert (Hrc' : row_count_of headers rows <> 0) by (fold rc; lia).
  pose proof (create_table_after_shell post doc parent headers rows w Hcc' Hrc') as H.
  cbv zeta in H. fold cc rc shell in H. rewrite Hshell in H.
  destruct H as (ex & w' & Y & Hreq). fold ids all_rows in Y, Hreq.
  replace (List.length ids <? rc * cc) with true in Y
    by (symmetry; now apply Nat.ltb_lt).
  rewrite (attempted_stops _ _ _ Hrows) in Hreq. fold todo in Hreq.
  assert (Hlen : List.length ex = List.length todo).
  { rewrite <- (length_map fst ex), Hreq. apply length_map. }
  assert (Hnodup : NoDup (map fst todo)).
  { destruct (take_while_prefix (in_range (List.length ids))
                                (indexed_rows cc 0 all_rows)) as [k Hk].
    unfold todo. rewrite Hk, <- firstn_map.
    apply (NoDup_app_remove_r _ (skipn k (map fst (indexed_rows cc 0 all_rows)))).
    rewrite firstn_skipn. now apply indexed_rows_indexes. }
  assert (Hbound : List.length todo <= List.length ids).
  { rewrite <- (length_map fst todo), <- (length_seq (List.length ids) 0).
    apply NoDup_incl_length; [exact Hnodup|].
    intros i Hi. apply in_map_iff in Hi. destruct Hi as (cell & <- & Hcell).
    destruct (take_drop_while (in_range (List.length ids))
                              (indexed_rows cc 0 all_rows)) as (_ & Hall & _).
    rewrite Forall_forall in Hall. specialize (Hall cell Hcell).
    unfold in_range in Hall. apply Nat.ltb_lt in Hall.
    apply in_seq. lia. }
  exists ex, w'. cbv zeta.
  split; [exact Y|]. split; [exact Hreq|]. split; [exact Hnodup|].
  split; [exact Hbound|]. split.
  - rewrite <- Hlen. apply filter_length_le.
  - intros Hrect.
    assert (Htodo : todo = firstn (List.length ids) (indexed_rows cc 0 all_rows)).
    { unfold todo.
      rewrite (take_while_in_range_seq _ 0 (List.length all_rows * cc)).
      - now rewrite Nat.sub_0_r.
      - now rewrite (indexed_rows_rectangular cc all_rows Hrect 0). }
    assert (Htl : List.length todo = List.length ids).
    { rewrite Htodo, length_firstn.
      rewrite <- (length_map fst (indexed_rows cc 0 all_rows)).
      rewrite (indexed_rows_rectangular cc all_rows Hrect 0), length_seq.
      unfold all_rows. rewrite <- row_count_all_rows. fold rc. lia. }
    split; [exact Htodo|]. split; [exact Htl|].
    intros Hall. rewrite (filter_all _ _ Hall). lia.
Qed.

Lemma short_cell_array_under_filled_witness :
  exists ex w',
    yields (_create_table_block (shell_with_cells ["c0"; "c1"; "c2"; "c3"])
                                "doc" "doc" ["a"; "b"; "c"]
                                [["1"; "2"; "3"]; ["4"; "5"; "6"]])
           (start tt)
           (0 <? List.length (filter succeeded ex))
           ((Request "doc" "doc" [TableShell 3 3],
             Some [Child ["c0"; "c1"; "c2"; "c3"]]) :: ex)
           [CreatingTable 3 3; CellsMissing 9 4;
            TableFilled (List.length (filter succeeded ex)) 9]
           w'
    /\ map fst ex
       = [Request "doc" "c0" [text_block "a"]; Request "doc" "c1" [text_block "b"];
          Request "doc" "c2" [text_block "c"]; Request "doc" "c3" [text_block "1"]].
Proof.
  destruct (short_cell_array_under_filled
              (shell_with_cells ["c0"; "c1"; "c2"; "c3"])
              "doc" "doc" ["a"; "b"; "c"] [["1"; "2"; "3"]; ["4"; "5"; "6"]]
              (start tt) (Child ["c0"; "c1"; "c2"; "c3"]) [])
    as (ex & w' & Y & Hreq & _).
  - cbn. lia.
  - cbn. lia.
  - reflexivity.
  - cbn. lia.
  - repeat constructor.
  - exists ex, w'. split; [exact Y | exact Hreq].
Defined.

(** C4, at a table with rows longer than [col_count]: with one header cell
    ([col_count = 1]), eight rows of three cells
    ([row_count * col_count = 9]) and four identifiers returned, filling
    does not stop once the identifiers are exhausted.  The [break] leaves
    only the loop over the cells of one row, so the next row is filled
    again, into identifiers already used: seven fill requests are posted,
    every one succeeds, and [filled = 7] of 9 is printed, though only 4
    cells received content.  The table is the one the scanner gives for
    the header line [h|], a separator line and eight lines [x|y|z]. *)
Lemma C4_long_rows_filled_again :
  let headers := ["h"] in
  let rows := repeat ["x"; "y"; "z"] 8 in
  let run := _create_table_block (shell_with_cells ["c0"; "c1"; "c2"; "c3"])
                                 "doc" "doc" headers rows (start tt) in
  _markdown_to_blocks (join (String nl "") ("h|" :: "|--|" :: repeat "x|y|z" 8))
  = Returned [Table headers rows]
  /\ row_count_of headers rows * col_count_of headers rows = 9
  /\ fst run = Returned true
  /\ printed (snd run) = [CreatingTable 9 1; CellsMissing 9 4; TableFilled 7 9]
  /\ map (fun e => parent_block_id (fst e)) (exchanges (snd run))
     = ["doc"; "c0"; "c1"; "c2"; "c3"; "c2"; "c3"; "c3"]
  /\ forallb succeeded (exchanges (snd run)) = true
  /\ List.length
       (nodup string_dec
              (map (fun e => parent_block_id (fst e)) (tl (exchanges (snd run)))))
     = 4.
Proof. vm_compute. repeat split. Qed.

(** ** The top-level writer *)

Section TopFacts.
Context {Store : Type}.
Variable post : Store -> request -> Store * response.

Lemma yields_cast_value {A : Type} (m : @M Store A) w a ex ms w' a' ex' ms' :
  yields m w a ex ms w' -> a = a' -> ex = ex' -> ms = ms' ->
  yields m w a' ex' ms' w'.
Proof. now intros H <- <- <-. Qed.



Lemma flush_yields doc c w :
  exists n ex msgs w',
    yields (flush post doc c) w
           (Counters [] (success_count c + n)
                     (total_count c + List.length (pending_blocks c)))
           ex msgs w'
    /\ map fst ex = map (Request doc doc) (batches (pending_blocks c)).
Proof.
  destruct (write_children_batch_yields post doc doc (pending_blocks c) w)
    as (n & ex & msgs & w' & Y & Hreq & _).
  exists n, ex, msgs, w'. split; [|exact Hreq].
  unfold flush.
  eapply yields_cast; [ystep Y; apply yields_ret | list_eq | list_eq].
Qed.

Lemma write_block_not_table doc b c :
  is_table b = false ->
  write_block post doc b c
  = let c1 := Counters (pending_blocks c ++ _blocks_to_feishu_json b)
                       (success_count c) (total_count c) in
    if 50 <=? List.length (pending_blocks c1) then flush post doc c1 else ret c1.
Proof. destruct b; cbn; intros H; (discriminate || reflexivity). Qed.

(** A block that is not a table joins the buffer; the buffer is flushed as
    soon as it holds 50 wire blocks or more. *)
Lemma write_block_buffers doc b c w :
  is_table b = false ->
  let p := pending_blocks c ++ _blocks_to_feishu_json b in
  (List.length p < 50 ->
   yields (write_block post doc b c) w
          (Counters p (success_count c) (total_count c)) [] [] w)
  /\ (50 <= List.length p ->
      exists n ex msgs w',
        yields (write_block post doc b c) w
               (Counters [] (success_count c + n) (total_count c + List.length p))
               ex msgs w'
        /\ map fst ex = map (Request doc doc) (batches p)).
Proof.
  intros Hb p. rewrite (write_block_not_table doc b c Hb). cbv zeta.
  cbn [pending_blocks]. fold p. split; intros Hp.
  - replace (50 <=? List.length p) with false
      by (symmetry; apply Nat.leb_gt; lia).
    apply yields_ret.
  - replace (50 <=? List.length p) with true
      by (symmetry; apply Nat.leb_le; lia).
    apply (flush_yields doc (Counters p (success_count c) (total_count c)) w).
Qed.

(** A table block: the buffer is flushed first, then the table is built,
    and the buffer is empty afterwards. *)
Lemma write_block_table doc headers rows c w :
  exists n ex1 ms1 w1 ok ex2 ms2 w2,
    map fst ex1 = map (Request doc doc) (batches (pending_blocks c))
    /\ exchanges w1 = exchanges w ++ ex1
    /\ yields (_create_table_block post doc doc headers rows) w1 ok ex2 ms2 w2
    /\ yields (write_block post doc (Table headers rows) c) w
              (Counters [] (success_count c + n + (if ok then 1 else 0))
                        (total_count c + List.length (pending_blocks c) + 1))
              (ex1 ++ ex2) (ms1 ++ ms2) w2.
Proof.
  cbn [write_block].
  destruct (pending_blocks c) as [|b0 p] eqn:Ep; cbn [is_nil].
  - destruct (create_table_returns post doc doc headers rows w)
      as (ok & ex2 & ms2 & w2 & Y2).
    exists 0, [], [], w, ok, ex2, ms2, w2.
    split; [reflexivity|]. split; [now rewrite app_nil_r|]. split; [exact Y2|].
    eapply yields_cast_value;
      [ ystep (yields_ret c w); ystep Y2; apply yields_ret
      | rewrite Ep; destruct ok; f_equal; cbn [List.length]; lia
      | list_eq | list_eq ].
  - destruct (flush_yields doc c w) as (n & ex1 & ms1 & w1 & Y1 & Hreq).
    rewrite Ep in Y1, Hreq.
    destruct (create_table_returns post doc doc headers rows w1)
      as (ok & ex2 & ms2 & w2 & Y2).
    exists n, ex1, ms1, w1, ok, ex2, ms2, w2.
    split; [exact Hreq|]. split; [apply Y1|]. split; [exact Y2|].
    eapply yields_cast_value;
      [ ystep Y1; ystep Y2; apply yields_ret
      | cbn [pending_blocks success_count total_count];
        destruct ok; f_equal; lia
      | list_eq | list_eq ].
Qed.

End TopFacts.



Section LoopFacts.
Context {Store : Type}.
Variable post : Store -> request -> Store * response.

Lemma write_block_returns doc b c w :
  exists c' ex msgs w', yields (write_block post doc b c) w c' ex msgs w'.
Proof.
  destruct (is_table b) eqn:Hb.
  - destruct b; try discriminate.
    destruct (write_block_table post doc headers rows c w)
      as (n & ex1 & ms1 & w1 & ok & ex2 & ms2 & w2 & _ & _ & _ & Y).
    eauto.
  - destruct (write_block_buffers post doc b c w Hb) as [H1 H2].
    destruct (Nat.lt_ge_cases
                (List.length (pending_blocks c ++ _blocks_to_feishu_json b)) 50)
      as [Hlt|Hge].
    + specialize (H1 Hlt). eauto.
    + destruct (H2 Hge) as (n & ex & msgs & w' & Y & _). eauto.
Qed.

Lemma loop_returns doc blocks :
  forall c w,
  exists c' ex msgs w',
    yields (for_each blocks (write_block post doc) c) w c' ex msgs w'.
Proof.
  induction blocks as [|b blocks IH]; intros c w.
  - exists c, [], [], w. apply yields_ret.
  - destruct (write_block_returns doc b c w) as (c1 & ex1 & ms1 & w1 & Y1).
    destruct (IH c1 w1) as (c2 & ex2 & ms2 & w2 & Y2).
    exists c2, (ex1 ++ ex2), (ms1 ++ ms2), w2.
    cbn [for_each]. exact (yields_bind _ _ _ _ _ _ _ _ _ _ _ Y1 Y2).
Qed.

(** The writer loop and the last flush return on every block list and
    every store. *)
Lemma write_blocks_returns doc blocks w :
  exists c ex msgs w', yields (write_blocks post doc blocks) w c ex msgs w'.
Proof.
  destruct (loop_returns doc blocks (Counters [] 0 0) w)
    as (c & ex & msgs & w1 & Y).
  unfold write_blocks.
  destruct (is_nil (pending_blocks c)) eqn:En.
  - exists c, ex, msgs, w1.
    eapply yields_cast; [ystep Y; rewrite En; apply yields_ret | list_eq | list_eq].
  - destruct (write_children_batch_yields post doc doc (pending_blocks c) w1)
      as (n & ex2 & ms2 & w2 & Y2 & _).
    do 4 eexists.
    ystep Y. rewrite En. ystep Y2. apply yields_ret.
Qed.



End LoopFacts.


Lemma blocks_sent_requests ex :
  blocks_sent ex = List.concat (map children (map fst ex)).
Proof. unfold blocks_sent. now rewrite map_map. Qed.

Section BatchBoundary.
Context {Store : Type}.
Variable post : Store -> request -> Store * response.


End BatchBoundary.



(** ** The success ratio *)

Lemma half_below_rate (s t : nat) :
  0 < t -> ((1 # 2) < success_rate s t)%Q <-> t < 2 * s.
Proof.
  intros Ht. destruct t as [|t']; [lia|].
  unfold success_rate, Qlt, Qdiv, Qmult, Qinv, inject_Z.
  cbn [Qnum Qden Z.of_nat]. cbn [Qnum Qden]. lia.
Qed.

Lemma rate_above_half_spec (s t : nat) :
  0 < t ->
  (rate_above_half s t = true <-> ((1 # 2) < success_rate s t)%Q)
  /\ (rate_above_half s t = true <-> t < 2 * s).
Proof.
  intros Ht. pose proof (half_below_rate s t Ht) as Hq.
  unfold rate_above_half.
  destruct (Qlt_le_dec (1 # 2) (success_rate s t)) as [H|H].
  - split; [tauto|]. split; [intros _; now apply Hq | reflexivity].
  - apply Qle_not_lt in H. split; split; try discriminate; intros H'; tauto.
Qed.

(** ** Requests and the total count *)

Section CountFacts.
Context {Store : Type}.
Variable post : Store -> request -> Store * response.

Lemma yields_deterministic {A : Type} (m : @M Store A) w a1 ex1 ms1 w1 a2 ex2 ms2 w2 :
  yields m w a1 ex1 ms1 w1 -> yields m w a2 ex2 ms2 w2 ->
  a1 = a2 /\ ex1 = ex2 /\ ms1 = ms2 /\ w1 = w2.
Proof.
  intros (E1 & X1 & P1) (E2 & X2 & P2). rewrite E1 in E2.
  injection E2 as -> ->. rewrite X1 in X2. rewrite P1 in P2.
  apply app_inv_head in X2, P2. auto.
Qed.

(** A block that makes the writer post something is counted. *)
Lemma write_block_counts doc b c w :
  exists c' ex msgs w',
    yields (write_block post doc b c) w c' ex msgs w'
    /\ total_count c <= total_count c'
    /\ (ex <> [] -> total_count c < total_count c').
Proof.
  destruct (is_table b) eqn:Hb.
  - destruct b; try discriminate.
    destruct (write_block_table post doc headers rows c w)
      as (n & ex1 & ms1 & w1 & ok & ex2 & ms2 & w2 & _ & _ & _ & Y).
    do 4 eexists. split; [exact Y|]. cbn [total_count]. split; intros; lia.
  - destruct (write_block_buffers post doc b c w Hb) as [H1 H2].
    destruct (Nat.lt_ge_cases
                (List.length (pending_blocks c ++ _blocks_to_feishu_json b)) 50)
      as [Hlt|Hge].
    + specialize (H1 Hlt). do 4 eexists. split; [exact H1|].
      cbn [total_count]. split; [lia | congruence].
    + destruct (H2 Hge) as (n & ex & msgs & w' & Y & _).
      do 4 eexists. split; [exact Y|]. cbn [total_count]. split; intros; lia.
Qed.

Lemma loop_counts doc blocks :
  forall c w,
  exists c' ex msgs w',
    yields (for_each blocks (write_block post doc) c) w c' ex msgs w'
    /\ total_count c <= total_count c'
    /\ (ex <> [] -> total_count c < total_count c').
Proof.
  induction blocks as [|b blocks IH]; intros c w.
  - exists c, [], [], w. split; [apply yields_ret|]. split; [lia | congruence].
  - destruct (write_block_counts doc b c w)
      as (c1 & ex1 & ms1 & w1 & Y1 & L1 & S1).
    destruct (IH c1 w1) as (c2 & ex2 & ms2 & w2 & Y2 & L2 & S2).
    exists c2, (ex1 ++ ex2), (ms1 ++ ms2), w2.
    split; [cbn [for_each]; exact (yields_bind _ _ _ _ _ _ _ _ _ _ _ Y1 Y2)|].
    split; [lia|]. intros Hne.
    destruct ex1 as [|e ex1]; [|specialize (S1 ltac:(discriminate)); lia].
    apply S2 in Hne. lia.
Qed.

(** When the loop and the last flush end with [total_count = 0], nothing was
    posted. *)
Lemma write_blocks_nothing_counted doc blocks w c ex msgs w' :
  yields (write_blocks post doc blocks) w c ex msgs w' ->
  total_count c = 0 -> ex = [].
Proof.
  intros Y Ht.
  destruct (loop_counts doc blocks (Counters [] 0 0) w)
    as (c1 & ex1 & ms1 & w1 & Y1 & _ & S1).
  cbn [total_count] in S1.
  assert (Yw : exists c2 ex2 ms2 w2,
             yields (write_blocks post doc blocks) w c2 ex2 ms2 w2
             /\ (total_count c2 = 0 -> ex2 = [])).
  { unfold write_blocks. destruct (pending_blocks c1) as [|b0 p] eqn:Ep.
    - exists c1, ex1, ms1, w1. split.
      + eapply yields_cast;
          [ystep Y1; rewrite Ep; apply yields_ret | list_eq | list_eq].
      + intros H0. destruct ex1; [reflexivity|].
        specialize (S1 ltac:(discriminate)). lia.
    - destruct (write_children_batch_yields post doc doc (pending_blocks c1) w1)
        as (n & ex2 & ms2 & w2 & Y2 & _).
      do 4 eexists. split.
      + ystep Y1. rewrite Ep. cbn [is_nil]. rewrite <- Ep. ystep Y2. apply yields_ret.
      + cbn [total_count]. rewrite Ep. cbn [List.length]. lia. }
  destruct Yw as (c2 & ex2 & ms2 & w2 & Y2 & H2).
  destruct (yields_deterministic _ _ _ _ _ _ _ _ _ _ Y Y2) as (-> & -> & _ & _).
  exact (H2 Ht).
Qed.

End CountFacts.

(** ** The document writer as a whole *)

Lemma scan_blank_lines fuel :
  forall lines, forallb is_blank lines = true -> scan fuel lines = Returned [].
Proof.
  induction fuel as [|fuel IH]; intros lines H; [reflexivity|].
  destruct lines as [|raw rest]; [reflexivity|].
  cbn [forallb] in H. apply andb_true_iff in H. destruct H as [Hraw Hrest].
  cbn [scan]. unfold scan_step. unfold is_blank in Hraw. rewrite Hraw.
  now rewrite (IH _ Hrest).
Qed.

Section DocumentFacts.
Context {Store : Type}.
Variable post : Store -> request -> Store * response.

Lemma banner_yields doc (w : @world Store) :
  yields (print (WritingContent doc)) w tt [] [WritingContent doc]
         (after_banner doc w).
Proof. unfold yields, print, after_banner. cbn. now rewrite app_nil_r. Qed.

Lemma write_nothing doc content w :
  _markdown_to_blocks content = Returned [] ->
  exists w',
    yields (write_document_content post doc content) w false
           [] [WritingContent doc; ConversionFailed] w'.
Proof.
  intros Hb. unfold write_document_content. rewrite Hb.
  destruct (yields_print ConversionFailed (after_banner doc w)) as (w' & Y).
  exists w'.
  eapply yields_cast;
    [ ystep (banner_yields doc w); ystep (yields_ret (@nil block) (after_banner doc w));
      cbn [is_nil]; ystep Y; apply yields_ret
    | list_eq | list_eq ].
Qed.

Lemma write_summary doc content blocks w c ex msgs w1 :
  _markdown_to_blocks content = Returned blocks ->
  blocks <> [] ->
  yields (write_blocks post doc blocks) (after_banner doc w) c ex msgs w1 ->
  exists w',
    yields (write_document_content post doc content) w
           (negb (total_count c =? 0)
            && rate_above_half (success_count c) (total_count c))
           ex
           (WritingContent doc
            :: msgs
            ++ [if total_count c =? 0 then NothingToWrite
                else if rate_above_half (success_count c) (total_count c)
                     then WriteDone (success_count c) (total_count c)
                     else WritePartlyFailed (success_count c) (total_count c)])
           w'.
Proof.
  intros Hb Hne Y. unfold write_document_content. rewrite Hb.
  assert (Hnil : is_nil blocks = false)
    by (destruct blocks; [congruence | reflexivity]).
  pose proof (yields_ret blocks (after_banner doc w)) as Yb.
  destruct (total_count c =? 0) eqn:Et.
  - destruct (yields_print NothingToWrite w1) as (w' & Yp). exists w'.
    eapply yields_cast;
      [ ystep (banner_yields doc w); ystep Yb; rewrite Hnil; ystep Y;
        rewrite Et; ystep Yp; apply yields_ret
      | list_eq | list_eq ].
  - destruct (rate_above_half (success_count c) (total_count c)) eqn:Er.
    + destruct (yields_print (WriteDone (success_count c) (total_count c)) w1)
        as (w' & Yp). exists w'.
      eapply yields_cast;
        [ ystep (banner_yields doc w); ystep Yb; rewrite Hnil; ystep Y;
          rewrite Et, Er; ystep Yp; apply yields_ret
        | list_eq | list_eq ].
    + destruct (yields_print (WritePartlyFailed (success_count c) (total_count c)) w1)
        as (w' & Yp). exists w'.
      eapply yields_cast;
        [ ystep (banner_yields doc w); ystep Yb; rewrite Hnil; ystep Y;
          rewrite Et, Er; ystep Yp; apply yields_ret
        | list_eq | list_eq ].
Qed.

(** An exception of the conversion leaves the writer right after the
    banner: nothing is posted and nothing else is printed. *)
Lemma write_raises doc content w e :
  _markdown_to_blocks content = Raised e ->
  write_document_content post doc content w = (Raised e, after_banner doc w).
Proof.
  intros Hb. unfold write_document_content. rewrite Hb. reflexivity.
Qed.

End DocumentFacts.

(** C2: whenever the conversion gave blocks, the writer returns; with
    [success_count] and [total_count] as the loop and the last flush leave
    them, and [total_count > 0], it returns [True] exactly when
    [success_count / total_count] is strictly above one half, that is when
    [total_count < 2 * success_count], and prints the summary with these
    counts; 5 of 10 gives [False], 6 of 10 gives [True].  When the
    conversion raises instead, no block is attempted and the exception
    leaves the writer. *)
Theorem C2_success_threshold
        {Store : Type} (post : Store -> request -> Store * response)
        (doc content : string) (w : world) :
  (forall blocks,
      _markdown_to_blocks content = Returned blocks ->
      blocks <> [] ->
      exists c ex msgs w1,
        yields (write_blocks post doc blocks) (after_banner doc w) c ex msgs w1
        /\ (0 < total_count c ->
            let s := success_count c in
            let t := total_count c in
            exists ok w',
              yields (write_document_content post doc content) w ok ex
                     (WritingContent doc
                      :: msgs ++ [if ok then WriteDone s t else WritePartlyFailed s t])
                     w'
              /\ (ok = true <-> ((1 # 2) < success_rate s t)%Q)
              /\ (ok = true <-> t < 2 * s)
              /\ (s = 5 -> t = 10 -> ok = false)
              /\ (s = 6 -> t = 10 -> ok = true)))
  /\ (forall e,
         _markdown_to_blocks content = Raised e ->
         write_document_content post doc content w
         = (Raised e, after_banner doc w)).
Proof.
  split; [|intros e He; exact (write_raises post doc content w e He)].
  intros blocks Hb Hne.
  destruct (write_blocks_returns post doc blocks (after_banner doc w))
    as (c & ex & msgs & w1 & Y).
  exists c, ex, msgs, w1. split; [exact Y|].
  intros Ht s t.
  destruct (write_summary post doc content blocks w c ex msgs w1 Hb Hne Y)
    as (w' & Yd).
  fold s t in Yd.
  replace (t =? 0) with false in Yd by (symmetry; apply Nat.eqb_neq; lia).
  cbn [negb andb] in Yd.
  destruct (rate_above_half_spec s t Ht) as [Hq Hn].
  exists (rate_above_half s t), w'.
  split; [exact Yd|]. split; [exact Hq|]. split; [exact Hn|]. split.
  - intros -> ->. reflexivity.
  - intros -> ->. reflexivity.
Qed.

Lemma C2_success_threshold_witness :
  (exists ex msgs w',
      yields (write_document_content (report_children 5) "doc" (divider_lines 10))
             (start tt) false ex
             (WritingContent "doc" :: msgs ++ [WritePartlyFailed 5 10]) w')
  /\ (exists ex msgs w',
         yields (write_document_content (report_children 6) "doc" (divider_lines 10))
                (start tt) true ex
                (WritingContent "doc" :: msgs ++ [WriteDone 6 10]) w').
Proof.
  split.
  - destruct (C2_success_threshold (report_children 5) "doc" (divider_lines 10)
                                   (start tt)) as [H0 _].
    destruct (H0 (repeat Divider 10)) as (c & ex & msgs & w1 & Y & H).
    + reflexivity.
    + discriminate.
    + assert (Ec : success_count c = 5 /\ total_count c = 10).
      { destruct Y as (E & _). vm_compute in E. injection E as <- _. now split. }
      destruct Ec as [Es Et].
      destruct H as (ok & w' & Yd & _ & _ & H5 & _); [lia|].
      rewrite Es, Et in *. rewrite (H5 eq_refl eq_refl) in Yd.
      exists ex, msgs, w'. exact Yd.
  - destruct (C2_success_threshold (report_children 6) "doc" (divider_lines 10)
                                   (start tt)) as [H0 _].
    destruct (H0 (repeat Divider 10)) as (c & ex & msgs & w1 & Y & H).
    + reflexivity.
    + discriminate.
    + assert (Ec : success_count c = 6 /\ total_count c = 10).
      { destruct Y as (E & _). vm_compute in E. injection E as <- _. now split. }
      destruct Ec as [Es Et].
      destruct H as (ok & w' & Yd & _ & _ & _ & H6); [lia|].
      rewrite Es, Et in *. rewrite (H6 eq_refl eq_refl) in Yd.
      exists ex, msgs, w'. exact Yd.
Defined.

(** C10: when the conversion gives no block, as for the empty string and for
    any text whose lines are all blank, the writer returns [False] and has
    posted no request; the same holds if the loop ends with
    [total_count = 0]. *)
Theorem C10_no_blocks_no_request
        {Store : Type} (post : Store -> request -> Store * response)
        (doc content : string) (w : world) :
  (forallb is_blank (split nl content) = true ->
   _markdown_to_blocks content = Returned [])
  /\ (_markdown_to_blocks content = Returned [] ->
      exists w',
        yields (write_document_content post doc content) w false
               [] [WritingContent doc; ConversionFailed] w'
        /\ exchanges w' = exchanges w
        /\ store w' = store w)
  /\ (forall blocks c ex msgs w1,
         _markdown_to_blocks content = Returned blocks ->
         blocks <> [] ->
         yields (write_blocks post doc blocks)
                (after_banner doc w) c ex msgs w1 ->
         total_count c = 0 ->
         exists w',
           yields (write_document_content post doc content) w false
                  [] (WritingContent doc :: msgs ++ [NothingToWrite]) w')
  /\ _markdown_to_blocks "" = Returned [].
Proof.
  split; [|split; [|split]]; [| |intros blocks c ex msgs w1 Hb Hne Y Ht|].
  3: { pose proof (write_blocks_nothing_counted post doc _ _ _ _ _ _ Y Ht) as ->.
       destruct (write_summary post doc content blocks w c [] msgs w1 Hb Hne Y)
         as (w' & Yd).
       rewrite Ht in Yd. cbn in Yd. exists w'. exact Yd. }
  - intros H. unfold _markdown_to_blocks. now apply scan_blank_lines.
  - intros Hb. destruct (write_nothing post doc content w Hb) as (w' & Y).
    exists w'. split; [exact Y|].
    destruct Y as (E & Hex & _). split; [now rewrite Hex, app_nil_r|].
    unfold write_document_content in E. rewrite Hb in E.
    cbn in E. injection E as <-. reflexivity.
  - reflexivity.
Qed.

Lemma C10_no_blocks_no_request_witness :
  exists w',
    yields (write_document_content accept_all "doc"
                                   (join (String nl "") [""; "   "; ""]))
           (start tt) false [] [WritingContent "doc"; ConversionFailed] w'
    /\ exchanges w' = [].
Proof.
  destruct (C10_no_blocks_no_request accept_all "doc"
                                     (join (String nl "") [""; "   "; ""]) (start tt))
    as (H1 & H2 & _ & _).
  destruct (H2 (H1 eq_refl)) as (w' & Y & Hex & _).
  exists w'. split; [exact Y | exact Hex].
Defined.

(** * Further properties *)

(** ** Inline runs: [_parse_inline_formatting], [_make_text_elements] *)

Lemma delimited_shape d st s seg r :
  delimited d st s = Some (seg, r) ->
  seg_style seg = st /\ seg_text seg <> ""
  /\ forall_chars is_dot (seg_text seg) = true.
Proof.
  unfold delimited. intros H.
  apply lit_sound in H. destruct H as (r1 & -> & H).
  apply lazy_plus_sound in H. destruct H as (g & r2 & -> & Hg & Hall & H).
  apply lit_sound in H. destruct H as (r3 & -> & H).
  injection H as <- <-. cbn. auto.
Qed.

Lemma link_alternative_shape s seg r :
  link_alternative s = Some (seg, r) ->
  exists url,
    seg_style seg = link url
    /\ seg_text seg <> "" /\ url <> ""
    /\ forall_chars (fun c => negb (is_char "]" c)) (seg_text seg) = true
    /\ forall_chars (fun c => negb (is_char ")" c)) url = true.
Proof.
  unfold link_alternative. intros H.
  apply lit_sound in H. destruct H as (r1 & -> & H).
  apply greedy_sound in H. destruct H as (g12 & r2 & -> & L12 & A12 & H).
  apply lit_sound in H. destruct H as (r3 & -> & H).
  apply greedy_sound in H. destruct H as (g13 & r4 & -> & L13 & A13 & H).
  apply lit_sound in H. destruct H as (r5 & -> & H).
  injection H as <- <-. exists g13. cbn [seg_style seg_text].
  repeat split; auto.
  - intros E. subst g12. cbn in L12. lia.
  - intros E. subst g13. cbn in L13. lia.
Qed.

Lemma is_empty_false s : is_empty s = false <-> s <> "".
Proof. destruct s; cbn; split; congruence. Qed.

Lemma pattern_match_shape s seg r :
  pattern_match s = Some (seg, r) -> segment_shape seg = true.
Proof.
  unfold pattern_match, orelse, segment_shape.
  repeat match goal with
         | |- context [delimited ?d ?st s] =>
             let E := fresh "E" in
             destruct (delimited d st s) as [[seg' r']|] eqn:E;
             [ intros H; injection H as -> ->;
               apply delimited_shape in E; destruct E as (Est & Hne & Hall);
               rewrite Est, Hall; apply is_empty_false in Hne; now rewrite Hne
             | ]
         end.
  intros H. apply link_alternative_shape in H.
  destruct H as (url & Est & Hne & Hu & Ht & Hua).
  apply is_empty_false in Hne, Hu. now rewrite Est, Hne, Hu, Ht, Hua.
Qed.

Lemma pattern_search_shape s :
  forall pre seg r,
    pattern_search s = Some (pre, seg, r) -> segment_shape seg = true.
Proof.
  induction s as [|c s IH]; intros pre seg r H; cbn [pattern_search] in H.
  - destruct (pattern_match "") as [[seg' r']|] eqn:E; [|discriminate].
    injection H as _ <- _. exact (pattern_match_shape _ _ _ E).
  - destruct (pattern_match (String c s)) as [[seg' r']|] eqn:E.
    + injection H as _ <- _. exact (pattern_match_shape _ _ _ E).
    + destruct (pattern_search s) as [[[pre' seg'] r']|] eqn:S; [|discriminate].
      injection H as _ <- _. exact (IH _ _ _ eq_refl).
Qed.

Lemma plain_segment_shape t : Forall (fun seg => segment_shape seg = true) (plain_segment t).
Proof. destruct t; cbn; repeat constructor. Qed.

Lemma segments_from_shape fuel :
  forall s, Forall (fun seg => segment_shape seg = true) (segments_from fuel s).
Proof.
  induction fuel as [|fuel IH]; intros s; [constructor|].
  cbn [segments_from].
  destruct (pattern_search s) as [[[pre seg] r]|] eqn:S.
  - apply Forall_app. split; [apply plain_segment_shape|].
    constructor; [exact (pattern_search_shape _ _ _ _ S) | apply IH].
  - apply plain_segment_shape.
Qed.

(** X1: the runs [_make_text_elements] returns are never an empty list, and
    putting the markup back around each run and concatenating gives the
    text back. *)
Theorem make_text_elements_lossless (text : string) :
  _make_text_elements text <> []
  /\ concat_map with_markup (_make_text_elements text) = text.
Proof.
  unfold _make_text_elements.
  pose proof (segments_from_lossless (S (String.length text)) text
                                     (Nat.lt_succ_diag_r _)) as H.
  destruct (segments_from (S (String.length text)) text) as [|seg segs].
  - split; [discriminate|]. cbn in H. subst text. reflexivity.
  - split; [discriminate | exact H].
Qed.

(** X2: [_parse_inline_formatting] answers with the ["plain"] format for the
    empty text only; for any other text the format is ["rich"], with at
    least one segment and no segment of empty text, also when nothing in the
    text is markup. *)
Theorem parse_inline_plain_only_for_empty (text : string) :
  (_parse_inline_formatting text = FormatPlain text <-> text = "")
  /\ (text <> "" ->
      exists seg segs,
        _parse_inline_formatting text = FormatRich text (seg :: segs)
        /\ Forall (fun sg => seg_text sg <> "") (seg :: segs)).
Proof.
  unfold _parse_inline_formatting.
  pose proof (segments_from_lossless (S (String.length text)) text
                                     (Nat.lt_succ_diag_r _)) as H.
  pose proof (segments_from_shape (S (String.length text)) text) as Hs.
  destruct (segments_from (S (String.length text)) text) as [|seg segs] eqn:E.
  - cbn in H. subst text. split; [split; reflexivity | congruence].
  - split.
    + split; [discriminate|]. intros Ht. rewrite Ht in E. vm_compute in E. discriminate E.
    + intros _. exists seg, segs. split; [reflexivity|].
      eapply Forall_impl; [|exact Hs]. intros sg Hsg.
      unfold segment_shape in Hsg. apply andb_true_iff in Hsg.
      destruct Hsg as [Hne _]. apply negb_true_iff in Hne.
      now apply is_empty_false.
Qed.

Lemma parse_inline_plain_only_for_empty_witness :
  exists seg segs,
    _parse_inline_formatting "no markup" = FormatRich "no markup" (seg :: segs).
Proof.
  destruct (parse_inline_plain_only_for_empty "no markup") as [_ H].
  destruct H as (seg & segs & E & _); [discriminate|].
  exists seg, segs. exact E.
Defined.

(** X3: every run of [_make_text_elements], and every segment of
    [_parse_inline_formatting], has the shape of its style: bold, italic,
    code and strikethrough content is not empty and has no newline; the text
    of a link has no [']'] and its URL is not empty and has no [')']. *)
Theorem inline_segments_shape (text : string) :
  Forall (fun seg => text = "" \/ segment_shape seg = true)
         (_make_text_elements text)
  /\ Forall (fun seg => text = "" \/ segment_shape seg = true)
            (spans (_parse_inline_formatting text)).
Proof.
  pose proof (segments_from_shape (S (String.length text)) text) as Hs.
  pose proof (segments_from_lossless (S (String.length text)) text
                                     (Nat.lt_succ_diag_r _)) as H.
  unfold _make_text_elements, _parse_inline_formatting.
  destruct (segments_from (S (String.length text)) text) as [|seg segs].
  - cbn in H. subst text. split; repeat constructor; now left.
  - split; cbn [spans]; (eapply Forall_impl; [|exact Hs]); intros sg Hsg; now right.
Qed.


(** X4: a non-empty text with none of the characters [*], [`], [~], [[] is
    one plain run, for [_make_text_elements] and for
    [_parse_inline_formatting]. *)
Theorem text_without_markers_is_plain (text : string) :
  text <> "" ->
  forall_chars (fun c => negb (is_marker c)) text = true ->
  _make_text_elements text = [Segment text plain]
  /\ _parse_inline_formatting text = FormatRich text [Segment text plain].
Proof.
  intros Hne Hall. apply pattern_search_needs_marker in Hall.
  unfold _make_text_elements, _parse_inline_formatting.
  cbn [segments_from]. rewrite Hall.
  destruct text; [congruence|]. now split.
Qed.

Lemma text_without_markers_is_plain_witness :
  _make_text_elements "a | b (c) #1" = [Segment "a | b (c) #1" plain].
Proof.
  apply (text_without_markers_is_plain "a | b (c) #1"); [discriminate | reflexivity].
Defined.

(** ** The scanner's rules for headings, lists, fences and quotes *)

Section GreedyBounds.
Context {A : Type}.

Lemma greedy_sound_bounded (p : ascii -> bool) s :
  forall lo h (k : string -> string -> option A) a,
    greedy lo (Some h) p k s = Some a ->
    exists m r, s = m +++ r /\ lo <= String.length m <= h /\
                forall_chars p m = true /\ k m r = Some a.
Proof.
  induction s as [|c s IH]; intros lo h k a H; cbn in H.
  - destruct lo; [|discriminate].
    exists "", "". cbn. repeat split; auto; lia.
  - assert (Hstop : match lo with 0 => k "" (String c s) | S _ => None end = Some a ->
                    exists m r, String c s = m +++ r /\ lo <= String.length m <= h /\
                                forall_chars p m = true /\ k m r = Some a).
    { destruct lo; [|discriminate]. intros Hk.
      exists "", (String c s). cbn. repeat split; auto; lia. }
    destruct (p c) eqn:Hp; cbn in H; [|now apply Hstop].
    destruct h as [|h]; [now apply Hstop|].
    unfold orelse in H. cbn [pred] in H.
    destruct (greedy (pred lo) (Some h) p (fun m r => k (String c m) r) s)
      as [a'|] eqn:G; [|now apply Hstop].
    injection H as ->.
    destruct (IH _ _ _ _ G) as (m & r & -> & Hlo & Hall & Hk).
    exists (String c m), r. cbn. rewrite Hp, Hall. repeat split; auto; lia.
Qed.

End GreedyBounds.

(** The parts of a line the heading pattern matches. *)
Lemma match_heading_parts line hashes text :
  match_heading line = Some (hashes, text) ->
  exists ws tail,
    line = hashes +++ ws +++ text +++ tail
    /\ 1 <= String.length hashes <= 6
    /\ forall_chars (is_char "#") hashes = true
    /\ ws <> "" /\ forall_chars is_space ws = true
    /\ text <> "" /\ forall_chars is_dot text = true
    /\ at_end tail = true.
Proof.
  unfold match_heading. intros H.
  apply greedy_sound_bounded in H. destruct H as (g1 & r1 & -> & L1 & A1 & H).
  apply greedy_sound in H. destruct H as (ws & r2 & -> & L2 & A2 & H).
  apply greedy_sound in H. destruct H as (g2 & r3 & -> & L3 & A3 & H).
  unfold eol in H. destruct (at_end r3) eqn:AE; [|discriminate].
  injection H as <- <-. exists ws, r3. repeat split; auto; try lia.
  - intros E. subst ws. cbn in L2. lia.
  - intros E. subst g2. cbn in L3. lia.
Qed.

Lemma match_bullet_parts line text :
  match_bullet line = Some text ->
  exists c ws tail,
    line = String c (ws +++ text +++ tail)
    /\ one_of "-*+" c = true
    /\ ws <> "" /\ forall_chars is_space ws = true
    /\ text <> "" /\ forall_chars is_dot text = true
    /\ at_end tail = true.
Proof.
  unfold match_bullet. intros H.
  apply greedy_sound_bounded in H. destruct H as (g1 & r1 & -> & L1 & A1 & H).
  apply greedy_sound in H. destruct H as (ws & r2 & -> & L2 & A2 & H).
  apply greedy_sound in H. destruct H as (g2 & r3 & -> & L3 & A3 & H).
  unfold eol in H. destruct (at_end r3) eqn:AE; [|discriminate].
  injection H as <-.
  destruct g1 as [|c [|c' g1]]; cbn in L1; try lia.
  cbn in A1. rewrite andb_true_r in A1.
  exists c, ws, r3. repeat split; auto.
  - intros E. subst ws. cbn in L2. lia.
  - intros E. subst g2. cbn in L3. lia.
Qed.

Lemma match_ordered_parts line digits text :
  match_ordered line = Some (digits, text) ->
  digits <> "" /\ forall_chars is_digit digits = true
  /\ text <> "" /\ forall_chars is_dot text = true
  /\ exists ws tail, line = digits +++ "." +++ ws +++ text +++ tail
                     /\ ws <> "" /\ forall_chars is_space ws = true.
Proof.
  unfold match_ordered. intros H.
  apply greedy_sound in H. destruct H as (g1 & r1 & -> & L1 & A1 & H).
  apply lit_sound in H. destruct H as (r1' & -> & H).
  apply greedy_sound in H. destruct H as (ws & r2 & -> & L2 & A2 & H).
  apply greedy_sound in H. destruct H as (g2 & r3 & -> & L3 & A3 & H).
  unfold eol in H. destruct (at_end r3); [|discriminate].
  injection H as <- <-.
  repeat split; auto.
  - intros E. subst g1. cbn in L1. lia.
  - intros E. subst g2. cbn in L3. lia.
  - exists ws, r3. repeat split; auto. intros E. subst ws. cbn in L2. lia.
Qed.

Lemma collect_Forall {A : Type} (f : string -> option A) (P : A -> Prop) lines :
  (forall l a, f l = Some a -> P a) -> Forall P (fst (collect f lines)).
Proof.
  intros Hf. induction lines as [|l lines IH]; [constructor|].
  cbn. destruct (f l) as [a|] eqn:E; [|constructor].
  destruct (collect f lines) as [items rest']. cbn in *.
  constructor; [exact (Hf _ _ E) | exact IH].
Qed.

Lemma nonempty_strings_cons t items :
  t <> "" -> Forall (fun s => s <> "") items -> nonempty_strings (t :: items) = true.
Proof.
  intros Ht Hi. unfold nonempty_strings. cbn [is_nil negb andb].
  apply forallb_forall. intros s [<-|Hs].
  - apply negb_true_iff. now apply is_empty_false.
  - rewrite Forall_forall in Hi. apply negb_true_iff, is_empty_false. now apply Hi.
Qed.

Lemma cells_of_nonempty line : Forall (fun s => s <> "") (cells_of line).
Proof.
  unfold cells_of. apply Forall_forall. intros s Hs.
  apply filter_In in Hs. destruct Hs as [_ Hs].
  apply negb_true_iff in Hs. now apply is_empty_false.
Qed.

Lemma nonempty_strings_cells line :
  cells_of line <> [] -> nonempty_strings (cells_of line) = true.
Proof.
  intros Hne. pose proof (cells_of_nonempty line) as H.
  destruct (cells_of line) as [|t items]; [congruence|].
  inversion H; subst. now apply nonempty_strings_cons.
Qed.

Lemma rows_of_shape lines : forallb nonempty_strings (rows_of lines) = true.
Proof.
  unfold rows_of. apply forallb_forall. intros row Hrow.
  apply filter_In in Hrow. destruct Hrow as [Hin Hne].
  apply in_map_iff in Hin. destruct Hin as (l & <- & _).
  apply nonempty_strings_cells. apply negb_true_iff in Hne.
  now apply is_nil_false.
Qed.

Lemma heading_shape line hashes text :
  match_heading line = Some (hashes, text) ->
  block_shape (Heading (String.length hashes) text) = true.
Proof.
  intros T. apply match_heading_parts in T.
  destruct T as (ws & tail & _ & Hl & _ & _ & _ & Ht & _).
  cbn [block_shape]. apply is_empty_false in Ht. rewrite Ht.
  replace (1 <=? String.length hashes) with true by (symmetry; apply Nat.leb_le; lia).
  replace (String.length hashes <=? 6) with true by (symmetry; apply Nat.leb_le; lia).
  reflexivity.
Qed.

Lemma bullet_items_shape line text rest :
  match_bullet line = Some text ->
  nonempty_strings (text :: fst (collect match_bullet rest)) = true.
Proof.
  intros T. apply match_bullet_parts in T.
  destruct T as (c & ws & tail & _ & _ & _ & _ & Ht & _).
  apply nonempty_strings_cons; [assumption|].
  apply collect_Forall. intros l' a' Hm. apply match_bullet_parts in Hm.
  now destruct Hm as (? & ? & ? & _ & _ & _ & _ & Ha & _).
Qed.

Lemma ordered_items_shape line digits text rest :
  match_ordered line = Some (digits, text) ->
  nonempty_strings (text :: fst (collect ordered_item rest)) = true.
Proof.
  intros T. apply match_ordered_parts in T. destruct T as (_ & _ & Ht & _).
  apply nonempty_strings_cons; [assumption|].
  apply collect_Forall. intros l' a' Hm. unfold ordered_item in Hm.
  destruct (match_ordered l') as [[d t]|] eqn:Em; [|discriminate].
  injection Hm as <-. apply match_ordered_parts in Em.
  now destruct Em as (_ & _ & Ha & _).
Qed.

Lemma table_rule_shape line rest out :
  table_rule line rest = Some out ->
  Forall (fun b => block_shape b = true) (fst out).
Proof.
  intros T. apply table_rule_spec in T.
  destruct T as (_ & _ & Hc & next & rest1 & _ & _ & Hr & ->).
  cbn [fst]. repeat constructor. cbn [block_shape].
  rewrite (nonempty_strings_cells _ Hc), rows_of_shape.
  apply is_nil_false in Hr. now rewrite Hr.
Qed.

Lemma scan_step_shape raw rest blocks rest' :
  scan_step raw rest = Returned (blocks, rest') ->
  Forall (fun b => block_shape b = true) blocks.
Proof.
  unfold scan_step, paragraph_rule. cbv zeta.
  step_cases; intros H; try discriminate H; inversion H; subst; clear H;
    try match goal with
        | T : table_rule _ _ = Some _ |- _ => exact (table_rule_shape _ _ _ T)
        end;
    repeat constructor.
  - match goal with
    | T : match_heading _ = Some _ |- _ => exact (heading_shape _ _ _ T)
    end.
  - match goal with
    | T : match_bullet _ = Some _, C : collect match_bullet ?r = _ |- _ =>
        pose proof (bullet_items_shape _ _ r T) as Hc; rewrite C in Hc; exact Hc
    end.
  - match goal with
    | T : match_ordered _ = Some _, C : collect ordered_item ?r = _ |- _ =>
        pose proof (ordered_items_shape _ _ _ r T) as Hc; rewrite C in Hc; exact Hc
    end.
Qed.

Lemma prepend_returned blocks o all :
  prepend blocks o = Returned all ->
  exists more, o = Returned more /\ all = blocks ++ more.
Proof.
  destruct o as [more|e]; cbn; intros H; [|discriminate].
  injection H as <-. now exists more.
Qed.

(** Every block of the scan comes out of one pass of the loop. *)
Lemma scan_blocks_from_steps fuel :
  forall lines all b,
    scan fuel lines = Returned all ->
    In b all ->
    exists raw rest blocks rest',
      scan_step raw rest = Returned (blocks, rest') /\ In b blocks.
Proof.
  induction fuel as [|fuel IH]; intros lines all b Hs H.
  { cbn in Hs. injection Hs as <-. contradiction. }
  destruct lines as [|raw rest].
  { cbn in Hs. injection Hs as <-. contradiction. }
  cbn [scan] in Hs.
  destruct (scan_step raw rest) as [[blocks rest']|e] eqn:E; [|discriminate].
  apply prepend_returned in Hs. destruct Hs as (more & Hmore & ->).
  apply in_app_or in H. destruct H as [H|H].
  - exists raw, rest, blocks, rest'. now split.
  - exact (IH _ _ _ Hmore H).
Qed.

(** ** Documents as lists of lines *)

Lemma split_one_line l : one_line l = true -> split nl l = [l].
Proof.
  induction l as [|c l IH]; [reflexivity|].
  unfold one_line. cbn [forall_chars split]. intros H.
  apply andb_true_iff in H. destruct H as [Hc Hl].
  unfold is_dot in Hc. apply negb_true_iff in Hc. rewrite Hc.
  unfold one_line in IH. now rewrite (IH Hl).
Qed.

Lemma split_line l s :
  one_line l = true -> split nl (l +++ String nl s) = l :: split nl s.
Proof.
  induction l as [|c l IH]; intros H.
  - cbn [append split]. now rewrite Ascii.eqb_refl.
  - unfold one_line in *. cbn [forall_chars] in H.
    apply andb_true_iff in H. destruct H as [Hc Hl].
    unfold is_dot in Hc. apply negb_true_iff in Hc.
    cbn [append split]. rewrite Hc. now rewrite (IH Hl).
Qed.

(** Joining lines with newlines and splitting again gives the lines back. *)
Lemma split_join l lines :
  forallb one_line (l :: lines) = true ->
  split nl (join (String nl "") (l :: lines)) = l :: lines.
Proof.
  revert l. induction lines as [|l' lines IH]; intros l H.
  - cbn in H. rewrite andb_true_r in H. now apply split_one_line.
  - cbn [forallb] in H. apply andb_true_iff in H. destruct H as [Hl H].
    unfold join in *.
    change (String.concat (String nl "") (l :: l' :: lines))
      with (l +++ String nl (String.concat (String nl "") (l' :: lines))).
    rewrite (split_line _ _ Hl). now rewrite (IH _ H).
Qed.

Lemma markdown_of_lines lines :
  forallb one_line lines = true ->
  _markdown_to_blocks (join (String nl "") lines) = scan (List.length lines) lines.
Proof.
  intros H. unfold _markdown_to_blocks. cbv zeta.
  destruct lines as [|l lines]; [reflexivity|].
  now rewrite (split_join _ _ H).
Qed.

(** One pass of the loop, then the scan of what it leaves. *)
Lemma scan_unfold raw rest blocks rest' :
  scan_step raw rest = Returned (blocks, rest') ->
  scan (S (List.length rest)) (raw :: rest)
  = prepend blocks (scan (List.length rest') rest').
Proof.
  intros E. pose proof (scan_step_rest_length _ _ _ _ E) as L.
  cbn [scan]. rewrite E. f_equal. apply scan_fuel_enough; lia.
Qed.

Lemma markdown_step l rest blocks rest' :
  forallb one_line (l :: rest) = true ->
  forallb one_line rest' = true ->
  scan_step l rest = Returned (blocks, rest') ->
  _markdown_to_blocks (join (String nl "") (l :: rest))
  = prepend blocks (_markdown_to_blocks (join (String nl "") rest')).
Proof.
  intros H H' E.
  rewrite (markdown_of_lines _ H), (markdown_of_lines _ H').
  cbn [List.length]. now apply scan_unfold.
Qed.

(** An exception in one pass of the loop is the outcome of the scan. *)
Lemma markdown_step_raised l rest e :
  forallb one_line (l :: rest) = true ->
  scan_step l rest = Raised e ->
  _markdown_to_blocks (join (String nl "") (l :: rest)) = Raised e.
Proof.
  intros H E. rewrite (markdown_of_lines _ H).
  cbn [List.length scan]. now rewrite E.
Qed.

Lemma forallb_tail {A : Type} (f : A -> bool) x l :
  forallb f (x :: l) = true -> forallb f l = true.
Proof. cbn. intros H. apply andb_true_iff in H. tauto. Qed.

Lemma forallb_drop_while {A : Type} (f g : A -> bool) l :
  forallb f l = true -> forallb f (drop_while g l) = true.
Proof.
  induction l as [|x l IH]; [reflexivity|]. intros H. cbn [drop_while].
  destruct (g x); [apply IH; exact (forallb_tail _ _ _ H) | exact H].
Qed.

(** ** Lines that the rules take *)

Lemma rstrip_app x y :
  rstrip y <> "" -> rstrip (x +++ y) = x +++ rstrip y.
Proof.
  intros Hy. induction x as [|c x IH]; [reflexivity|].
  cbn [append rstrip]. rewrite IH.
  destruct (x +++ rstrip y) eqn:E.
  - destruct x; cbn in E; [congruence | discriminate].
  - cbn [is_empty]. now rewrite andb_false_r.
Qed.

Lemma lstrip_head text :
  text <> "" -> lstrip text = text -> head_fails is_space text = true.
Proof.
  destruct text as [|c t]; [congruence|]. intros _ H. cbn in *.
  destruct (is_space c) eqn:E; [|reflexivity].
  exfalso. assert (L : String.length (lstrip t) <= String.length t).
  { clear. induction t as [|c t IH]; cbn; [lia|].
    destruct (is_space c); cbn; lia. }
  rewrite H in L. cbn in L. lia.
Qed.

Lemma space_head_fails (p : ascii -> bool) ws :
  (forall c, is_space c = true -> p c = false) ->
  ws <> "" -> forall_chars is_space ws = true -> forall r, head_fails p (ws +++ r) = true.
Proof.
  intros Hp Hne Hall r. destruct ws as [|c ws]; [congruence|].
  cbn in *. apply andb_true_iff in Hall. destruct Hall as [Hc _].
  now rewrite (Hp _ Hc).
Qed.

Lemma space_not_hash c : is_space c = true -> is_char "#" c = false.
Proof.
  intros H. unfold is_char. destruct (Ascii.eqb c "#") eqn:E; [|reflexivity].
  apply Ascii.eqb_eq in E. subst c. discriminate H.
Qed.

Lemma space_not_bullet c : is_space c = true -> one_of "-*+" c = false.
Proof.
  intros H. cbn [one_of].
  destruct (Ascii.eqb c "-") eqn:E1; [apply Ascii.eqb_eq in E1; subst c; discriminate H|].
  destruct (Ascii.eqb c "*") eqn:E2; [apply Ascii.eqb_eq in E2; subst c; discriminate H|].
  destruct (Ascii.eqb c "+") eqn:E3; [apply Ascii.eqb_eq in E3; subst c; discriminate H|].
  reflexivity.
Qed.

(** A heading line as the pattern reads it. *)
Lemma match_heading_line hashes ws text :
  1 <= String.length hashes <= 6 ->
  forall_chars (is_char "#") hashes = true ->
  ws <> "" -> forall_chars is_space ws = true ->
  text <> "" -> one_line text = true -> lstrip text = text ->
  match_heading (hashes +++ ws +++ text) = Some (hashes, text).
Proof.
  intros Hl Hh Hws Aws Ht At Lt. unfold match_heading.
  apply greedy_run; auto; try lia.
  { now apply space_head_fails; [apply space_not_hash| |]. }
  apply greedy_run; auto.
  - now apply lstrip_head.
  - destruct ws; [congruence | cbn; lia].
  - apply greedy_whole; auto.
    destruct text; [congruence | cbn; lia].
Qed.

Lemma wire_block_shape_type w :
  wire_block_shape w = true -> In (block_type_of w) documented_block_types.
Proof.
  destruct w as [n key els| |r c]; cbn; [|tauto|discriminate].
  intros H. apply andb_true_iff in H. destruct H as [_ H].
  destruct key as [level| | | | |];
    try (apply Nat.eqb_eq in H; subst n; tauto).
  destruct level as [|[|[|[|[|[|[|level]]]]]]]; cbn in H; try discriminate H;
    apply Nat.eqb_eq in H; subst n; cbn; tauto.
Qed.

Lemma text_block_shape content : wire_block_shape (text_block content) = true.
Proof.
  unfold text_block. cbn.
  destruct (_make_text_elements content) eqn:E; [|reflexivity].
  now destruct (make_text_elements_nonempty content).
Qed.

Lemma translated_block_shape b :
  block_shape b = true ->
  _blocks_to_feishu_json b <> []
  /\ Forall (fun w => wire_block_shape w = true) (_blocks_to_feishu_json b).
Proof.
  assert (E : forall text, negb (is_nil (_make_text_elements text)) = true).
  { intros text. destruct (_make_text_elements text) eqn:E; [|reflexivity].
    now destruct (make_text_elements_nonempty text). }
  destruct b as [level text| |items|items|language code_text|text|headers rows|text];
    cbn [block_shape _blocks_to_feishu_json]; intros H.
  - split; [discriminate|]. repeat constructor. cbn [wire_block_shape].
    rewrite E. apply andb_true_iff in H. destruct H as [H _]. now rewrite H, Nat.eqb_refl.
  - split; [discriminate|]. now repeat constructor.
  - unfold nonempty_strings in H. apply andb_true_iff in H. destruct H as [H _].
    destruct items as [|item items]; [discriminate|].
    split; [discriminate|]. apply Forall_forall. intros w Hw.
    apply in_map_iff in Hw. destruct Hw as (it & <- & _). cbn. now rewrite E.
  - unfold nonempty_strings in H. apply andb_true_iff in H. destruct H as [H _].
    destruct items as [|item items]; [discriminate|].
    split; [discriminate|]. apply Forall_forall. intros w Hw.
    apply in_map_iff in Hw. destruct Hw as (it & <- & _). cbn. now rewrite E.
  - split; [discriminate|]. repeat constructor. cbn. now rewrite E.
  - split; [discriminate|]. repeat constructor. cbn. now rewrite E.
  - split; [discriminate|]. constructor; [apply text_block_shape|].
    apply Forall_forall. intros w Hw.
    apply in_map_iff in Hw. destruct Hw as (row & <- & _). apply text_block_shape.
  - split; [discriminate|]. repeat constructor. apply text_block_shape.
Qed.

Lemma scanned_block_shape md blocks b :
  _markdown_to_blocks md = Returned blocks -> In b blocks -> block_shape b = true.
Proof.
  intros Hs H. unfold _markdown_to_blocks in Hs. cbv zeta in Hs.
  destruct (scan_blocks_from_steps _ _ _ _ Hs H) as (raw & rest & bs & rest' & E & Hb).
  pose proof (scan_step_shape _ _ _ _ E) as F.
  rewrite Forall_forall in F. exact (F _ Hb).
Qed.

(** X5: every block the scanner returns is well formed: a heading has a
    level from 1 to 6 and a non-empty text, a list has at least one item and
    no empty item, a table has at least one header cell and one data row and
    neither an empty row nor an empty cell. *)
Theorem scanned_blocks_well_formed (md : string) (blocks : list block) (b : block) :
  _markdown_to_blocks md = Returned blocks ->
  In b blocks -> block_shape b = true.
Proof.
  intros Hs H. unfold _markdown_to_blocks in Hs. cbv zeta in Hs.
  destruct (scan_blocks_from_steps _ _ _ _ Hs H) as (raw & rest & bs & rest' & E & Hb).
  pose proof (scan_step_shape _ _ _ _ E) as F.
  rewrite Forall_forall in F. exact (F _ Hb).
Qed.

Lemma scanned_blocks_well_formed_witness :
  block_shape (Table ["a"; "b"] [["1"; "2"]]) = true.
Proof.
  apply (scanned_blocks_well_formed
           "# T
a | b
--|--
1 | 2" [Heading 1 "T"; Table ["a"; "b"] [["1"; "2"]]]
           (Table ["a"; "b"] [["1"; "2"]])).
  - reflexivity.
  - right. left. reflexivity.
Defined.

Lemma divider_block_from_divider b :
  In DividerBlock (_blocks_to_feishu_json b) -> b = Divider.
Proof.
  destruct b as [level text| |items|items|language code_text|text|headers rows|text];
    cbn [_blocks_to_feishu_json]; cbv zeta; unfold text_block; intros H;
    try reflexivity; exfalso;
    repeat match goal with
           | X : In _ (_ :: _) |- _ => destruct X as [X|X]; [discriminate X|]
           | X : In _ [] |- _ => contradiction
           | X : In _ (map _ _) |- _ =>
               apply in_map_iff in X; destruct X as (? & X & _); discriminate X
           end.
Qed.

(** X6: every scanned block is translated to at least one wire block, and
    each wire block has one of the documented block types (never the table
    type 31).  The wire block of a divider is the divider block, which holds
    no text run; every wire block of another block holds at least one text
    run under the key of its type, and for a heading the type is
    [2 + level] under the key of the same level. *)
Theorem scanned_blocks_translate (md : string) (blocks : list block) (b : block) :
  _markdown_to_blocks md = Returned blocks ->
  In b blocks ->
  _blocks_to_feishu_json b <> []
  /\ forall w, In w (_blocks_to_feishu_json b) ->
               wire_block_shape w = true
               /\ In (block_type_of w) documented_block_types
               /\ (b = Divider /\ w = DividerBlock
                   \/ b <> Divider
                      /\ exists n key els, w = TextBlock n key els /\ els <> []).
Proof.
  intros Hs H. pose proof (scanned_block_shape _ _ _ Hs H) as Hshape.
  destruct (translated_block_shape b Hshape) as [Hne F].
  split; [exact Hne|]. intros w Hw. rewrite Forall_forall in F.
  pose proof (F _ Hw) as Hw'.
  split; [exact Hw'|]. split; [exact (wire_block_shape_type _ Hw')|].
  destruct w as [n key els| |r c]; [| |discriminate Hw'].
  - right. split.
    + intros ->. cbn in Hw. destruct Hw as [Hw|[]]; discriminate Hw.
    + exists n, key, els. split; [reflexivity|].
      cbn [wire_block_shape] in Hw'. now destruct els.
  - left. split; [|reflexivity]. now apply divider_block_from_divider.
Qed.

Lemma scanned_blocks_translate_witness :
  _blocks_to_feishu_json (BulletList ["one"; "two"]) <> []
  /\ forall w, In w (_blocks_to_feishu_json (BulletList ["one"; "two"])) ->
               wire_block_shape w = true
               /\ In (block_type_of w) documented_block_types
               /\ (BulletList ["one"; "two"] = Divider /\ w = DividerBlock
                   \/ BulletList ["one"; "two"] <> Divider
                      /\ exists n key els, w = TextBlock n key els /\ els <> []).
Proof.
  apply (scanned_blocks_translate "- one
- two" [BulletList ["one"; "two"]] (BulletList ["one"; "two"])).
  - reflexivity.
  - left. reflexivity.
Defined.


Lemma hash_is_dot c : is_char "#" c = true -> is_dot c = true.
Proof.
  unfold is_char. intros H. apply Ascii.eqb_eq in H. now subst c.
Qed.

Lemma scan_step_heading raw rest hashes text :
  match_heading (rstrip raw) = Some (hashes, text) ->
  scan_step raw rest = Returned ([Heading (String.length hashes) text], rest).
Proof.
  intros H. unfold scan_step. cbv zeta. rewrite H.
  destruct (rstrip raw) eqn:E; [discriminate H | reflexivity].
Qed.

(** X7: a line of one to six [#], then whitespace, then a text that neither
    starts nor ends with whitespace, is a heading of that many levels with
    that text, whatever follows it; the lines after it are scanned as a
    document of their own, and an exception raised there is the outcome of
    the whole scan. *)
Theorem heading_line_is_heading (hashes ws text : string) (rest : list string) :
  1 <= String.length hashes <= 6 ->
  forall_chars (is_char "#") hashes = true ->
  ws <> "" -> forall_chars is_space ws = true -> one_line ws = true ->
  text <> "" -> one_line text = true ->
  lstrip text = text -> rstrip text = text ->
  forallb one_line rest = true ->
  _markdown_to_blocks (join (String nl "") ((hashes +++ ws +++ text) :: rest))
  = prepend [Heading (String.length hashes) text]
            (_markdown_to_blocks (join (String nl "") rest)).
Proof.
  intros Hl Hh Hws Aws Lws Ht At Lt Rt Hrest.
  apply markdown_step; [|exact Hrest|].
  - cbn [forallb]. rewrite Hrest, andb_true_r.
    unfold one_line in *. rewrite !forall_chars_app, Lws, At, !andb_true_r.
    exact (forall_chars_impl _ _ _ hash_is_dot Hh).
  - apply scan_step_heading.
    replace (rstrip (hashes +++ ws +++ text)) with (hashes +++ ws +++ text).
    + now apply match_heading_line.
    + rewrite <- append_assoc. rewrite rstrip_app; rewrite Rt; auto.
Qed.

Lemma heading_line_is_heading_witness :
  _markdown_to_blocks (join (String nl "") ["###   Plan B"; "text"])
  = prepend [Heading 3 "Plan B"]
            (_markdown_to_blocks (join (String nl "") ["text"])).
Proof.
  apply (heading_line_is_heading "###" "   " "Plan B" ["text"]);
    try reflexivity; try discriminate; cbn; lia.
Defined.

(** ** Where the blocks come from *)

Lemma collect_rest_incl {A : Type} (f : string -> option A) lines :
  incl (snd (collect f lines)) lines.
Proof.
  induction lines as [|l lines IH]; [apply incl_refl|].
  cbn. destruct (f l); [|apply incl_refl].
  destruct (collect f lines) as [items rest']. cbn in *.
  now apply incl_tl.
Qed.

Lemma fence_body_rest_incl lines code_lines after :
  fence_body lines = (code_lines, Some after) -> incl after lines.
Proof.
  revert code_lines after. induction lines as [|l lines IH]; intros cl after H.
  - discriminate H.
  - cbn in H. destruct (startswith l "```").
    + injection H as _ <-. apply incl_tl, incl_refl.
    + destruct (fence_body lines) as [cl' after'] eqn:E.
      injection H as _ ->. apply incl_tl. exact (IH _ _ eq_refl).
Qed.

Lemma table_body_rest_incl lines : incl (snd (table_body lines)) lines.
Proof.
  induction lines as [|l lines IH]; [apply incl_refl|].
  cbn. destruct (contains "|" l && negb (contains "--" l)); [|apply incl_refl].
  destruct (table_body lines) as [rows rest']. cbn in *. now apply incl_tl.
Qed.

Lemma table_rule_rest_incl line rest out :
  table_rule line rest = Some out -> incl (snd out) rest.
Proof.
  unfold table_rule. intros H.
  destruct (contains "|" line && negb (startswith line "|--")); [|discriminate].
  cbv zeta in H. destruct (is_nil (cells_of line)); [discriminate|].
  destruct rest as [|next rest1]; [discriminate|].
  destruct (contains "|" next && contains "--" next); [|discriminate].
  pose proof (table_body_rest_incl rest1) as I.
  destruct (table_body rest1) as [rows rest']. cbn [snd] in I.
  destruct (is_nil rows); [discriminate|]. injection H as <-.
  cbn [snd]. now apply incl_tl.
Qed.

Lemma scan_step_rest_incl raw rest blocks rest' :
  scan_step raw rest = Returned (blocks, rest') -> incl rest' rest.
Proof.
  pose proof (collect_rest_incl match_bullet rest) as Cb.
  pose proof (collect_rest_incl ordered_item rest) as Co.
  pose proof (collect_rest_incl (strip_prefix "> ") rest) as Cq.
  pose proof (collect_rest_incl continuation rest) as Cc.
  unfold scan_step, paragraph_rule. cbv zeta.
  step_cases; intros H; try discriminate H; inversion H; subst; clear H;
    try apply incl_refl;
    try match goal with
        | T : table_rule _ _ = Some _ |- _ => exact (table_rule_rest_incl _ _ _ T)
        | T : fence_body _ = (_, Some _) |- _ => exact (fence_body_rest_incl _ _ _ T)
        end;
    repeat match goal with
           | T : collect _ _ = _ |- _ => rewrite T in *; clear T
           end;
    cbn [snd] in *; assumption.
Qed.

(** Every block of the scan comes out of one pass of the loop at one of
    the lines. *)
Lemma scan_blocks_from_lines fuel :
  forall lines all b,
    scan fuel lines = Returned all ->
    In b all ->
    exists raw rest blocks rest',
      In raw lines /\ scan_step raw rest = Returned (blocks, rest') /\ In b blocks.
Proof.
  induction fuel as [|fuel IH]; intros lines all b Hs H.
  { cbn in Hs. injection Hs as <-. contradiction. }
  destruct lines as [|raw rest].
  { cbn in Hs. injection Hs as <-. contradiction. }
  cbn [scan] in Hs.
  destruct (scan_step raw rest) as [[blocks rest']|e] eqn:E; [|discriminate].
  pose proof (scan_step_rest_incl _ _ _ _ E) as I.
  apply prepend_returned in Hs. destruct Hs as (more & Hmore & ->).
  apply in_app_or in H. destruct H as [H|H].
  - exists raw, rest, blocks, rest'. split; [now left|]. now split.
  - destruct (IH _ _ _ Hmore H) as (raw' & rest'' & bs & rest3 & Hin & Hst & Hb).
    exists raw', rest'', bs, rest3. split; [right; now apply I|]. now split.
Qed.

Lemma scan_step_heading_inv raw rest blocks rest' level text :
  scan_step raw rest = Returned (blocks, rest') ->
  In (Heading level text) blocks ->
  exists hashes,
    match_heading (rstrip raw) = Some (hashes, text) /\ level = String.length hashes.
Proof.
  unfold scan_step, paragraph_rule. cbv zeta.
  step_cases; intros H; try discriminate H; inversion H; subst; clear H;
    try match goal with
        | T : table_rule _ _ = Some _ |- _ =>
            apply table_rule_block in T; destruct T as (? & ? & ? & E);
            injection E as -> ->
        end;
    intros H; cbn [In] in H; try contradiction;
    destruct H as [H|[]]; try discriminate H.
  injection H as <- <-. eauto.
Qed.

Lemma all_hashes s :
  forall_chars (is_char "#") s = true -> s = repeat_char "#" (String.length s).
Proof.
  induction s as [|c s IH]; [reflexivity|]. cbn. intros H.
  apply andb_true_iff in H. destruct H as [Hc Hs].
  unfold is_char in Hc. apply Ascii.eqb_eq in Hc. subst c. now rewrite <- IH.
Qed.

(** X8: every heading of the result comes from a line of the document
    that, with its trailing whitespace removed, is [level] times [#] with
    [level] from 1 to 6, then whitespace, then the heading's text to the
    end of the line. *)
Theorem heading_from_line (md : string) (blocks : list block)
        (level : nat) (text : string) :
  _markdown_to_blocks md = Returned blocks ->
  In (Heading level text) blocks ->
  exists raw ws,
    In raw (split nl md)
    /\ rstrip raw = repeat_char "#" level +++ ws +++ text
    /\ 1 <= level <= 6
    /\ ws <> "" /\ forall_chars is_space ws = true
    /\ text <> "".
Proof.
  intros Hs H. unfold _markdown_to_blocks in Hs. cbv zeta in Hs.
  destruct (scan_blocks_from_lines _ _ _ _ Hs H)
    as (raw & rest & bs & rest' & Hin & Hst & Hb).
  destruct (scan_step_heading_inv _ _ _ _ _ _ Hst Hb) as (hashes & Hm & ->).
  apply match_heading_parts in Hm.
  destruct Hm as (ws & tail & E & Hl & Hh & Hws & Aws & Ht & At & Hend).
  assert (tail = "") as ->.
  { apply (rstrip_no_trailing_space raw (hashes +++ ws +++ text) tail).
    - now rewrite E, !append_assoc.
    - now apply at_end_space. }
  exists raw, ws. rewrite append_nil_r in E.
  rewrite <- (all_hashes _ Hh). repeat split; auto; lia.
Qed.

Lemma heading_from_line_witness :
  exists raw ws,
    In raw (split nl "intro
## Two  ")
    /\ rstrip raw = repeat_char "#" 2 +++ ws +++ "Two"
    /\ 1 <= 2 <= 6
    /\ ws <> "" /\ forall_chars is_space ws = true
    /\ "Two" <> "".
Proof.
  apply (heading_from_line "intro
## Two  "
           [Paragraph (TextFormatted (FormatRich "intro" [Segment "intro" plain]));
            Heading 2 "Two"]
           2 "Two").
  - reflexivity.
  - right. left. reflexivity.
Defined.

(** ** Code fences and quotes *)

(** A line that begins with a character none of the first four patterns
    can begin with goes on to the later rules. *)
Lemma other_line_rules c s :
  is_char "#" c = false -> one_of "-*_" c = false ->
  one_of "-*+" c = false -> is_digit c = false ->
  match_heading (String c s) = None
  /\ match_divider (String c s) = None
  /\ match_bullet (String c s) = None
  /\ match_ordered (String c s) = None.
Proof.
  intros H1 H2 H3 H4. repeat split; now apply greedy_head_mismatch.
Qed.

Lemma rstrip_cons c s :
  is_space c = false -> rstrip (String c s) = String c (rstrip s).
Proof. intros H. cbn [rstrip]. now rewrite H. Qed.

Lemma scan_step_later_rules c s raw rest :
  rstrip raw = String c s ->
  is_char "#" c = false -> one_of "-*_" c = false ->
  one_of "-*+" c = false -> is_digit c = false ->
  scan_step raw rest
  = Returned
      (if startswith (String c s) "```" then
         match fence_body rest with
         | (code_lines, Some after) =>
             ([Code (fence_language (String c s)) (join (String nl "") code_lines)],
              after)
         | (_, None) => ([Paragraph (TextStr (String c s))], rest)
         end
       else if startswith (String c s) "> " then
         let (more, rest') := collect (strip_prefix "> ") rest in
         ([Quote (join (String nl "") (drop 2 (String c s) :: more))], rest')
       else
         match table_rule (String c s) rest with
         | Some out => out
         | None => paragraph_rule (String c s) rest
         end).
Proof.
  intros E H1 H2 H3 H4.
  destruct (other_line_rules c s H1 H2 H3 H4) as (R1 & R2 & R3 & R4).
  unfold scan_step. cbv zeta. rewrite E, R1, R2, R3, R4. reflexivity.
Qed.

Lemma fence_line l :
  is_fence l = true -> exists s, rstrip l = String "`" (String "`" (String "`" s)).
Proof.
  unfold is_fence, startswith. intros H.
  destruct (strip_prefix "```" l) as [r|] eqn:E; [|discriminate].
  apply strip_prefix_sound in E. subst l. exists (rstrip r).
  cbn [append]. now rewrite !rstrip_cons.
Qed.

Lemma fence_body_closed code_lines closing after :
  forallb (fun l => negb (is_fence l)) code_lines = true ->
  is_fence closing = true ->
  fence_body (code_lines ++ closing :: after) = (code_lines, Some after).
Proof.
  intros Hc Hf. induction code_lines as [|l code_lines IH].
  - cbn [app fence_body]. unfold is_fence in Hf. now rewrite Hf.
  - cbn [forallb] in Hc. apply andb_true_iff in Hc. destruct Hc as [Hl Hc].
    apply negb_true_iff in Hl. unfold is_fence in Hl.
    cbn [app fence_body]. rewrite Hl, (IH Hc). reflexivity.
Qed.

Lemma fence_body_open rest :
  forallb (fun l => negb (is_fence l)) rest = true ->
  fence_body rest = (rest, None).
Proof.
  induction rest as [|l rest IH]; [reflexivity|]. intros H.
  cbn [forallb] in H. apply andb_true_iff in H. destruct H as [Hl Hc].
  apply negb_true_iff in Hl. unfold is_fence in Hl.
  cbn [fence_body]. now rewrite Hl, (IH Hc).
Qed.

Lemma forallb_app_r {A : Type} (f : A -> bool) l1 l2 :
  forallb f (l1 ++ l2) = true -> forallb f l2 = true.
Proof. rewrite forallb_app. intros H. apply andb_true_iff in H. tauto. Qed.

(** X9: a line that starts with three backticks opens a code block that
    runs to the next line starting with three backticks.  The lines between
    the two are the code, joined by newlines as they are; the language is
    what follows the opening backticks, stripped, or ["plaintext"] when that
    is empty; whatever follows the closing backticks on their line is
    dropped, and the lines after it are scanned as a document of their
    own. *)
Theorem fenced_code (opening : string) (code_lines : list string)
        (closing : string) (after : list string) :
  forallb one_line (opening :: code_lines ++ closing :: after) = true ->
  is_fence opening = true ->
  forallb (fun l => negb (is_fence l)) code_lines = true ->
  is_fence closing = true ->
  _markdown_to_blocks
    (join (String nl "") (opening :: code_lines ++ closing :: after))
  = prepend [Code (fence_language (rstrip opening)) (join (String nl "") code_lines)]
            (_markdown_to_blocks (join (String nl "") after)).
Proof.
  intros Hall Ho Hc Hf.
  apply markdown_step; [exact Hall| |].
  - apply forallb_tail in Hall. apply forallb_app_r in Hall.
    exact (forallb_tail _ _ _ Hall).
  - destruct (fence_line _ Ho) as (s & E).
    rewrite (scan_step_later_rules _ _ _ _ E) by reflexivity.
    rewrite E. change (startswith (String "`" (String "`" (String "`" s))) "```") with true.
    cbv iota. now rewrite (fence_body_closed _ _ _ Hc Hf).
Qed.

Lemma fenced_code_witness :
  _markdown_to_blocks
    (join (String nl "") ("``` python " :: ["x = 1"; ""; "  # y"] ++ "```end" :: ["- a"]))
  = prepend [Code (fence_language (rstrip "``` python "))
                  (join (String nl "") ["x = 1"; ""; "  # y"])]
            (_markdown_to_blocks (join (String nl "") ["- a"])).
Proof.
  apply (fenced_code "``` python " ["x = 1"; ""; "  # y"] "```end" ["- a"]);
    reflexivity.
Defined.

(** X10: when no later line starts with three backticks, the opening line
    alone becomes a paragraph whose text is the bare line with its trailing
    whitespace removed, and the lines after it are scanned as ordinary
    markdown. *)
Theorem unclosed_fence (opening : string) (rest : list string) :
  forallb one_line (opening :: rest) = true ->
  is_fence opening = true ->
  forallb (fun l => negb (is_fence l)) rest = true ->
  _markdown_to_blocks (join (String nl "") (opening :: rest))
  = prepend [Paragraph (TextStr (rstrip opening))]
            (_markdown_to_blocks (join (String nl "") rest)).
Proof.
  intros Hall Ho Hc.
  apply markdown_step; [exact Hall | exact (forallb_tail _ _ _ Hall) |].
  destruct (fence_line _ Ho) as (s & E).
  rewrite (scan_step_later_rules _ _ _ _ E) by reflexivity.
  rewrite E. change (startswith (String "`" (String "`" (String "`" s))) "```") with true.
  cbv iota. now rewrite (fence_body_open _ Hc).
Qed.

Lemma unclosed_fence_witness :
  _markdown_to_blocks (join (String nl "") ("```sh  " :: ["# Title"; "ls"]))
  = prepend [Paragraph (TextStr (rstrip "```sh  "))]
            (_markdown_to_blocks (join (String nl "") ["# Title"; "ls"])).
Proof.
  apply (unclosed_fence "```sh  " ["# Title"; "ls"]); reflexivity.
Defined.

Lemma collect_quote rest :
  collect (strip_prefix "> ") rest
  = (map (drop 2) (take_while is_quote_line rest), drop_while is_quote_line rest).
Proof.
  induction rest as [|l rest IH]; [reflexivity|].
  cbn [collect take_while drop_while]. unfold is_quote_line at 1 3, startswith.
  destruct (strip_prefix "> " l) as [r|] eqn:E; [|reflexivity].
  rewrite IH. apply strip_prefix_sound in E. subst l. reflexivity.
Qed.

Lemma quote_line l :
  is_quote_line (rstrip l) = true ->
  exists s, rstrip l = String ">" (String " " s).
Proof.
  unfold is_quote_line, startswith. intros H.
  destruct (strip_prefix "> " (rstrip l)) as [r|] eqn:E; [|discriminate].
  apply strip_prefix_sound in E. now exists r.
Qed.

(** X11: a line that, with its trailing whitespace removed, starts with
    ["> "] opens a quote that takes every following line starting with
    ["> "].  The quote's text is those lines without their first two
    characters, joined by newlines; the first line has lost its trailing
    whitespace, the following ones keep theirs. *)
Theorem quote_lines (l : string) (rest : list string) :
  forallb one_line (l :: rest) = true ->
  is_quote_line (rstrip l) = true ->
  _markdown_to_blocks (join (String nl "") (l :: rest))
  = prepend
      [Quote (join (String nl "")
                   (drop 2 (rstrip l) :: map (drop 2) (take_while is_quote_line rest)))]
      (_markdown_to_blocks (join (String nl "") (drop_while is_quote_line rest))).
Proof.
  intros Hall Hq.
  apply markdown_step; [exact Hall| |].
  - apply forallb_drop_while. exact (forallb_tail _ _ _ Hall).
  - destruct (quote_line _ Hq) as (s & E).
    rewrite (scan_step_later_rules _ _ _ _ E) by reflexivity.
    rewrite E.
    change (startswith (String ">" (String " " s)) "```") with false.
    change (startswith (String ">" (String " " s)) "> ") with true.
    cbv iota. now rewrite collect_quote.
Qed.

Lemma quote_lines_witness :
  _markdown_to_blocks (join (String nl "") ("> a  " :: ["> b  "; ">c"; "> d"]))
  = prepend
      [Quote (join (String nl "")
                   (drop 2 (rstrip "> a  ")
                      :: map (drop 2) (take_while is_quote_line ["> b  "; ">c"; "> d"])))]
      (_markdown_to_blocks
         (join (String nl "") (drop_while is_quote_line ["> b  "; ">c"; "> d"]))).
Proof.
  apply (quote_lines "> a  " ["> b  "; ">c"; "> d"]); reflexivity.
Defined.

Lemma bullet_char_not_hash c : one_of "-*+" c = true -> is_char "#" c = false.
Proof.
  cbn. unfold is_char. intros H.
  repeat (apply orb_true_iff in H; destruct H as [H|H];
          [apply Ascii.eqb_eq in H; subst c; reflexivity|]).
  discriminate.
Qed.

Lemma space_not_divider c : is_space c = true -> one_of "-*_" c = false.
Proof.
  intros H. cbn [one_of].
  destruct (Ascii.eqb c "-") eqn:E1; [apply Ascii.eqb_eq in E1; subst c; discriminate H|].
  destruct (Ascii.eqb c "*") eqn:E2; [apply Ascii.eqb_eq in E2; subst c; discriminate H|].
  destruct (Ascii.eqb c "_") eqn:E3; [apply Ascii.eqb_eq in E3; subst c; discriminate H|].
  reflexivity.
Qed.

(** A bullet line is neither a heading nor a divider. *)
Lemma bullet_line_rules raw text :
  match_bullet (rstrip raw) = Some text ->
  is_empty (rstrip raw) = false
  /\ match_heading (rstrip raw) = None
  /\ match_divider (rstrip raw) = None.
Proof.
  intros H. pose proof (match_bullet_parts _ _ H) as P.
  destruct P as (c & ws & tail & E & Hc & Hws & Aws & _).
  split; [now rewrite E|]. split.
  - rewrite E. apply greedy_head_mismatch. now apply bullet_char_not_hash.
  - destruct (match_divider (rstrip raw)) as [[]|] eqn:D; [|reflexivity].
    apply match_divider_rstrip in D. destruct D as [_ D].
    rewrite E in D. cbn [forall_chars] in D. rewrite forall_chars_app in D.
    destruct ws as [|w ws]; [congruence|].
    cbn [forall_chars] in D, Aws.
    apply andb_true_iff in Aws. destruct Aws as [Aw _].
    rewrite (space_not_divider _ Aw) in D. cbn in D.
    now rewrite andb_false_r in D.
Qed.

(** X12: a line that, with its trailing whitespace removed, is one of
    [-], [*], [+], then whitespace, then a text, opens a bullet list with
    that text as its first item; the list takes every following line of
    the same form, whose item is read from the line as it is, and the
    lines after the list are scanned as a document of their own.  Neither
    the heading nor the divider rule takes such a line. *)
Theorem bullet_list_lines (l : string) (rest : list string) (text : string) :
  forallb one_line (l :: rest) = true ->
  match_bullet (rstrip l) = Some text ->
  (exists c ws,
      rstrip l = String c (ws +++ text)
      /\ one_of "-*+" c = true /\ ws <> "" /\ forall_chars is_space ws = true
      /\ text <> "")
  /\ _markdown_to_blocks (join (String nl "") (l :: rest))
     = prepend
         [BulletList (text :: fst (collect match_bullet rest))]
         (_markdown_to_blocks (join (String nl "") (snd (collect match_bullet rest)))).
Proof.
  intros Hall Hb. split.
  { pose proof (match_bullet_parts _ _ Hb) as P.
    destruct P as (c & ws & tail & E & Hc & Hws & Aws & Ht & At & Hend).
    assert (tail = "") as ->.
    { apply (rstrip_no_trailing_space l (String c (ws +++ text)) tail).
      - rewrite E. cbn [append]. now rewrite append_assoc.
      - now apply at_end_space. }
    rewrite append_nil_r in E. exists c, ws. repeat split; auto. }
  apply markdown_step; [exact Hall| |].
  - destruct (collect_spec match_bullet rest) as [_ ->].
    apply forallb_drop_while. exact (forallb_tail _ _ _ Hall).
  - destruct (bullet_line_rules _ _ Hb) as (R0 & R1 & R2).
    unfold scan_step. cbv zeta. rewrite R0, R1, R2, Hb.
    now destruct (collect match_bullet rest).
Qed.

Lemma bullet_list_lines_witness :
  (exists c ws,
      rstrip "* one  " = String c (ws +++ "one")
      /\ one_of "-*+" c = true /\ ws <> "" /\ forall_chars is_space ws = true
      /\ "one" <> "")
  /\ _markdown_to_blocks
       (join (String nl "") ("* one  " :: ["+  two  "; "-three"; "- four"]))
     = prepend
         [BulletList ("one" :: fst (collect match_bullet ["+  two  "; "-three"; "- four"]))]
         (_markdown_to_blocks
            (join (String nl "")
                  (snd (collect match_bullet ["+  two  "; "-three"; "- four"])))).
Proof.
  apply (bullet_list_lines "* one  " ["+  two  "; "-three"; "- four"] "one");
    reflexivity.
Defined.

(** ** Runs of the writer: what is sent, counted and printed *)

Lemma sum_lengths {A : Type} (ls : list (list A)) :
  list_sum (map (@List.length A) ls) = List.length (List.concat ls).
Proof.
  induction ls as [|l ls IH]; [reflexivity|].
  cbn [map list_sum fold_right List.concat]. rewrite length_app.
  unfold list_sum in IH. now rewrite IH.
Qed.

Lemma list_sum_le {A : Type} (f g : A -> nat) l :
  Forall (fun x => f x <= g x) l -> list_sum (map f l) <= list_sum (map g l).
Proof.
  induction 1 as [|x l Hx _ IH]; [apply Nat.le_refl|].
  unfold list_sum in *. cbn [map fold_right]. lia.
Qed.

Lemma list_sum_same {A : Type} (f g : A -> nat) l :
  Forall (fun x => f x = g x) l -> list_sum (map f l) = list_sum (map g l).
Proof.
  induction 1 as [|x l Hx _ IH]; [reflexivity|].
  unfold list_sum in *. cbn [map fold_right]. lia.
Qed.

Lemma list_sum_zero {A : Type} (f : A -> nat) l :
  Forall (fun x => f x = 0) l -> list_sum (map f l) = 0.
Proof.
  induction 1 as [|x l Hx _ IH]; [reflexivity|].
  unfold list_sum in *. cbn [map fold_right]. lia.
Qed.

Section BatchRuns.
Context {Store : Type}.
Variable post : Store -> request -> Store * response.

(** The batch loop again, with where each answer comes from and what is
    printed. *)
Lemma batch_loop_facts doc parent (l : list feishu_block) idxs :
  forall w acc,
  exists n ex msgs w',
    yields
      (for_each idxs
         (fun i success =>
            bind (api_post post (Request doc parent (slice l i (i + batch_size))))
                 (fun result =>
                    match result with
                    | Some children_back =>
                        ret (success
                             + (if is_nil children_back
                                then List.length (slice l i (i + batch_size))
                                else List.length children_back))
                    | None =>
                        bind (print (BatchFailed
                                       (List.length (slice l i (i + batch_size)))))
                             (fun _ => ret success)
                    end))
         acc)
      w n ex msgs w'
    /\ map fst ex
       = map (fun i => Request doc parent (slice l i (i + batch_size))) idxs
    /\ n = acc + list_sum (map (fun e => credited (children (fst e)) (snd e)) ex)
    /\ Forall (fun e => exists s, snd e = snd (post s (fst e))) ex
    /\ forallb progress_message msgs = true.
Proof.
  induction idxs as [|i idxs IH]; intros w acc.
  - exists acc, [], [], w. cbn. split; [apply yields_ret|].
    split; [reflexivity|]. split; [lia|]. split; [constructor | reflexivity].
  - cbn [for_each map].
    destruct (yields_post post (Request doc parent (slice l i (i + batch_size))) w)
      as (w1 & Y1 & _).
    assert (P : exists s,
               snd (post (store w) (Request doc parent (slice l i (i + batch_size))))
               = snd (post s (Request doc parent (slice l i (i + batch_size)))))
      by now exists (store w).
    destruct (snd (post (store w) (Request doc parent (slice l i (i + batch_size)))))
      as [back|] eqn:R.
    + destruct (IH w1 (acc + (if is_nil back then List.length (slice l i (i + batch_size))
                              else List.length back)))
        as (n & ex & msgs & w' & Y & Hreq & Hn & Hp & Hm).
      exists n, ((Request doc parent (slice l i (i + batch_size)), Some back) :: ex),
        msgs, w'.
      split; [|split; [|split; [|split]]].
      * refine (yields_bind _ _ _ _ [_] [] _ _ _ _ _ _ Y).
        refine (yields_bind _ _ _ _ [_] [] _ _ [] [] _ Y1 _).
        apply yields_ret.
      * cbn [map fst]. now rewrite Hreq.
      * rewrite Hn. unfold list_sum. cbn [map fold_right fst snd children credited]. lia.
      * constructor; [exact P | exact Hp].
      * exact Hm.
    + destruct (yields_print (BatchFailed (List.length (slice l i (i + batch_size)))) w1)
        as (w2 & Y2).
      destruct (IH w2 acc) as (n & ex & msgs & w' & Y & Hreq & Hn & Hp & Hm).
      exists n, ((Request doc parent (slice l i (i + batch_size)), None) :: ex),
        (BatchFailed (List.length (slice l i (i + batch_size))) :: msgs), w'.
      split; [|split; [|split; [|split]]].
      * refine (yields_bind _ _ _ _ [_] [_] _ _ _ _ _ _ Y).
        refine (yields_bind _ _ _ _ [_] [] _ _ [] [_] _ Y1 _).
        refine (yields_bind _ _ _ _ [] [_] _ _ [] [] _ Y2 _).
        apply yields_ret.
      * cbn [map fst]. now rewrite Hreq.
      * rewrite Hn. unfold list_sum. cbn [map fold_right fst snd children credited]. lia.
      * constructor; [exact P | exact Hp].
      * cbn [forallb progress_message]. exact Hm.
Qed.

Lemma batch_requests_well_formed doc parent l (ex : list (request * response)) :
  map fst ex = map (Request doc parent) (batches l) ->
  Forall (fun e => well_formed_request doc (fst e)) ex.
Proof.
  intros H. rewrite <- Forall_map with (f := fst) (P := well_formed_request doc).
  rewrite H. apply Forall_map. pose proof (batches_sizes l) as S.
  eapply Forall_impl; [|exact S]. intros b Hb. now split.
Qed.

Lemma batch_requests_sent doc parent l (ex : list (request * response)) :
  map fst ex = map (Request doc parent) (batches l) ->
  blocks_sent ex = l
  /\ Forall (fun e => parent_block_id (fst e) = parent) ex
  /\ list_sum (map (fun e => List.length (children (fst e))) ex) = List.length l.
Proof.
  intros H. split; [|split].
  - rewrite blocks_sent_requests, H, map_map. cbn [children]. rewrite map_id.
    apply batches_concat.
  - rewrite <- Forall_map with (f := fst) (P := fun r => parent_block_id r = parent).
    rewrite H. apply Forall_map. now apply Forall_forall.
  - rewrite <- (map_map fst (fun r => List.length (children r))), H.
    rewrite map_map. cbn [children].
    rewrite <- (batches_concat l) at 2. apply sum_lengths.
Qed.

(** [_write_children_batch] under the three kinds of transport. *)
Lemma batch_facts doc parent l w :
  exists n ex msgs w',
    yields (_write_children_batch post doc parent l) w n ex msgs w'
    /\ map fst ex = map (Request doc parent) (batches l)
    /\ forallb progress_message msgs = true
    /\ (honest post -> n <= List.length l)
    /\ (rejects_all post -> n = 0)
    /\ (acknowledges post -> n = List.length l).
Proof.
  destruct (batch_loop_facts doc parent l
              (range_step (List.length l) batch_size) w 0)
    as (n & ex & msgs & w' & Y & Hreq & Hn & Hp & Hm).
  assert (Hreq' : map fst ex = map (Request doc parent) (batches l)).
  { rewrite Hreq. unfold batches. now rewrite map_map. }
  destruct (batch_requests_sent _ _ _ _ Hreq') as (_ & _ & Hlen).
  exists n, ex, msgs, w'. split; [exact Y|]. split; [exact Hreq'|].
  split; [exact Hm|]. cbn [Nat.add] in Hn. rewrite Hn, <- Hlen.
  split; [|split].
  - intros Hh. apply list_sum_le. eapply Forall_impl; [|exact Hp].
    intros [r res] (s & E). cbn [fst snd] in *.
    destruct res as [kids|]; cbn [credited]; [|lia].
    destruct kids as [|k kids]; cbn [is_nil]; [lia|].
    exact (Hh s r _ (eq_sym E)).
  - intros Hr. apply list_sum_zero. eapply Forall_impl; [|exact Hp].
    intros [r res] (s & E). cbn [fst snd] in *. rewrite E, (Hr s r). reflexivity.
  - intros Ha. apply list_sum_same. eapply Forall_impl; [|exact Hp].
    intros [r res] (s & E). cbn [fst snd] in *.
    destruct (Ha s r) as (kids & Ek & Hk). rewrite E, Ek. cbn [credited].
    destruct Hk as [->|Hk]; [reflexivity|].
    destruct kids; [reflexivity | exact Hk].
Qed.

End BatchRuns.

Section TableRuns.
Context {Store : Type}.
Variable post : Store -> request -> Store * response.

Lemma fill_requests_well_formed doc ids cells' (ex : list (request * response)) :
  map fst ex = map (fill_request doc ids) cells' ->
  Forall (fun e => well_formed_request doc (fst e)) ex.
Proof.
  intros H. rewrite <- Forall_map with (f := fst) (P := well_formed_request doc).
  rewrite H. apply Forall_map. apply Forall_forall. intros cell _.
  unfold well_formed_request, fill_request. cbn. split; [reflexivity | lia].
Qed.

(** The text fallback of the builder: the rows go through the batch
    writer. *)
Lemma table_as_text_facts doc parent headers rows w :
  exists ex msgs w',
    yields (_write_table_as_text post doc parent headers rows) w tt ex msgs w'
    /\ Forall (fun e => well_formed_request doc (fst e)) ex
    /\ forallb progress_message msgs = true.
Proof.
  unfold _write_table_as_text. cbv zeta.
  destruct (is_nil (table_text_blocks headers rows)).
  - exists [], [], w. split; [apply yields_ret|]. split; [constructor | reflexivity].
  - destruct (batch_facts post doc parent (table_text_blocks headers rows) w)
      as (n & ex & msgs & w' & Y & Hreq & Hm & _).
    exists ex, msgs, w'. split; [|split; [|exact Hm]].
    + eapply yields_cast; [ystep Y; apply yields_ret | list_eq | list_eq].
    + exact (batch_requests_well_formed _ _ _ _ Hreq).
Qed.

(** The builder on any table and any transport: its requests are well
    formed, it fails when the transport rejects everything, and it prints
    the "empty table" line for an empty table only. *)
Lemma table_facts doc parent headers rows w :
  exists ok ex msgs w',
    yields (_create_table_block post doc parent headers rows) w ok ex msgs w'
    /\ Forall (fun e => well_formed_request doc (fst e)) ex
    /\ (rejects_all post -> ok = false)
    /\ (col_count_of headers rows <> 0 -> row_count_of headers rows <> 0 ->
        forallb progress_message msgs = true).
Proof.
  destruct (Nat.eq_dec (col_count_of headers rows) 0) as [Hcc|Hcc].
  { destruct (create_table_empty post doc parent headers rows w (or_introl Hcc))
      as (w' & Y).
    exists false, [], [EmptyTableSkipped], w'. split; [exact Y|].
    split; [constructor|]. split; [reflexivity | congruence]. }
  destruct (Nat.eq_dec (row_count_of headers rows) 0) as [Hrc|Hrc].
  { destruct (create_table_empty post doc parent headers rows w (or_intror Hrc))
      as (w' & Y).
    exists false, [], [EmptyTableSkipped], w'. split; [exact Y|].
    split; [constructor|]. split; [reflexivity | congruence]. }
  pose proof (create_table_after_shell post doc parent headers rows w Hcc Hrc) as H.
  cbv zeta in H.
  set (cc := col_count_of headers rows) in *.
  set (rc := row_count_of headers rows) in *.
  set (shell := Request doc parent [TableShell rc cc]) in *.
  assert (Wshell : well_formed_request doc shell).
  { unfold well_formed_request, shell. cbn. split; [reflexivity | lia]. }
  destruct (snd (post (store w) shell)) as [[|table_info more]|] eqn:R.
  - destruct H as (w' & Y).
    exists false, [(shell, Some [])], [CreatingTable rc cc; ShellReturnedNothing], w'.
    split; [exact Y|]. split; [repeat constructor; exact Wshell|].
    split; [reflexivity | reflexivity].
  - destruct H as (ex & w' & Y & Hreq).
    do 4 eexists. split; [exact Y|]. split; [|split].
    + constructor; [exact Wshell | exact (fill_requests_well_formed _ _ _ _ Hreq)].
    + intros Hr. rewrite (Hr (store w) shell) in R. discriminate R.
    + intros _ _. cbn [forallb progress_message]. rewrite forallb_app.
      now destruct (List.length (cells table_info) <? rc * cc).
  - clear H. unfold _create_table_block. fold cc rc.
    replace ((cc =? 0) || (rc =? 0)) with false
      by (symmetry; apply orb_false_iff; split; now apply Nat.eqb_neq).
    destruct (yields_print_store (CreatingTable rc cc) w) as (w0 & Y0 & S0).
    destruct (yields_post post shell w0) as (w1 & Y1 & _).
    rewrite S0, R in Y1.
    destruct (yields_print ShellFailedFallback w1) as (w2 & Y2).
    destruct (table_as_text_facts doc parent headers rows w2)
      as (ex & msgs & w3 & Y3 & Hwf & Hm).
    exists false, ((shell, None) :: ex),
      (CreatingTable rc cc :: ShellFailedFallback :: msgs), w3.
    split; [|split; [|split]].
    + eapply yields_cast;
        [ ystep Y0; fold shell; ystep Y1; ystep Y2; ystep Y3; apply yields_ret
        | list_eq | list_eq ].
    + constructor; [exact Wshell | exact Hwf].
    + reflexivity.
    + intros _ _. exact Hm.
Qed.

End TableRuns.

Lemma table_shape_counts headers rows :
  block_shape (Table headers rows) = true ->
  col_count_of headers rows <> 0 /\ row_count_of headers rows <> 0.
Proof.
  cbn [block_shape]. unfold nonempty_strings, col_count_of, row_count_of.
  destruct headers as [|h headers]; [discriminate|]. cbn. intros _. split; lia.
Qed.

Lemma blocks_sent_app ex1 ex2 :
  blocks_sent (ex1 ++ ex2) = blocks_sent ex1 ++ blocks_sent ex2.
Proof. unfold blocks_sent. now rewrite map_app, concat_app. Qed.

Section LoopRuns.
Context {Store : Type}.
Variable post : Store -> request -> Store * response.
Variable doc : string.

Lemma run_facts_nil c : run_facts post doc [] c c [] [].
Proof.
  unfold run_facts, expected_total. cbn.
  repeat split; auto; try lia. now rewrite app_nil_r.
Qed.

Lemma run_facts_cons b bs c c1 c2 ex1 ms1 ex2 ms2 :
  run_facts post doc [b] c c1 ex1 ms1 ->
  run_facts post doc bs c1 c2 ex2 ms2 ->
  run_facts post doc (b :: bs) c c2 (ex1 ++ ex2) (ms1 ++ ms2).
Proof.
  intros (A1 & A2 & A3 & A4 & A5 & A6 & A7) (B1 & B2 & B3 & B4 & B5 & B6 & B7).
  unfold run_facts, expected_total, list_sum in *. cbn [map fold_right] in *.
  unfold no_table in *. cbn [forallb] in *.
  split; [lia|]. split; [now apply Forall_app|].
  split; [|split; [|split; [|split]]].
  - intros H. apply andb_true_iff in H. destruct H as [Hb Hbs].
    rewrite forallb_app, A3, B3; auto. now rewrite Hb.
  - intros H. apply andb_true_iff in H. destruct H as [Hb Hbs].
    rewrite Hb in A4. destruct (A4 eq_refl) as [A4s A4p].
    destruct (B4 Hbs) as [B4s B4p].
    split; [|now apply Forall_app].
    rewrite blocks_sent_app, <- app_assoc, B4s, app_assoc, A4s.
    cbn [flat_map]. now rewrite app_nil_r, app_assoc.
  - intros H. specialize (A5 H). specialize (B5 H). lia.
  - intros H. now rewrite (B6 H), (A6 H).
  - intros H Hn. apply andb_true_iff in Hn. destruct Hn as [Hb Hbs].
    rewrite Hb in A7. specialize (A7 H eq_refl). specialize (B7 H Hbs). lia.
Qed.

Lemma flush_facts c w :
  exists n ex msgs w',
    yields (flush post doc c) w
           (Counters [] (success_count c + n)
                     (total_count c + List.length (pending_blocks c)))
           ex msgs w'
    /\ map fst ex = map (Request doc doc) (batches (pending_blocks c))
    /\ forallb progress_message msgs = true
    /\ (honest post -> n <= List.length (pending_blocks c))
    /\ (rejects_all post -> n = 0)
    /\ (acknowledges post -> n = List.length (pending_blocks c)).
Proof.
  destruct (batch_facts post doc doc (pending_blocks c) w)
    as (n & ex & msgs & w' & Y & H).
  exists n, ex, msgs, w'. split; [|exact H].
  unfold flush.
  eapply yields_cast; [ystep Y; apply yields_ret | list_eq | list_eq].
Qed.

(** One pass of the block loop. *)
Lemma write_block_facts b c w :
  exists c1 ex ms w1,
    yields (write_block post doc b c) w c1 ex ms w1
    /\ run_facts post doc [b] c c1 ex ms.
Proof.
  destruct (is_table b) eqn:Hb.
  - destruct b as [| | | | | |headers rows|]; try discriminate. clear Hb.
    assert (U : expected_total [Table headers rows] = 1) by reflexivity.
    cbn [write_block].
    destruct (is_nil (pending_blocks c)) eqn:En.
    + assert (Ep : pending_blocks c = [])
        by (destruct (pending_blocks c); [reflexivity | discriminate]).
      destruct (table_facts post doc doc headers rows w)
        as (ok & ex2 & ms2 & w2 & Y2 & Hwf & Hrej & Hmsg).
      exists (Counters (pending_blocks c)
                       (if ok then success_count c + 1 else success_count c)
                       (total_count c + 1)), ex2, ms2, w2.
      split.
      * eapply yields_cast;
          [ ystep (yields_ret c w); ystep Y2; apply yields_ret | list_eq | list_eq ].
      * unfold run_facts. rewrite U. cbn [total_count pending_blocks success_count].
        rewrite Ep. cbn [List.length].
        split; [lia|]. split; [exact Hwf|].
        split; [|split; [|split; [|split]]].
        -- cbn [forallb]. rewrite andb_true_r. intros Hs.
           destruct (table_shape_counts _ _ Hs). auto.
        -- discriminate.
        -- intros _. destruct ok; lia.
        -- intros Hr. now rewrite (Hrej Hr).
        -- discriminate.
    + destruct (flush_facts c w)
        as (n & ex1 & ms1 & w1 & Y1 & Hreq & Hm1 & Hh & Hr & _).
      destruct (table_facts post doc doc headers rows w1)
        as (ok & ex2 & ms2 & w2 & Y2 & Hwf & Hrej & Hmsg).
      exists (Counters [] (if ok then success_count c + n + 1 else success_count c + n)
                       (total_count c + List.length (pending_blocks c) + 1)),
        (ex1 ++ ex2), (ms1 ++ ms2), w2.
      split.
      * eapply yields_cast_value;
          [ ystep Y1; ystep Y2; apply yields_ret
          | cbn [pending_blocks success_count total_count]; reflexivity
          | list_eq | list_eq ].
      * unfold run_facts. rewrite U. cbn [total_count pending_blocks success_count].
        cbn [List.length].
        split; [lia|].
        split; [apply Forall_app; split;
                [exact (batch_requests_well_formed _ _ _ _ Hreq) | exact Hwf]|].
        split; [|split; [|split; [|split]]].
        -- cbn [forallb]. rewrite andb_true_r. intros Hs.
           destruct (table_shape_counts _ _ Hs). rewrite forallb_app, Hm1. auto.
        -- discriminate.
        -- intros H. specialize (Hh H). destruct ok; lia.
        -- intros H. rewrite (Hrej H), (Hr H). lia.
        -- discriminate.
  - assert (U : expected_total [b] = List.length (_blocks_to_feishu_json b)).
    { unfold expected_total, counted_units. cbn. rewrite Hb. lia. }
    assert (N : no_table [b] = true).
    { unfold no_table. cbn. now rewrite Hb. }
    rewrite (write_block_not_table post doc b c Hb). cbv zeta.
    cbn [pending_blocks].
    set (p := pending_blocks c ++ _blocks_to_feishu_json b).
    assert (Lp : List.length p
                 = List.length (pending_blocks c)
                   + List.length (_blocks_to_feishu_json b))
      by (unfold p; apply length_app).
    destruct (50 <=? List.length p) eqn:E.
    + destruct (flush_facts (Counters p (success_count c) (total_count c)) w)
        as (n & ex & ms & w1 & Y & Hreq & Hm & Hh & Hr & Ha).
      cbn [pending_blocks success_count total_count] in *.
      destruct (batch_requests_sent _ _ _ _ Hreq) as (Hsent & Hpar & _).
      do 4 eexists. split; [exact Y|].
      unfold run_facts. rewrite U. cbn [total_count pending_blocks success_count].
      cbn [List.length].
      split; [lia|].
      split; [exact (batch_requests_well_formed _ _ _ _ Hreq)|].
      split; [auto|]. split; [|split; [|split]].
      * intros _. split; [|exact Hpar].
        rewrite Hsent. cbn [flat_map]. unfold p. now rewrite !app_nil_r.
      * intros H. specialize (Hh H). lia.
      * intros H. rewrite (Hr H). lia.
      * intros H _. rewrite (Ha H). lia.
    + exists (Counters p (success_count c) (total_count c)), [], [], w.
      split; [apply yields_ret|].
      unfold run_facts. rewrite U. cbn [total_count pending_blocks success_count].
      split; [lia|]. split; [constructor|]. split; [reflexivity|].
      split; [|split; [|split]]; try (intros; lia); try reflexivity.
      intros _. split; [|constructor].
      cbn. unfold p. now rewrite app_nil_r.
Qed.

Lemma loop_facts blocks :
  forall c w,
  exists c' ex ms w',
    yields (for_each blocks (write_block post doc) c) w c' ex ms w'
    /\ run_facts post doc blocks c c' ex ms.
Proof.
  induction blocks as [|b blocks IH]; intros c w.
  - exists c, [], [], w. split; [apply yields_ret | apply run_facts_nil].
  - destruct (write_block_facts b c w) as (c1 & ex1 & ms1 & w1 & Y1 & F1).
    destruct (IH c1 w1) as (c2 & ex2 & ms2 & w2 & Y2 & F2).
    exists c2, (ex1 ++ ex2), (ms1 ++ ms2), w2. split.
    + cbn [for_each]. exact (yields_bind _ _ _ _ _ _ _ _ _ _ _ Y1 Y2).
    + exact (run_facts_cons _ _ _ _ _ _ _ _ _ F1 F2).
Qed.

End LoopRuns.

Lemma scanned_blocks_shape content blocks :
  _markdown_to_blocks content = Returned blocks ->
  forallb block_shape blocks = true.
Proof.
  intros Hs. apply forallb_forall. intros b Hb.
  exact (scanned_block_shape _ _ _ Hs Hb).
Qed.

Lemma counted_units_positive b : block_shape b = true -> 0 < counted_units b.
Proof.
  intros H. unfold counted_units. destruct (is_table b); [lia|].
  destruct (translated_block_shape b H) as [Hne _].
  destruct (_blocks_to_feishu_json b); [congruence | cbn; lia].
Qed.

Lemma expected_total_positive blocks :
  blocks <> [] -> forallb block_shape blocks = true -> 0 < expected_total blocks.
Proof.
  destruct blocks as [|b blocks]; [congruence|]. intros _ H.
  cbn [forallb] in H. apply andb_true_iff in H. destruct H as [Hb _].
  pose proof (counted_units_positive b Hb).
  unfold expected_total, list_sum. cbn [map fold_right]. lia.
Qed.

Section DocumentRuns.
Context {Store : Type}.
Variable post : Store -> request -> Store * response.
Variable doc : string.

(** The loop over the blocks and the last flush. *)
Lemma write_blocks_facts blocks w :
  exists c ex ms w',
    yields (write_blocks post doc blocks) w c ex ms w'
    /\ total_count c = expected_total blocks
    /\ Forall (fun e => well_formed_request doc (fst e)) ex
    /\ (forallb block_shape blocks = true -> forallb progress_message ms = true)
    /\ (no_table blocks = true ->
        blocks_sent ex = flat_map _blocks_to_feishu_json blocks
        /\ Forall (fun e => parent_block_id (fst e) = doc) ex)
    /\ (honest post -> success_count c <= total_count c)
    /\ (rejects_all post -> success_count c = 0)
    /\ (acknowledges post -> no_table blocks = true ->
        success_count c = total_count c).
Proof.
  destruct (loop_facts post doc blocks (Counters [] 0 0) w)
    as (c & ex & ms & w1 & Y & F1 & F2 & F3 & F4 & F5 & F6 & F7).
  cbn [total_count pending_blocks success_count List.length app] in *.
  unfold write_blocks.
  destruct (is_nil (pending_blocks c)) eqn:En.
  - assert (Ep : pending_blocks c = [])
      by (destruct (pending_blocks c); [reflexivity | discriminate]).
    exists c, ex, ms, w1. split.
    { eapply yields_cast; [ystep Y; rewrite En; apply yields_ret | list_eq | list_eq]. }
    rewrite Ep in *. cbn [List.length] in F1. rewrite app_nil_r in F4.
    split; [lia|]. split; [exact F2|]. split; [exact F3|]. split; [exact F4|].
    split; [|split].
    + intros H. specialize (F5 H). lia.
    + exact F6.
    + intros H N. specialize (F7 H N). lia.
  - destruct (batch_facts post doc doc (pending_blocks c) w1)
      as (n & ex2 & ms2 & w2 & Y2 & Hreq & Hm & Hh & Hr & Ha).
    destruct (batch_requests_sent _ _ _ _ Hreq) as (Hsent & Hpar & _).
    exists (Counters (pending_blocks c) (success_count c + n)
                     (total_count c + List.length (pending_blocks c))),
      (ex ++ ex2), (ms ++ ms2), w2.
    split.
    { eapply yields_cast;
        [ystep Y; rewrite En; ystep Y2; apply yields_ret | list_eq | list_eq]. }
    cbn [total_count pending_blocks success_count].
    split; [lia|].
    split; [apply Forall_app; split;
            [exact F2 | exact (batch_requests_well_formed _ _ _ _ Hreq)]|].
    split; [|split; [|split; [|split]]].
    + intros H. rewrite forallb_app, (F3 H), Hm. reflexivity.
    + intros N. destruct (F4 N) as [F4s F4p]. split.
      * now rewrite blocks_sent_app, Hsent.
      * now apply Forall_app.
    + intros H. specialize (F5 H). specialize (Hh H). lia.
    + intros H. rewrite (F6 H), (Hr H). reflexivity.
    + intros H N. specialize (F7 H N). rewrite (Ha H). lia.
Qed.

(** The whole of [write_document_content] on a content that gives blocks:
    the summary carries the number of counted units, which is not zero. *)
Lemma document_run content blocks w :
  _markdown_to_blocks content = Returned blocks ->
  blocks <> [] ->
  exists s ex ms w',
    yields (write_document_content post doc content) w
           (rate_above_half s (expected_total blocks))
           ex
           (WritingContent doc
            :: ms
            ++ [if rate_above_half s (expected_total blocks)
                then WriteDone s (expected_total blocks)
                else WritePartlyFailed s (expected_total blocks)])
           w'
    /\ 0 < expected_total blocks
    /\ Forall (fun e => well_formed_request doc (fst e)) ex
    /\ forallb progress_message ms = true
    /\ (no_table blocks = true ->
        blocks_sent ex = flat_map _blocks_to_feishu_json blocks
        /\ Forall (fun e => parent_block_id (fst e) = doc) ex)
    /\ (honest post -> s <= expected_total blocks)
    /\ (rejects_all post -> s = 0)
    /\ (acknowledges post -> no_table blocks = true ->
        s = expected_total blocks).
Proof.
  intros Hb Hne.
  pose proof (scanned_blocks_shape _ _ Hb) as Hs.
  pose proof (expected_total_positive _ Hne Hs) as Hpos.
  destruct (write_blocks_facts blocks (after_banner doc w))
    as (c & ex & ms & w1 & Y & F1 & F2 & F3 & F4 & F5 & F6 & F7).
  destruct (write_summary post doc content blocks w c ex ms w1 Hb Hne Y)
    as (w' & Yd).
  rewrite F1 in *.
  replace (expected_total blocks =? 0) with false in Yd
    by (symmetry; apply Nat.eqb_neq; lia).
  cbn [negb andb] in Yd.
  exists (success_count c), ex, ms, w'.
  split; [exact Yd|]. split; [exact Hpos|]. split; [exact F2|].
  split; [exact (F3 Hs)|]. split; [exact F4|]. split; [exact F5|].
  split; [exact F6 | exact F7].
Qed.

(** The requests of [write_document_content], for any content whose
    conversion returns. *)
Lemma document_requests content blocks w :
  _markdown_to_blocks content = Returned blocks ->
  exists ok ex ms w',
    yields (write_document_content post doc content) w ok ex ms w'
    /\ Forall (fun e => well_formed_request doc (fst e)) ex.
Proof.
  intros Hb. destruct blocks as [|b bs].
  - destruct (write_nothing post doc content w Hb) as (w' & Y).
    do 4 eexists. split; [exact Y | constructor].
  - assert (Hne : b :: bs <> []) by discriminate.
    destruct (document_run content (b :: bs) w Hb Hne)
      as (s & ex & ms & w' & Y & _ & Hwf & _).
    do 4 eexists. split; [exact Y | exact Hwf].
Qed.

End DocumentRuns.

(** X13: for a content whose conversion gives blocks, and whatever the
    transport answers, [write_document_content] returns; it prints the
    banner, then only lines of the batch writer and of the table builder,
    then the summary.  The total of the summary is fixed by the blocks: one
    for each table and one for each wire block of the other blocks, and it
    is never zero, so that neither the "nothing to write" line nor the
    "empty table" line is ever printed; the result is [True] exactly when
    more than half of that total is counted as written. *)
Theorem summary_counts_every_block
        {Store : Type} (post : Store -> request -> Store * response)
        (doc content : string) (blocks : list block) (w : world) :
  _markdown_to_blocks content = Returned blocks ->
  blocks <> [] ->
  let t := expected_total blocks in
  exists ok s ex ms w',
    yields (write_document_content post doc content) w ok ex
           (WritingContent doc
            :: ms ++ [if ok then WriteDone s t else WritePartlyFailed s t])
           w'
    /\ 0 < t
    /\ forallb progress_message ms = true
    /\ (ok = true <-> t < 2 * s).
Proof.
  intros Hb Hne t.
  destruct (document_run post doc content blocks w Hb Hne)
    as (s & ex & ms & w' & Y & Hpos & _ & Hm & _).
  fold t in Y, Hpos.
  exists (rate_above_half s t), s, ex, ms, w'.
  split; [exact Y|]. split; [exact Hpos|]. split; [exact Hm|].
  exact (proj2 (rate_above_half_spec s t Hpos)).
Qed.

Lemma summary_counts_every_block_witness :
  let content := "# Plan
- a
- b
k | v
--|--
1 | 2" in
  let t := expected_total
             [Heading 1 "Plan"; BulletList ["a"; "b"]; Table ["k"; "v"] [["1"; "2"]]] in
  exists ok s ex ms w',
    yields (write_document_content no_shell "doc" content) (start tt) ok ex
           (WritingContent "doc"
            :: ms ++ [if ok then WriteDone s t else WritePartlyFailed s t])
           w'
    /\ 0 < t
    /\ forallb progress_message ms = true
    /\ (ok = true <-> t < 2 * s).
Proof.
  apply (summary_counts_every_block
           no_shell "doc" _
           [Heading 1 "Plan"; BulletList ["a"; "b"]; Table ["k"; "v"] [["1"; "2"]]]);
    [reflexivity | discriminate].
Defined.

(** X14: whatever the content, the transport and the outcome,
    [write_document_content] ends, and every request it has posted by then
    is for the document and carries at least one and at most 50 children.
    When the conversion returns, the writer returns; when the conversion
    raises, the exception leaves the writer after the banner and no request
    has been posted. *)
Theorem every_request_well_formed
        {Store : Type} (post : Store -> request -> Store * response)
        (doc content : string) (w : world) :
  exists o ex ms w',
    write_document_content post doc content w = (o, w')
    /\ exchanges w' = exchanges w ++ ex
    /\ printed w' = printed w ++ ms
    /\ Forall (fun e => document_id (fst e) = doc
                        /\ 1 <= List.length (children (fst e)) <= 50) ex
    /\ (forall blocks, _markdown_to_blocks content = Returned blocks ->
                       exists ok, o = Returned ok)
    /\ (forall e, _markdown_to_blocks content = Raised e ->
                  o = Raised e /\ ex = [] /\ ms = [WritingContent doc]).
Proof.
  destruct (_markdown_to_blocks content) as [blocks|e] eqn:Hb.
  - destruct (document_requests post doc content blocks w Hb)
      as (ok & ex & ms & w' & (E & Hex & Hms) & Hwf).
    exists (Returned ok), ex, ms, w'.
    split; [exact E|]. split; [exact Hex|]. split; [exact Hms|].
    split; [exact Hwf|]. split; [intros _ _; now exists ok | discriminate].
  - exists (Raised e), [], [WritingContent doc], (after_banner doc w).
    split; [exact (write_raises post doc content w e Hb)|].
    split; [cbn; now rewrite app_nil_r|]. split; [reflexivity|].
    split; [constructor|]. split; [discriminate|].
    intros e' He'. injection He' as <-. repeat split.
Qed.

(** X15: for a content whose conversion gives blocks without a table,
    whatever the transport answers, the children of the requests, end to
    end, are exactly the wire blocks of the blocks, in the order of the
    document: after a failed batch nothing is sent again and nothing is left
    out; every request goes under the document root. *)
Theorem table_free_content_sent_in_order
        {Store : Type} (post : Store -> request -> Store * response)
        (doc content : string) (blocks : list block) (w : world) :
  _markdown_to_blocks content = Returned blocks ->
  no_table blocks = true ->
  exists ok ex ms w',
    yields (write_document_content post doc content) w ok ex ms w'
    /\ blocks_sent ex = flat_map _blocks_to_feishu_json blocks
    /\ Forall (fun e => parent_block_id (fst e) = doc) ex.
Proof.
  intros Hb N.
  destruct blocks as [|b bs].
  - destruct (write_nothing post doc content w Hb) as (w' & Y).
    do 4 eexists. split; [exact Y|]. split; [reflexivity | constructor].
  - assert (Hne : b :: bs <> []) by discriminate.
    destruct (document_run post doc content (b :: bs) w Hb Hne)
      as (s & ex & ms & w' & Y & _ & _ & _ & Hsent & _).
    destruct (Hsent N) as [H1 H2].
    do 4 eexists. split; [exact Y|]. split; [exact H1 | exact H2].
Qed.

Lemma table_free_content_sent_in_order_witness :
  let content := "# Plan
- a
- b

done" in
  exists ok ex ms w',
    yields (write_document_content reject_all "doc" content) (start tt) ok ex ms w'
    /\ blocks_sent ex
       = flat_map _blocks_to_feishu_json
                  [Heading 1 "Plan"; BulletList ["a"; "b"];
                   Paragraph (TextFormatted (FormatRich "done" [Segment "done" plain]))]
    /\ Forall (fun e => parent_block_id (fst e) = "doc") ex.
Proof.
  apply (table_free_content_sent_in_order
           reject_all "doc" _
           [Heading 1 "Plan"; BulletList ["a"; "b"];
            Paragraph (TextFormatted (FormatRich "done" [Segment "done" plain]))]);
    reflexivity.
Defined.

(** X16: when the transport answers nothing to every request, a content
    whose conversion gives blocks is reported as a failure: the writer
    returns [False] and the summary counts 0 of the total, tables included
    (the text fallback of a table does not count). *)
Theorem all_rejected_is_failure
        {Store : Type} (post : Store -> request -> Store * response)
        (doc content : string) (blocks : list block) (w : world) :
  rejects_all post ->
  _markdown_to_blocks content = Returned blocks ->
  blocks <> [] ->
  exists ex ms w',
    yields (write_document_content post doc content) w false ex
           (WritingContent doc
            :: ms ++ [WritePartlyFailed 0 (expected_total blocks)])
           w'.
Proof.
  intros Hr Hb Hne.
  destruct (document_run post doc content blocks w Hb Hne)
    as (s & ex & ms & w' & Y & Hpos & _ & _ & _ & _ & Hs & _).
  rewrite (Hs Hr) in Y.
  assert (E : rate_above_half 0 (expected_total blocks) = false).
  { destruct (rate_above_half 0 _) eqn:R; [|reflexivity].
    apply (proj2 (rate_above_half_spec 0 _ Hpos)) in R. lia. }
  rewrite E in Y. exists ex, ms, w'. exact Y.
Qed.

Lemma all_rejected_is_failure_witness :
  let content := "# Plan
k | v
--|--
1 | 2" in
  exists ex ms w',
    yields (write_document_content reject_all "doc" content) (start tt) false ex
           (WritingContent "doc"
            :: ms ++ [WritePartlyFailed
                        0 (expected_total
                             [Heading 1 "Plan"; Table ["k"; "v"] [["1"; "2"]]])])
           w'.
Proof.
  apply (all_rejected_is_failure
           reject_all "doc" _ [Heading 1 "Plan"; Table ["k"; "v"] [["1"; "2"]]]);
    [intros s r; reflexivity | reflexivity | discriminate].
Defined.

(** X17: when the transport never reports more children than a request
    carried, the summary of a content whose conversion gives blocks never
    counts more successes than its total: the success ratio is at most 1. *)
Theorem honest_success_bounded
        {Store : Type} (post : Store -> request -> Store * response)
        (doc content : string) (blocks : list block) (w : world) :
  honest post ->
  _markdown_to_blocks content = Returned blocks ->
  blocks <> [] ->
  let t := expected_total blocks in
  exists ok s ex ms w',
    yields (write_document_content post doc content) w ok ex
           (WritingContent doc
            :: ms ++ [if ok then WriteDone s t else WritePartlyFailed s t])
           w'
    /\ s <= t.
Proof.
  intros Hh Hb Hne t.
  destruct (document_run post doc content blocks w Hb Hne)
    as (s & ex & ms & w' & Y & _ & _ & _ & _ & Hs & _).
  fold t in Y, Hs.
  exists (rate_above_half s t), s, ex, ms, w'. split; [exact Y | exact (Hs Hh)].
Qed.

Lemma honest_success_bounded_witness :
  let content := "# Plan
k | v
--|--
1 | 2" in
  let t := expected_total [Heading 1 "Plan"; Table ["k"; "v"] [["1"; "2"]]] in
  exists ok s ex ms w',
    yields (write_document_content (shell_with_cells ["c0"; "c1"; "c2"; "c3"])
                                   "doc" content)
           (start tt) ok ex
           (WritingContent "doc"
            :: ms ++ [if ok then WriteDone s t else WritePartlyFailed s t])
           w'
    /\ s <= t.
Proof.
  apply (honest_success_bounded
           (shell_with_cells ["c0"; "c1"; "c2"; "c3"]) "doc" _
           [Heading 1 "Plan"; Table ["k"; "v"] [["1"; "2"]]]).
  - intros s r kids. unfold shell_with_cells, stateless. cbn [snd].
    destruct (children r) as [|[| |rs cs] [|b l]]; intros H; injection H as <-;
      cbn; lia.
  - reflexivity.
  - discriminate.
Defined.

(** X18: when the transport accepts every request and reports no children
    or as many as were sent, a content whose conversion gives blocks without
    a table is written in full: the writer returns [True] and the summary
    counts every wire block. *)
Theorem acknowledged_table_free_content_succeeds
        {Store : Type} (post : Store -> request -> Store * response)
        (doc content : string) (blocks : list block) (w : world) :
  acknowledges post ->
  _markdown_to_blocks content = Returned blocks ->
  no_table blocks = true ->
  blocks <> [] ->
  let t := List.length (flat_map _blocks_to_feishu_json blocks) in
  exists ex ms w',
    yields (write_document_content post doc content) w true ex
           (WritingContent doc :: ms ++ [WriteDone t t]) w'
    /\ blocks_sent ex = flat_map _blocks_to_feishu_json blocks.
Proof.
  intros Ha Hb N Hne t.
  destruct (document_run post doc content blocks w Hb Hne)
    as (s & ex & ms & w' & Y & Hpos & _ & _ & Hsent & _ & _ & Hs).
  rewrite (Hs Ha N) in Y. destruct (Hsent N) as [Hsent' _].
  assert (Et : expected_total blocks = t).
  { unfold t. clear - N. induction blocks as [|b bs IH]; [reflexivity|].
    unfold no_table in N. cbn [forallb] in N. apply andb_true_iff in N.
    destruct N as [Hb N]. apply negb_true_iff in Hb.
    unfold expected_total, list_sum in *. cbn [map fold_right flat_map].
    rewrite length_app, (IH N). unfold counted_units. now rewrite Hb. }
  rewrite Et in *.
  assert (E : rate_above_half t t = true).
  { apply (proj2 (rate_above_half_spec t t Hpos)). lia. }
  rewrite E in Y. exists ex, ms, w'. split; [exact Y | exact Hsent'].
Qed.

Lemma acknowledged_table_free_content_succeeds_witness :
  let content := "# Plan
- a
- b" in
  let t := List.length (flat_map _blocks_to_feishu_json
                                 [Heading 1 "Plan"; BulletList ["a"; "b"]]) in
  exists ex ms w',
    yields (write_document_content accept_all "doc" content) (start tt) true ex
           (WritingContent "doc" :: ms ++ [WriteDone t t]) w'
    /\ blocks_sent ex
       = flat_map _blocks_to_feishu_json [Heading 1 "Plan"; BulletList ["a"; "b"]].
Proof.
  apply (acknowledged_table_free_content_succeeds
           accept_all "doc" _ [Heading 1 "Plan"; BulletList ["a"; "b"]]).
  - intros s r. exists []. split; [reflexivity | now left].
  - reflexivity.
  - reflexivity.
  - discriminate.
Defined.

(** ** A table whose shell comes back with enough cells *)

Lemma indexed_row_length cc r c row :
  List.length (indexed_row cc r c row) = List.length row.
Proof.
  rewrite <- (length_map fst), indexed_row_indexes. apply length_seq.
Qed.

Lemma indexed_rows_length cc rows :
  forall r, List.length (indexed_rows cc r rows) = List.length (List.concat rows).
Proof.
  induction rows as [|row rows IH]; intros r; [reflexivity|].
  cbn [indexed_rows List.concat]. now rewrite !length_app, indexed_row_length, IH.
Qed.

Lemma indexed_rows_in_range len cc rows :
  Forall (fun row => List.length row <= cc) rows ->
  forall r,
    (r + List.length rows) * cc <= len ->
    forallb (in_range len) (indexed_rows cc r rows) = true.
Proof.
  induction 1 as [|row rows Hrow Hrows IH]; intros r Hlen; [reflexivity|].
  cbn [indexed_rows]. rewrite forallb_app. apply andb_true_iff. split.
  - apply forallb_forall. intros cell Hin.
    apply (in_map fst) in Hin. rewrite indexed_row_indexes in Hin.
    apply in_seq in Hin. unfold in_range. apply Nat.ltb_lt.
    cbn [List.length] in Hlen. nia.
  - apply IH. cbn [List.length] in Hlen. lia.
Qed.

(** X19: when the shell of a table is created and comes back with at
    least [row_count * col_count] cell identifiers, and no row has more than
    [col_count] cells, the builder sends exactly one fill request per cell,
    in row-major order, each to the identifier at the cell's index
    [row_idx * col_count + col_idx] and with the cell's text as its only
    child; no identifier is used twice and no "cells missing" line is
    printed; it returns [True] exactly when at least one of these requests
    got a result. *)
Theorem table_filled_cell_by_cell
        {Store : Type} (post : Store -> request -> Store * response)
        (doc parent : string) (headers : list string) (rows : list (list string))
        (w : world) (table_info : child) (more : list child) :
  let cc := col_count_of headers rows in
  let rc := row_count_of headers rows in
  let shell := Request doc parent [TableShell rc cc] in
  let ids := cells table_info in
  let all_rows := all_rows_of headers rows in
  0 < rc -> 0 < cc ->
  snd (post (store w) shell) = Some (table_info :: more) ->
  rc * cc <= List.length ids ->
  Forall (fun row => List.length row <= cc) all_rows ->
  exists ex w',
    let filled := List.length (filter succeeded ex) in
    yields (_create_table_block post doc parent headers rows) w (0 <? filled)
           ((shell, Some (table_info :: more)) :: ex)
           [CreatingTable rc cc; TableFilled filled (rc * cc)]
           w'
    /\ map fst ex = map (fill_request doc ids) (indexed_rows cc 0 all_rows)
    /\ NoDup (map fst (indexed_rows cc 0 all_rows))
    /\ List.length ex = List.length (List.concat all_rows)
    /\ (forallb succeeded ex = true ->
        filled = List.length (List.concat all_rows)).
Proof.
  intros cc rc shell ids all_rows Hrc Hcc Hshell Hids Hrows.
  assert (Hcc' : col_count_of headers rows <> 0) by (fold cc; lia).
  assert (Hrc' : row_count_of headers rows <> 0) by (fold rc; lia).
  pose proof (create_table_after_shell post doc parent headers rows w Hcc' Hrc') as H.
  cbv zeta in H. fold cc rc shell in H. rewrite Hshell in H.
  destruct H as (ex & w' & Y & Hreq). fold ids all_rows in Y, Hreq.
  replace (List.length ids <? rc * cc) with false in Y
    by (symmetry; apply Nat.ltb_ge; exact Hids).
  cbn [app] in Y.
  assert (Hall : attempted_cells (List.length ids) cc 0 all_rows
                 = indexed_rows cc 0 all_rows).
  { rewrite (attempted_stops _ _ _ Hrows). apply take_while_all.
    apply indexed_rows_in_range; [exact Hrows|].
    unfold all_rows. rewrite <- row_count_all_rows. fold rc. cbn [Nat.add]. exact Hids. }
  rewrite Hall in Hreq.
  assert (Hlen : List.length ex = List.length (List.concat all_rows)).
  { rewrite <- (length_map fst ex), Hreq, length_map. apply indexed_rows_length. }
  exists ex, w'. cbv zeta.
  split; [exact Y|]. split; [exact Hreq|].
  split; [exact (proj1 (indexed_rows_indexes cc all_rows Hrows 0))|].
  split; [exact Hlen|].
  intros Hs. now rewrite (filter_all _ _ Hs).
Qed.

Lemma table_filled_cell_by_cell_witness :
  exists ex w',
    let filled := List.length (filter succeeded ex) in
    yields (_create_table_block (shell_with_cells ["c0"; "c1"; "c2"; "c3"; "c4"])
                                "doc" "doc" ["a"; "b"] [["1"]])
           (start tt) (0 <? filled)
           ((Request "doc" "doc" [TableShell 2 2], Some [Child ["c0"; "c1"; "c2"; "c3"; "c4"]])
              :: ex)
           [CreatingTable 2 2; TableFilled filled (2 * 2)]
           w'
    /\ map fst ex
       = map (fill_request "doc" ["c0"; "c1"; "c2"; "c3"; "c4"])
             (indexed_rows 2 0 [["a"; "b"]; ["1"]])
    /\ NoDup (map fst (indexed_rows 2 0 [["a"; "b"]; ["1"]]))
    /\ List.length ex = List.length (List.concat [["a"; "b"]; ["1"]])
    /\ (forallb succeeded ex = true ->
        filled = List.length (List.concat [["a"; "b"]; ["1"]])).
Proof.
  apply (table_filled_cell_by_cell
           (shell_with_cells ["c0"; "c1"; "c2"; "c3"; "c4"])
           "doc" "doc" ["a"; "b"] [["1"]] (start tt)
           (Child ["c0"; "c1"; "c2"; "c3"; "c4"]) []).
  - cbn. lia.
  - cbn. lia.
  - reflexivity.
  - cbn. lia.
  - repeat constructor; cbn; lia.
Defined.

(** ** Creating a document *)

Lemma skipn_printed {A : Type} (l ms : list A) :
  skipn (List.length l) (l ++ ms) = ms.
Proof.
  rewrite skipn_app, skipn_all, Nat.sub_diag. reflexivity.
Qed.

(** X20: what [create_document] does after the creation request.  With no
    result, or a result without a document identifier or with an empty one,
    it returns [None], having printed the failure line, and posts nothing
    under any document.  Otherwise it runs [write_document_content] on the
    new identifier.  When the conversion of the content returns, it returns
    the document's information whatever the writer returned: the [False] of
    the writer only adds a warning line, and [content_written] is [True] in
    every case; every request the writer posts is for the new document.
    When the conversion raises, the exception leaves [create_document]: the
    document has been created, the writer has printed its banner and no
    request has been posted under the document. *)
Theorem create_document_outcome
        {Store : Type} (post : Store -> request -> Store * response)
        (post_document : Store -> string -> option string
                         -> Store * option (option string))
        (now title content : string) (folder_token : option string) (w : world) :
  let created := post_document (store w) title (truthy folder_token) in
  let w1 := World (fst created) (exchanges w) (printed w) in
  let run := create_document post post_document now title content folder_token w in
  match snd created with
  | None => run = (Returned None, w1, [CreatingDocument title; CreationFailed])
  | Some id =>
      match truthy id with
      | None => run = (Returned None, w1, [CreatingDocument title; DocumentIdMissing])
      | Some document_id =>
          match _markdown_to_blocks content with
          | Returned _ =>
              exists ok ex ms w',
                yields (write_document_content post document_id content) w1 ok ex ms w'
                /\ run
                   = (Returned
                        (Some (DocInfo document_id title
                                       ("https://feishu.cn/docx/" +++ document_id)
                                       folder_token now true)),
                      w',
                      [CreatingDocument title; DocumentCreated document_id]
                      ++ map WriterLine ms
                      ++ (if ok then [] else [ContentNotWritten]))
                /\ Forall (fun e => well_formed_request document_id (fst e)) ex
          | Raised e =>
              run
              = (Raised e,
                 after_banner document_id w1,
                 [CreatingDocument title; DocumentCreated document_id;
                  WriterLine (WritingContent document_id)])
              /\ exchanges (after_banner document_id w1) = exchanges w
          end
      end
  end.
Proof.
  cbv zeta. unfold create_document.
  destruct (post_document (store w) title (truthy folder_token))
    as [store1 [id|]]; cbn [fst snd]; [|reflexivity].
  destruct (truthy id) as [document_id|]; [|reflexivity].
  destruct (_markdown_to_blocks content) as [blocks|e] eqn:Hb.
  - destruct (document_requests post document_id content blocks
                                (World store1 (exchanges w) (printed w)) Hb)
      as (ok & ex & ms & w' & Y & Hwf).
    exists ok, ex, ms, w'. split; [exact Y|]. split; [|exact Hwf].
    destruct Y as (E & _ & Hp). rewrite E. cbv zeta.
    cbn [printed] in Hp |- *. rewrite Hp, skipn_printed. reflexivity.
  - rewrite (write_raises post document_id content _ e Hb). cbv zeta.
    unfold after_banner. cbn [printed exchanges store].
    rewrite skipn_printed. split; reflexivity.
Qed.

(** ** The title of a rendered document and its first heading *)

Lemma match_title_line ws text :
  ws <> "" -> forall_chars is_space ws = true ->
  text <> "" -> one_line text = true -> lstrip text = text ->
  match_title (String "#" (ws +++ text)) = Some text.
Proof.
  intros Hws Aws Ht At Lt. unfold match_title, lit. cbn [strip_prefix].
  change (Ascii.eqb "#" "#") with true. cbv iota.
  apply greedy_run; auto.
  - now apply lstrip_head.
  - destruct ws; [congruence | cbn; lia].
  - apply greedy_whole; auto.
    destruct text; [congruence | cbn; lia].
Qed.

(** X21: when the first line of a rendered document is [#], whitespace
    and a text that neither starts nor ends with whitespace, the title
    [_extract_title] gives is that text, whatever [data] and the index are,
    and it is the text of the level-1 heading with which the blocks of the
    document begin: the scan of the document is that heading followed by
    the scan of the remaining lines, so that whenever the conversion
    returns, its first block is that heading. *)
Theorem title_is_first_heading
        (default_title : nat -> string) (data_title : option string) (index : nat)
        (ws text : string) (rest : list string) :
  ws <> "" -> forall_chars is_space ws = true -> one_line ws = true ->
  text <> "" -> one_line text = true ->
  lstrip text = text -> rstrip text = text ->
  forallb one_line rest = true ->
  let rendered := join (String nl "") (String "#" (ws +++ text) :: rest) in
  _extract_title default_title rendered data_title index = text
  /\ _markdown_to_blocks rendered
     = prepend [Heading 1 text] (_markdown_to_blocks (join (String nl "") rest))
  /\ (forall blocks, _markdown_to_blocks rendered = Returned blocks ->
                     hd_error blocks = Some (Heading 1 text)).
Proof.
  intros Hws Aws Lws Ht At Lt Rt Hrest rendered.
  assert (Hline : one_line (String "#" (ws +++ text)) = true).
  { unfold one_line in *. cbn [forall_chars]. now rewrite forall_chars_app, Lws, At. }
  assert (Hall : forallb one_line (String "#" (ws +++ text) :: rest) = true).
  { cbn [forallb]. now rewrite Hline, Hrest. }
  assert (Hr : rstrip (String "#" (ws +++ text)) = String "#" (ws +++ text)).
  { change (String "#" (ws +++ text)) with ("#" +++ ws +++ text).
    rewrite <- append_assoc. rewrite rstrip_app; rewrite Rt; auto. }
  assert (Hstep : _markdown_to_blocks rendered
                  = prepend [Heading 1 text]
                            (_markdown_to_blocks (join (String nl "") rest))).
  { unfold rendered. apply markdown_step; [exact Hall | exact Hrest |].
    apply (scan_step_heading _ rest "#" text). rewrite Hr.
    apply (match_heading_line "#" ws text); auto; cbn; lia. }
  split; [|split; [exact Hstep|]].
  - unfold _extract_title, rendered. cbv zeta. rewrite (split_join _ _ Hall).
    cbn [hd]. unfold strip at 1.
    change (lstrip (String "#" (ws +++ text))) with (String "#" (ws +++ text)).
    rewrite Hr, (match_title_line ws text Hws Aws Ht At Lt).
    unfold strip. now rewrite Lt, Rt.
  - intros blocks Hb. rewrite Hstep in Hb.
    apply prepend_returned in Hb. destruct Hb as (more & _ & ->). reflexivity.
Qed.

Lemma title_is_first_heading_witness :
  let rendered := join (String nl "") ["#  Weekly report"; ""; "text"] in
  _extract_title (fun _ => "untitled") rendered (Some "from data") 3
  = "Weekly report"
  /\ _markdown_to_blocks rendered
     = prepend [Heading 1 "Weekly report"]
               (_markdown_to_blocks (join (String nl "") [""; "text"]))
  /\ (forall blocks, _markdown_to_blocks rendered = Returned blocks ->
                     hd_error blocks = Some (Heading 1 "Weekly report")).
Proof.
  apply (title_is_first_heading (fun _ => "untitled") (Some "from data") 3
                                "  " "Weekly report" ["" ; "text"]);
    try reflexivity; discriminate.
Defined.

(** ** A number too long for [int] *)

Lemma digit_is_dot c : is_digit c = true -> is_dot c = true.
Proof.
  intros H. unfold is_dot. destruct (Ascii.eqb c nl) eqn:E; [|reflexivity].
  apply Ascii.eqb_eq in E. subst c. discriminate H.
Qed.

Lemma match_ordered_line digits ws text :
  digits <> "" -> forall_chars is_digit digits = true ->
  ws <> "" -> forall_chars is_space ws = true ->
  text <> "" -> one_line text = true -> lstrip text = text ->
  match_ordered (digits +++ "." +++ ws +++ text) = Some (digits, text).
Proof.
  intros Hd Ad Hws Aws Ht At Lt. unfold match_ordered.
  apply greedy_run; [exact Ad | reflexivity | | exact I |].
  { destruct digits; [congruence | cbn; lia]. }
  unfold lit. rewrite strip_prefix_app.
  apply greedy_run; [exact Aws | now apply lstrip_head | | exact I |].
  { destruct ws; [congruence | cbn; lia]. }
  apply greedy_whole; auto.
  destruct text; [congruence | cbn; lia].
Qed.

(** X23: a document whose first line is a number of more than 4300 digits,
    a dot, whitespace and a text is not converted: [int] raises
    [ValueError] on the number, the exception leaves [_markdown_to_blocks]
    whatever the following lines are, and it leaves
    [write_document_content] after the banner, before any request is
    posted. *)
Theorem long_number_raises
        {Store : Type} (post : Store -> request -> Store * response)
        (doc digits ws text : string) (rest : list string) (w : world) :
  forall_chars is_digit digits = true ->
  int_max_str_digits < String.length digits ->
  ws <> "" -> forall_chars is_space ws = true -> one_line ws = true ->
  text <> "" -> one_line text = true ->
  lstrip text = text -> rstrip text = text ->
  forallb one_line rest = true ->
  let content := join (String nl "") ((digits +++ "." +++ ws +++ text) :: rest) in
  _markdown_to_blocks content = Raised ValueError
  /\ write_document_content post doc content w
     = (Raised ValueError, after_banner doc w)
  /\ exchanges (after_banner doc w) = exchanges w.
Proof.
  intros Ad Hlong Hws Aws Lws Ht At Lt Rt Hrest content.
  assert (Hd : digits <> "").
  { intros ->. cbn in Hlong. lia. }
  assert (Hline : one_line (digits +++ "." +++ ws +++ text) = true).
  { unfold one_line in *. rewrite !forall_chars_app, Lws, At.
    rewrite (forall_chars_impl _ _ _ digit_is_dot Ad). reflexivity. }
  assert (Hr : rstrip (digits +++ "." +++ ws +++ text)
               = digits +++ "." +++ ws +++ text).
  { rewrite <- (append_assoc "." ws text), <- append_assoc.
    rewrite rstrip_app; rewrite Rt; auto. }
  assert (Hm : match_ordered (rstrip (digits +++ "." +++ ws +++ text))
               = Some (digits, text)).
  { rewrite Hr. now apply match_ordered_line. }
  assert (Hstep : scan_step (digits +++ "." +++ ws +++ text) rest
                  = Raised ValueError).
  { destruct (match_ordered_head _ _ Hm) as (c & s & E & Hc).
    destruct (digit_line_rules c s Hc) as (R1 & R2 & R3 & R4 & _).
    unfold scan_step. cbv zeta. rewrite E in *.
    rewrite R1, R2, R3, R4, Hm.
    now rewrite (proj2 (int_raised digits ValueError) (conj Hlong eq_refl)). }
  assert (Hb : _markdown_to_blocks content = Raised ValueError).
  { unfold content. apply markdown_step_raised; [|exact Hstep].
    cbn [forallb]. now rewrite Hline, Hrest. }
  split; [exact Hb|]. split; [|reflexivity].
  unfold write_document_content. now rewrite Hb.
Qed.

Lemma long_number_raises_witness :
  let content :=
    join (String nl "") ((repeat_char "7" 4301 +++ "." +++ " " +++ "x") :: ["# T"]) in
  _markdown_to_blocks content = Raised ValueError
  /\ write_document_content accept_all "doc" content (start tt)
     = (Raised ValueError, after_banner "doc" (start tt))
  /\ exchanges (after_banner "doc" (start tt)) = [].
Proof.
  apply (long_number_raises accept_all "doc" (repeat_char "7" 4301) " " "x" ["# T"]
                            (start tt));
    try (vm_compute; reflexivity); discriminate.
Defined.
